(** * Social media scraper: scraping engine and its utilities

    A shallow embedding of [src/utils/scraperUtils.js] and of the class
    [RealisticScrapingService] ([src/services/scrapingService.js]), with the
    statements of the engine's specification proved over it.

    JavaScript strings are sequences of UTF-16 code units; they are modelled
    as lists of code units [N].  Numbers that the code keeps integral (time
    values, counters, parsed statistics) are modelled as [Z]; [NaN] is the
    [None] of an [option Z]. *)

From Stdlib Require Import ZArith NArith QArith Qround Lia Bool List String Ascii.
From Stdlib Require Import DecimalString.
From stdpp Require Import base option list gmap.
Import ListNotations.

#[local] Open Scope N_scope.
#[local] Close Scope Q_scope.

(* ------------------------------------------------------------------ *)
(** ** Strings of code units *)

Abbreviation jsstring := (list N) (only parsing).

(** The code units of an ASCII literal. *)
Definition u (s : string) : jsstring :=
  List.map N_of_ascii (list_ascii_of_string s).

Definition is_digit (c : N) : bool := (48 <=? c) && (c <=? 57).
Definition is_upper (c : N) : bool := (65 <=? c) && (c <=? 90).
Definition is_lower (c : N) : bool := (97 <=? c) && (c <=? 122).
Definition is_alpha (c : N) : bool := is_upper c || is_lower c.

(** [\w]: letters, digits and the underscore. *)
Definition is_word (c : N) : bool := is_alpha c || is_digit c || (c =? 95).

(** [\s], and the characters removed by [trim] and skipped by [parseInt]:
    white space and line terminators of ECMAScript. *)
Definition is_space (c : N) : bool :=
  ((9 <=? c) && (c <=? 13)) || (c =? 32) || (c =? 160) || (c =? 5760)
  || ((8192 <=? c) && (c <=? 8202)) || (c =? 8232) || (c =? 8233)
  || (c =? 8239) || (c =? 8287) || (c =? 12288) || (c =? 65279).

(** [.] matches everything but a line terminator. *)
Definition is_not_newline (c : N) : bool :=
  negb ((c =? 10) || (c =? 13) || (c =? 8232) || (c =? 8233)).

Definition str_eqb (a b : jsstring) : bool := bool_decide (a = b).

Fixpoint starts_with (needle hay : jsstring) : bool :=
  match needle, hay with
  | [], _ => true
  | _ :: _, [] => false
  | a :: n', b :: h' => (a =? b) && starts_with n' h'
  end.

(** [hay.includes(needle)] *)
Fixpoint includes (needle hay : jsstring) : bool :=
  starts_with needle hay ||
  match hay with
  | [] => false
  | _ :: h' => includes needle h'
  end.

(** [toLowerCase].  Code units outside ASCII are left as they are: the one
    use of it below looks for an ASCII word in the result, and no code unit
    other than the capital ASCII letters lower-cases to a letter of that
    word. *)
Definition lower_unit (c : N) : N := if is_upper c then c + 32 else c.
Definition toLowerCase (s : jsstring) : jsstring := List.map lower_unit s.

Fixpoint trim_start (s : jsstring) : jsstring :=
  match s with
  | c :: s' => if is_space c then trim_start s' else s
  | [] => []
  end.

Definition trim (s : jsstring) : jsstring :=
  List.rev (trim_start (List.rev (trim_start s))).

(** Number to string conversion of an integral number below 10^21 in
    absolute value (template literals, string concatenation). *)
Definition Z_to_js (z : Z) : jsstring :=
  u (NilZero.string_of_int (Z.to_int z)).

(** A number that may be [NaN]. *)
Definition num_to_js (n : option Z) : jsstring :=
  match n with
  | Some z => Z_to_js z
  | None => u "NaN"
  end.

(* ------------------------------------------------------------------ *)
(** ** Regular expressions

    A backtracking matcher with the priorities of ECMAScript: alternatives
    are tried left to right, a greedy quantifier tries one more iteration
    before it tries to stop, a lazy one the other way round, and an
    iteration that consumes nothing is rejected. *)

Inductive regex :=
| REps
| RChar (p : N -> bool)
| RSeq (r1 r2 : regex)
| RAlt (r1 r2 : regex)
| RStar (greedy : bool) (r : regex)
| RGroup (n : nat) (r : regex)
| RNotAhead (r : regex)
| RWordB.

Record mstate := MState {
  before : list N;              (* consumed input, last unit first *)
  after : list N;               (* remaining input *)
  caps : list (nat * list N)    (* capture groups that took part *)
}.

Definition unit_is_word (o : option N) : bool :=
  match o with
  | Some c => is_word c
  | None => false
  end.

(** The text consumed between the states [s] and [s']. *)
Definition consumed (s s' : mstate) : list N :=
  List.rev (firstn (length (before s') - length (before s)) (before s')).

Definition set_cap (n : nat) (v : list N) (s : mstate) : mstate :=
  MState (before s) (after s) ((n, v) :: List.filter (fun c => negb (Nat.eqb (fst c) n)) (caps s)).

Fixpoint rmatch (r : regex) (k : mstate -> option mstate) (s : mstate)
  : option mstate :=
  match r with
  | REps => k s
  | RChar p =>
      match after s with
      | c :: rest =>
          if p c then k (MState (c :: before s) rest (caps s)) else None
      | [] => None
      end
  | RSeq r1 r2 => rmatch r1 (rmatch r2 k) s
  | RAlt r1 r2 =>
      match rmatch r1 k s with
      | Some s' => Some s'
      | None => rmatch r2 k s
      end
  | RStar greedy r' =>
      (fix loop (n : nat) (s : mstate) {struct n} : option mstate :=
         match n with
         | O => k s
         | S n' =>
             let again :=
               rmatch r'
                 (fun s' =>
                    if Nat.ltb (length (after s')) (length (after s))
                    then loop n' s' else None) s in
             if greedy then
               match again with
               | Some s' => Some s'
               | None => k s
               end
             else
               match k s with
               | Some s' => Some s'
               | None => again
               end
         end) (S (length (after s))) s
  | RGroup n r' => rmatch r' (fun s' => k (set_cap n (consumed s s') s')) s
  | RNotAhead r' =>
      match rmatch r' Some s with
      | Some _ => None
      | None => k s
      end
  | RWordB =>
      if xorb (unit_is_word (head (before s))) (unit_is_word (head (after s)))
      then k s else None
  end.

(** Derived forms. *)
Definition ROpt (r : regex) : regex := RAlt r REps.
Definition RPlus (r : regex) : regex := RSeq r (RStar true r).

(** The input units that a literal unit matches under the [i] flag
    (without the [u] flag): those with the same upper-case form, a unit
    outside ASCII never matching an ASCII one.  The table covers the ASCII
    letters and the letters outside ASCII that occur in the patterns of
    this file. *)
Definition same_ci (c x : N) : bool :=
  (x =? c)
  || (is_upper c && (x =? c + 32))
  || (is_lower c && (x =? c - 32))
  || ((c =? 240) && (x =? 208))      (* eth *)
  || ((c =? 376) && (x =? 255))      (* y with diaeresis *)
  || ((c =? 226) && (x =? 194))      (* a with circumflex *)
  || ((c =? 239) && (x =? 207))      (* i with diaeresis *)
  || ((c =? 381) && (x =? 382)).     (* z with caron *)

Fixpoint RLit_gen (eq : N -> N -> bool) (s : list N) : regex :=
  match s with
  | [] => REps
  | [c] => RChar (eq c)
  | c :: s' => RSeq (RChar (eq c)) (RLit_gen eq s')
  end.

(** A literal, matched exactly and under the [i] flag. *)
Definition RLit (s : list N) : regex := RLit_gen N.eqb s.
Definition RLiti (s : list N) : regex := RLit_gen same_ci s.

Fixpoint RAlts (rs : list regex) : regex :=
  match rs with
  | [] => RNotAhead REps
  | [r] => r
  | r :: rs' => RAlt r (RAlts rs')
  end.

Fixpoint RSeqs (rs : list regex) : regex :=
  match rs with
  | [] => REps
  | [r] => r
  | r :: rs' => RSeq r (RSeqs rs')
  end.

(** The result of a successful match: where it starts, its final state. *)
Record rmatched := RMatched {
  m_prefix : list N;     (* input before the match, last unit first *)
  m_state : mstate
}.

(** [RegExp.prototype.exec] from the position given by [bef]/[aft]: the
    leftmost start at which the expression matches. *)
Fixpoint search_from (r : regex) (bef aft : list N) : option rmatched :=
  match rmatch r Some (MState bef aft []) with
  | Some s => Some (RMatched bef s)
  | None =>
      match aft with
      | [] => None
      | c :: rest => search_from r (c :: bef) rest
      end
  end.

(** [str.match(r)] for an expression without the [g] flag. *)
Definition str_match (r : regex) (s : jsstring) : option rmatched :=
  search_from r [] s.

(** [match[n]] for [n >= 1]; [None] is [undefined]. *)
Definition group (n : nat) (m : rmatched) : option (list N) :=
  snd <$> List.find (fun c => Nat.eqb (fst c) n) (caps (m_state m)).

(** [match[0]] *)
Definition whole (m : rmatched) : list N :=
  List.rev (firstn (length (before (m_state m)) - length (m_prefix m))
                   (before (m_state m))).

(** [str.replace(r, by)] for an expression with the [g] flag and a
    replacement text free of [$]. *)
Fixpoint replace_all_from (fuel : nat) (r : regex) (by_ : list N)
    (bef aft : list N) : list N :=
  match fuel with
  | O => aft
  | S fuel' =>
      match search_from r bef aft with
      | None => aft
      | Some m =>
          let skipped :=
            List.rev (firstn (length (m_prefix m) - length bef) (m_prefix m)) in
          let s := m_state m in
          if Nat.eqb (length (before s)) (length (m_prefix m)) then
            (* an empty match: step over one unit *)
            match after s with
            | [] => skipped ++ by_
            | c :: rest =>
                skipped ++ by_ ++ c :: replace_all_from fuel' r by_ (c :: before s) rest
            end
          else skipped ++ by_ ++ replace_all_from fuel' r by_ (before s) (after s)
      end
  end.

Definition replace_all (r : regex) (by_ : list N) (s : jsstring) : jsstring :=
  replace_all_from (S (length s)) r by_ [] s.

(** Pattern pieces shared by the utilities. *)
Definition r_digits : regex := RPlus (RChar is_digit).            (* \d+ *)
Definition r_spaces : regex := RStar true (RChar is_space).       (* \s* *)
Definition r_count : regex :=                                     (* \d+[\d,]* *)
  RSeq r_digits (RStar true (RChar (fun c => is_digit c || (c =? 44)))).


(* ------------------------------------------------------------------ *)
(** ** Object literals used as lookup tables

    [table[key]] on an object literal finds the literal's own properties
    and, failing that, the properties every object inherits from
    [Object.prototype]; only then is the result [undefined]. *)

Definition object_prototype_keys : list jsstring :=
  [u "constructor"; u "hasOwnProperty"; u "isPrototypeOf";
   u "propertyIsEnumerable"; u "toLocaleString"; u "toString"; u "valueOf";
   u "__proto__"; u "__defineGetter__"; u "__defineSetter__";
   u "__lookupGetter__"; u "__lookupSetter__"].

Inductive prop (A : Type) :=
| Own (a : A)                 (* a property of the literal *)
| Inherited (name : jsstring) (* a member of [Object.prototype] *)
| Missing.                    (* [undefined] *)
Arguments Own {A} a.
Arguments Inherited {A} name.
Arguments Missing {A}.

Fixpoint own_get {A} (o : list (jsstring * A)) (k : jsstring) : option A :=
  match o with
  | [] => None
  | (k', a) :: o' => if str_eqb k k' then Some a else own_get o' k
  end.

Definition obj_get {A} (o : list (jsstring * A)) (k : jsstring) : prop A :=
  match own_get o k with
  | Some a => Own a
  | None =>
      if existsb (str_eqb k) object_prototype_keys then Inherited k else Missing
  end.

(** The values such a lookup yields in a table of numbers. *)
Inductive value :=
| VUndefined
| VNumber (z : Z)
| VObject (name : jsstring).  (* an inherited function or object *)

Definition value_of (p : prop Z) : value :=
  match p with
  | Own z => VNumber z
  | Inherited n => VObject n
  | Missing => VUndefined
  end.

Definition truthy (v : value) : bool :=
  match v with
  | VUndefined => false
  | VNumber z => negb (z =? 0)%Z
  | VObject _ => true
  end.

(** [a || b] *)
Definition js_or (a b : value) : value := if truthy a then a else b.

(** [n - v] on numbers: [NaN] unless [v] is a number. *)
Definition js_minus (n : Z) (v : value) : option Z :=
  match v with
  | VNumber z => Some (n - z)%Z
  | _ => None
  end.

(* ------------------------------------------------------------------ *)
(** ** scraperUtils.js *)

Definition timeMap : list (jsstring * Z) :=
  [(u "1h", 60 * 60 * 1000);
   (u "6h", 6 * 60 * 60 * 1000);
   (u "12h", 12 * 60 * 60 * 1000);
   (u "1d", 24 * 60 * 60 * 1000);
   (u "3d", 3 * 24 * 60 * 60 * 1000);
   (u "7d", 7 * 24 * 60 * 60 * 1000);
   (u "30d", 30 * 24 * 60 * 60 * 1000)]%Z.

Definition parseTimeframe (timeframe : jsstring) : value :=
  js_or (value_of (obj_get timeMap timeframe))
        (value_of (obj_get timeMap (u "7d"))).

(** [parseInt(s)]: leading white space, a sign, a [0x] prefix, then the
    longest run of digits; [None] is [NaN].  The result is the exact
    integer (the code's doubles agree with it below 2^53). *)
Definition digit_val (radix c : N) : option N :=
  let d := if is_digit c then Some (c - 48)
           else if is_lower c then Some (c - 97 + 10)
           else if is_upper c then Some (c - 65 + 10)
           else None in
  match d with
  | Some v => if v <? radix then Some v else None
  | None => None
  end.

Fixpoint parse_digits (radix : N) (acc : option N) (s : jsstring) : option N :=
  match s with
  | [] => acc
  | c :: s' =>
      match digit_val radix c with
      | Some v => parse_digits radix (Some (default 0 acc * radix + v)) s'
      | None => acc
      end
  end.

Definition parseInt (s : jsstring) : option Z :=
  let s := trim_start s in
  let '(sign, s) :=
    match s with
    | 45 :: r => ((-1)%Z, r)
    | 43 :: r => (1%Z, r)
    | _ => (1%Z, s)
    end in
  let '(radix, s) :=
    match s with
    | 48 :: x :: r => if (x =? 120) || (x =? 88) then (16, r) else (10, s)
    | _ => (10, s)
    end in
  (fun n => (sign * Z.of_N n)%Z) <$> parse_digits radix None s.

(** The three shapes of pattern in [parseStats], all under the [i] flag:
    a count, white space and one of several words or symbols; a count,
    white space and a word with an optional plural s; a word, as few
    characters as possible, and a count.  The count is a digit followed by
    digits and commas and is capture group 1. *)
Definition pat_alts (alts : list (list N)) : regex :=
  RSeqs [RGroup 1 r_count; r_spaces; RGroup 2 (RAlts (List.map RLiti alts))].

Definition pat_plural (word : list N) : regex :=
  RSeqs [RGroup 1 r_count; r_spaces; RLiti word; ROpt (RLiti (u "s"))].

Definition pat_after (word : list N) : regex :=
  RSeqs [RLiti word; RStar false (RChar is_not_newline); RGroup 1 r_count].

(** The symbols that stand between the words in the alternatives, as the
    code units the source file holds. *)
Definition sym_thumb : list N := [240; 376; 8216].
Definition sym_heart : list N := [226; 8482; 165; 239; 184].
Definition sym_red_heart : list N := [226; 164; 239; 184].
Definition sym_repeat : list N := [240; 376; 8221; 8222].
Definition sym_speech : list N := [240; 376; 8217; 172].
Definition sym_eye : list N := [240; 376; 8216; 239; 184].
Definition sym_arrow : list N := [226; 8224; 8212; 239; 184].
Definition sym_thumb_down : list N := [240; 376; 8216; 381].

Definition platformPatterns : list (jsstring * list (jsstring * list regex)) :=
  [(u "twitter",
     [(u "likes", [pat_alts [u "like"; u "heart"; sym_thumb; sym_heart];
                   pat_plural (u "like")]);
      (u "retweets", [pat_alts [u "retweet"; u "repost"; sym_repeat];
                      pat_plural (u "retweet")]);
      (u "replies", [pat_alts [u "repl"; u "comment"; sym_speech];
                     RSeqs [RGroup 1 r_count; r_spaces; RLiti (u "replie");
                            ROpt (RLiti (u "s"))]])]);
   (u "facebook",
     [(u "likes", [pat_alts [u "like"; sym_thumb; u "reaction"];
                   RSeqs [RGroup 1 r_count; r_spaces;
                          RLiti (u "people reacted")]]);
      (u "comments", [pat_alts [u "comment"; sym_speech];
                      pat_plural (u "comment")]);
      (u "shares", [pat_alts [u "share"; sym_repeat];
                    pat_plural (u "share")])]);
   (u "instagram",
     [(u "likes", [pat_alts [u "like"; sym_red_heart]; pat_plural (u "like")]);
      (u "comments", [pat_alts [u "comment"; sym_speech];
                      pat_plural (u "comment")]);
      (u "views", [pat_alts [u "view"; sym_eye]; pat_plural (u "view")])]);
   (u "tiktok",
     [(u "likes", [pat_alts [u "like"; sym_red_heart]; pat_plural (u "like")]);
      (u "comments", [pat_alts [u "comment"; sym_speech];
                      pat_plural (u "comment")]);
      (u "shares", [pat_alts [u "share"; sym_arrow]; pat_plural (u "share")]);
      (u "views", [pat_alts [u "view"; u "play"]; pat_plural (u "view")])]);
   (u "youtube",
     [(u "likes", [pat_alts [u "like"; sym_thumb]; pat_plural (u "like")]);
      (u "dislikes", [pat_alts [u "dislike"; sym_thumb_down];
                      pat_plural (u "dislike")]);
      (u "views", [pat_alts [u "view"; sym_eye]; pat_plural (u "view")]);
      (u "subscribers", [pat_alts [u "subscriber"; u "sub"];
                         pat_plural (u "subscriber")])])].

Definition commonPatterns : list (jsstring * list regex) :=
  [(u "likes", [pat_alts [u "like"; u "heart"; sym_thumb; sym_heart;
                          sym_red_heart];
                pat_plural (u "like");
                pat_after (u "like")]);
   (u "comments", [pat_alts [u "comment"; u "reply"; sym_speech];
                   pat_plural (u "comment");
                   pat_after (u "comment")]);
   (u "shares", [pat_alts [u "share"; u "retweet"; u "repost"; sym_repeat];
                 RSeqs [RGroup 1 r_count; r_spaces;
                        RGroup 2 (RAlts [RSeq (RLiti (u "share")) (ROpt (RLiti (u "s")));
                                         RSeq (RLiti (u "retweet")) (ROpt (RLiti (u "s")));
                                         RSeq (RLiti (u "repost")) (ROpt (RLiti (u "s")))])];
                 pat_after (u "share")]);
   (u "views", [pat_alts [u "view"; u "impression"; sym_eye];
                pat_plural (u "view");
                pat_after (u "view")])].

(** [platformPatterns[platform] || commonPatterns], as the entries that
    [Object.entries] lists: an inherited member of [Object.prototype] is
    truthy and has no entries of its own. *)
Definition patterns_for (platform : jsstring) : list (jsstring * list regex) :=
  match obj_get platformPatterns platform with
  | Own pats => pats
  | Inherited _ => []
  | Missing => commonPatterns
  end.

(** [match[1].replace(/,/g, '')] *)
Definition strip_commas (s : jsstring) : jsstring :=
  replace_all (RChar (N.eqb 44)) [] s.

(** The number a pattern yields on a text: [match && match[1]], then
    [parseInt] of the capture without its commas. *)
Definition pattern_number (statsText : jsstring) (pattern : regex) : option Z :=
  m ← str_match pattern statsText;
  c ← group 1 m;
  if bool_decide (c = []) then None else parseInt (strip_commas c).

(** The inner loop: the first pattern that yields a number. *)
Fixpoint first_number (statsText : jsstring) (patternArray : list regex)
  : option Z :=
  match patternArray with
  | [] => None
  | pattern :: rest =>
      match pattern_number statsText pattern with
      | Some number => Some number
      | None => first_number statsText rest
      end
  end.

Fixpoint stats_entries (statsText : jsstring)
    (entries : list (jsstring * list regex)) (stats : gmap (list N) Z)
  : gmap (list N) Z :=
  match entries with
  | [] => stats
  | (key, patternArray) :: rest =>
      stats_entries statsText rest
        match first_number statsText patternArray with
        | Some number => <[key := number]> stats
        | None => stats
        end
  end.

(** [parseStats(statsText, platform)]; [statsText] is [None] when the
    argument is not a string. *)
Definition parseStats (statsText : option jsstring) (platform : jsstring)
  : gmap (list N) Z :=
  match statsText with
  | None | Some [] => ∅
  | Some text => stats_entries text (patterns_for platform) ∅
  end.

(** [generatePostId(platform, author, timestamp, index)] *)
Definition id_unsafe : regex := RChar (fun c => negb (is_word c)).

Definition generatePostId (platform author : jsstring) (timestamp : option Z)
    (index : Z) : jsstring :=
  replace_all id_unsafe (u "_")
    (platform ++ u "_" ++ author ++ u "_" ++ num_to_js timestamp ++ u "_"
       ++ Z_to_js index).

(** [sanitizeText(text)] *)
Definition script_block : regex :=
  RSeqs [RLiti (u "<script"); RWordB;
         RStar true (RChar (fun c => negb (c =? 60)));
         RStar true (RSeqs [RNotAhead (RLiti (u "</script>"));
                            RChar (N.eqb 60);
                            RStar true (RChar (fun c => negb (c =? 60)))]);
         RLiti (u "</script>")].
Definition html_tag : regex :=
  RSeqs [RChar (N.eqb 60); RStar true (RChar (fun c => negb (c =? 62)));
         RChar (N.eqb 62)].
Definition event_handler : regex :=
  RSeqs [RLiti (u "on"); RPlus (RChar is_word); r_spaces; RChar (N.eqb 61)].

Definition sanitizeText (text : jsstring) : jsstring :=
  trim (replace_all event_handler []
         (replace_all (RLiti (u "javascript:")) []
            (replace_all html_tag []
               (replace_all script_block [] text)))).

(* ------------------------------------------------------------------ *)
(** ** Dates

    A [Date] object is its time value: milliseconds since the epoch, or
    [None] for an invalid date.  What the host supplies (the parser of
    date strings, the ISO printer, local-time years) is gathered in
    [Host], with the rest of the process environment. *)

Definition date := option Z.

Definition max_time : Z := 8640000000000000.

(** [new Date(t)] for a number [t] *)
Definition time_clip (t : option Z) : date :=
  match t with
  | Some z => if (Z.abs z <=? max_time)%Z then Some z else None
  | None => None
  end.

(** [a < b], [a > b] and [a >= b] on dates: false when either is invalid. *)
Definition date_lt (a b : date) : bool :=
  match a, b with
  | Some x, Some y => (x <? y)%Z
  | _, _ => false
  end.
Definition date_gt (a b : date) : bool := date_lt b a.
Definition date_ge (a b : date) : bool :=
  match a, b with
  | Some x, Some y => (y <=? x)%Z
  | _, _ => false
  end.

Record Host := {
  production : bool;             (* process.env.NODE_ENV === 'production' *)
  sessionDir : jsstring;         (* path.join(__dirname, '../../sessions') *)
  path_join : jsstring -> jsstring -> jsstring;
  Date_parse : jsstring -> option Z;   (* time value of new Date(string) *)
  toISOString : Z -> jsstring;         (* of a valid date *)
  getFullYear : Z -> Z;                (* in local time *)
  setFullYear : Z -> Z -> option Z     (* the new time value *)
}.

(** [new Date(s)] for a string [s] *)
Definition new_Date (host : Host) (s : jsstring) : date :=
  time_clip (Date_parse host s).

(** [parseDate(dateStr)] of scraperUtils, at clock reading [now]; the result
    [None] is [null]. *)
Definition ago_pattern (units : list (list N)) : regex :=
  RSeqs [RGroup 1 r_digits; r_spaces; RGroup 2 (RAlts (List.map RLiti units));
         ROpt (RLiti (u "s")); r_spaces; RLiti (u "ago")].

Definition ago_value (r : regex) (s : jsstring) : option (option Z) :=
  m ← str_match r s; Some (group 1 m ≫= parseInt).

Definition minus_ms (now : Z) (n : option Z) (unit_ms : Z) : date :=
  time_clip ((fun v => now - v * unit_ms)%Z <$> n).

Definition parseDate (host : Host) (now : Z) (dateStr : jsstring)
  : option date :=
  if bool_decide (dateStr = []) then None else
  match new_Date host dateStr with
  | Some t => Some (Some t)
  | None =>
  match ago_value (ago_pattern [u "s"; u "sec"; u "second"]) dateStr with
  | Some n => Some (minus_ms now n 1000)
  | None =>
  match ago_value (ago_pattern [u "m"; u "min"; u "minute"]) dateStr with
  | Some n => Some (minus_ms now n (60 * 1000))
  | None =>
  match ago_value (ago_pattern [u "h"; u "hr"; u "hour"]) dateStr with
  | Some n => Some (minus_ms now n (60 * 60 * 1000))
  | None =>
  match ago_value (ago_pattern [u "d"; u "day"]) dateStr with
  | Some n => Some (minus_ms now n (24 * 60 * 60 * 1000))
  | None =>
  match ago_value (ago_pattern [u "w"; u "week"]) dateStr with
  | Some n => Some (minus_ms now n (7 * 24 * 60 * 60 * 1000))
  | None => None
  end end end end end end.

(** [parseFacebookDate(dateText)] of the service, at clock reading [now]. *)
Definition month_pattern : regex :=
  RSeqs [RGroup 1 (RAlts (List.map RLiti
                    [u "January"; u "February"; u "March"; u "April"; u "May";
                     u "June"; u "July"; u "August"; u "September";
                     u "October"; u "November"; u "December"]));
         RPlus (RChar is_space);
         RGroup 2 (RSeq (RChar is_digit) (ROpt (RChar is_digit)))].

Definition facebook_ago : regex :=
  ago_pattern [u "minute"; u "hour"; u "day"; u "week"].

(** The [switch] on the unit; [None] when no case applies. *)
Definition unit_ms (unit_ : jsstring) : option Z :=
  if str_eqb unit_ (u "minute") then Some (60 * 1000)%Z
  else if str_eqb unit_ (u "hour") then Some (60 * 60 * 1000)%Z
  else if str_eqb unit_ (u "day") then Some (24 * 60 * 60 * 1000)%Z
  else if str_eqb unit_ (u "week") then Some (7 * 24 * 60 * 60 * 1000)%Z
  else None.

Definition relative_date (now : Z) (dateText : jsstring) : option date :=
  if includes (u "ago") dateText then
    m ← str_match facebook_ago dateText;
    ms ← unit_ms (toLowerCase (default [] (group 2 m)));
    Some (minus_ms now (group 1 m ≫= parseInt) ms)
  else None.

Definition month_day_date (host : Host) (now : Z) (m : rmatched) : date :=
  let monthName := default [] (group 1 m) in
  let day := group 2 m ≫= parseInt in
  let year := getFullYear host now in
  let d := new_Date host (monthName ++ u " " ++ num_to_js day ++ u ", "
                            ++ Z_to_js year) in
  if date_gt d (Some now)
  then time_clip (d ≫= fun t => setFullYear host t (year - 1)%Z)
  else d.

Definition parseFacebookDate (host : Host) (now : Z) (dateText : jsstring)
  : option date :=
  match relative_date now dateText with
  | Some d => Some d
  | None =>
  if includes (u "yesterday") (toLowerCase dateText) then
    Some (time_clip (Some (now - 24 * 60 * 60 * 1000)%Z))
  else
  match str_match month_pattern dateText with
  | Some m => Some (month_day_date host now m)
  | None =>
  match new_Date host dateText with
  | Some t => Some (Some t)
  | None => None
  end end end.

(** [Buffer.from(s).toString('base64')]: the UTF-8 bytes of the string,
    an unpaired surrogate encoded as U+FFFD, in base 64. *)
Definition is_high_surrogate (c : N) : bool := (55296 <=? c) && (c <=? 56319).
Definition is_low_surrogate (c : N) : bool := (56320 <=? c) && (c <=? 57343).

Definition utf8_of_code_point (c : N) : list N :=
  if c <? 128 then [c]
  else if c <? 2048 then [192 + c / 64; 128 + c mod 64]
  else if c <? 65536 then [224 + c / 4096; 128 + (c / 64) mod 64; 128 + c mod 64]
  else [240 + c / 262144; 128 + (c / 4096) mod 64; 128 + (c / 64) mod 64;
        128 + c mod 64].

Fixpoint utf8_encode (s : jsstring) : list N :=
  match s with
  | [] => []
  | c :: s' =>
      if is_high_surrogate c then
        match s' with
        | d :: s'' =>
            if is_low_surrogate d
            then utf8_of_code_point (65536 + (c - 55296) * 1024 + (d - 56320))
                   ++ utf8_encode s''
            else [239; 191; 189] ++ utf8_encode s'
        | [] => [239; 191; 189]
        end
      else if is_low_surrogate c then [239; 191; 189] ++ utf8_encode s'
      else utf8_of_code_point c ++ utf8_encode s'
  end.

Definition base64_digit (n : N) : N :=
  if n <? 26 then 65 + n
  else if n <? 52 then 97 + (n - 26)
  else if n <? 62 then 48 + (n - 52)
  else if n =? 62 then 43 else 47.

Fixpoint base64_bytes (bytes : list N) : list N :=
  match bytes with
  | [] => []
  | [a] => [base64_digit (a / 4); base64_digit ((a mod 4) * 16); 61; 61]
  | [a; b] =>
      [base64_digit (a / 4); base64_digit ((a mod 4) * 16 + b / 16);
       base64_digit ((b mod 16) * 4); 61]
  | a :: b :: c :: rest =>
      [base64_digit (a / 4); base64_digit ((a mod 4) * 16 + b / 16);
       base64_digit ((b mod 16) * 4 + c / 64); base64_digit (c mod 64)]
        ++ base64_bytes rest
  end.

Definition base64 (s : jsstring) : jsstring := base64_bytes (utf8_encode s).

(* ------------------------------------------------------------------ *)
(** ** Effects

    The service drives a browser, the file system, the clock and the
    random generator.  A method is modelled as a tree of the operations it
    requests: each operation is answered from outside, and the answer of an
    operation that can fail is either its value or the error it raises.
    Calls to the logger and to the console are left out. *)

Record error := Error { name : jsstring; message : jsstring }.

Definition mkError (msg : jsstring) : error := Error (u "Error") msg.
Definition TypeError (msg : jsstring) : error := Error (u "TypeError") msg.
Definition RangeError (msg : jsstring) : error := Error (u "RangeError") msg.
Definition ReferenceError (msg : jsstring) : error :=
  Error (u "ReferenceError") msg.

Inductive result (A : Type) :=
| Ok (a : A)
| Err (e : error).
Arguments Ok {A} a.
Arguments Err {A} e.

(** Handles on the driver's objects. *)
Definition browser := nat.
Definition page := nat.
Definition element := nat.

(** An argument that the code takes from a table by platform: a string,
    [undefined], or a member of [Object.prototype]. *)
Inductive jsarg :=
| AStr (s : jsstring)
| AUndefined
| AObject (name : jsstring).

Definition arg_of (p : prop jsstring) : jsarg :=
  match p with
  | Own s => AStr s
  | Inherited n => AObject n
  | Missing => AUndefined
  end.

(** The state of a pending wait when it is looked at. *)
Inductive wait_state :=
| Pending
| Fulfilled
| Rejected (e : error).

Inductive setup_step :=
| SetUserAgent (userAgent : jsstring)
| SetExtraHTTPHeaders
| EvaluateOnNewDocument
| SetViewport (width height : Z).

Inductive key_action := KeyDown | KeyPress | KeyUp.

Record session_info := SessionInfo {
  si_email : jsstring;
  si_platform : jsstring;
  si_lastLogin : jsstring
}.

Record box := Box { box_x : Q; box_y : Q; box_width : Q; box_height : Q }.

Inductive op :=
(* fs-extra *)
| FsEnsureDir (dir : jsstring)
| FsWriteJson (file : jsstring) (data : session_info)
| FsRemove (dir : jsstring)
(* clock, random generator, timers *)
| DateNow
| MathRandom
| SetTimeout (ms : Z)
(* puppeteer: browser *)
| Launch (userDataDir : jsstring) (headless : bool)
| BrowserClose (b : browser)
| NewPage (b : browser)
(* puppeteer: page *)
| PageSetup (p : page) (s : setup_step)
| Goto (p : page) (url : jsarg) (timeout : option Z)
| PageUrl (p : page)
| PageWaitForSelector (p : page) (selector : jsarg) (timeout : Z)
| WaitForNavigation (p : page) (timeout : Z)
| PostLoginWaits (p : page) (twoFA success : jsarg)
| PageQuery (p : page) (selector : jsarg)
| PageQueryAll (p : page) (selector : jsstring)
| PageClick (p : page) (selector : jsstring)
| PageType (p : page) (selector : jsstring) (text : jsstring) (delay : Z)
| Keyboard (p : page) (a : key_action) (key : jsstring)
| MouseMove (p : page) (x y : Q) (steps : Z)
| MouseClick (p : page) (x y : Q)
| ScrollTo (p : page) (half : bool)
(* puppeteer: element handles, and functions evaluated on them *)
| ElementQuery (e : element) (selector : jsstring)
| ElementClick (e : element)
| BoundingBox (e : element)
| EvalIsVisible (p : page) (e : element)
| EvalTrimmedText (p : page) (e : element)
| EvalTextContent (p : page) (e : element)
| EvalGetAttribute (p : page) (e : element) (attribute : jsstring)
| EvalTextOrTitle (p : page) (e : element)
| EvalStatusLink (p : page) (e : element)
| EvalHref (p : page) (e : element).

(** The type of the answer to an operation.  [PostLoginWaits] starts the
    two selector waits of the post-login race, lets the 3 s timer of its
    third entry pass and reports the state of both waits at that time. *)
Definition resp (o : op) : Type :=
  match o with
  | FsEnsureDir _ | FsWriteJson _ _ | FsRemove _ => result unit
  | DateNow => Z
  | MathRandom => Q
  | SetTimeout _ => unit
  | Launch _ _ => result browser
  | BrowserClose _ => result unit
  | NewPage _ => result page
  | PageSetup _ _ | Goto _ _ _ | PageWaitForSelector _ _ _
  | WaitForNavigation _ _ | PageClick _ _ | PageType _ _ _ _
  | Keyboard _ _ _ | MouseMove _ _ _ _ | MouseClick _ _ _ | ScrollTo _ _
  | ElementClick _ => result unit
  | PageUrl _ => jsstring
  | PostLoginWaits _ _ _ => (wait_state * wait_state)%type
  | PageQuery _ _ | ElementQuery _ _ => result (option element)
  | PageQueryAll _ _ => result (list element)
  | BoundingBox _ => result (option box)
  | EvalIsVisible _ _ => result bool
  | EvalTrimmedText _ _ | EvalTextOrTitle _ _ | EvalStatusLink _ _
  | EvalHref _ _ => result jsstring
  | EvalTextContent _ _ | EvalGetAttribute _ _ _ => result (option jsstring)
  end.

Inductive prog (A : Type) : Type :=
| Ret (a : A)
| Throw (e : error)
| Vis (o : op) (k : resp o -> prog A).
Arguments Ret {A} a.
Arguments Throw {A} e.
Arguments Vis {A} o k.

Fixpoint bind {A B} (p : prog A) (f : A -> prog B) : prog B :=
  match p with
  | Ret a => f a
  | Throw e => Throw e
  | Vis o k => Vis o (fun x => bind (k x) f)
  end.

#[export] Instance prog_ret : MRet prog := @Ret.
#[export] Instance prog_bind : MBind prog := fun A B f p => bind p f.

(** The completion of [p], normal or abrupt, as a value. *)
Fixpoint attempt {A} (p : prog A) : prog (result A) :=
  match p with
  | Ret a => Ret (Ok a)
  | Throw e => Ret (Err e)
  | Vis o k => Vis o (fun x => attempt (k x))
  end.

Definition complete {A} (r : result A) : prog A :=
  match r with
  | Ok a => Ret a
  | Err e => Throw e
  end.

(** [try { p } catch (error) { handler error }] *)
Definition try_catch {A} (p : prog A) (handler : error -> prog A) : prog A :=
  r ← attempt p;
  match r with
  | Ok a => Ret a
  | Err e => handler e
  end.

(** [try { p } finally { finalizer }] *)
Definition try_finally {A} (p : prog A) (finalizer : prog unit) : prog A :=
  r ← attempt p; finalizer;; complete r.

(** An operation that cannot fail, and [await] of one that can. *)
Definition request (o : op) : prog (resp o) := Vis o Ret.

Definition await {A} (o : op) (k : resp o -> result A) : prog A :=
  Vis o (fun x => complete (k x)).

(** [for (const x of l) { s = body x s }], without and with [break]. *)
Fixpoint for_of {X S} (body : X -> S -> prog S) (l : list X) (s : S)
  : prog S :=
  match l with
  | [] => Ret s
  | x :: l' => s' ← body x s; for_of body l' s'
  end.

Inductive ctl (S : Type) :=
| Next (s : S)
| Break (s : S).
Arguments Next {S} s.
Arguments Break {S} s.

Fixpoint for_of_break {X S} (body : X -> S -> prog (ctl S)) (l : list X)
    (s : S) : prog S :=
  match l with
  | [] => Ret s
  | x :: l' =>
      c ← body x s;
      match c with
      | Next s' => for_of_break body l' s'
      | Break s' => Ret s'
      end
  end.

(** An operation with the answer it got. *)
Record event := Event { ev_op : op; ev_answer : resp ev_op }.

(** Running a program against a driver: the final state of the outside
    world, the operations requested, in order and with their answers, and
    the completion. *)
Section Run.
Context {W : Type} (handle : forall o : op, W -> W * resp o).

Fixpoint run {A} (p : prog A) (w : W) : W * list event * result A :=
  match p with
  | Ret a => (w, [], Ok a)
  | Throw e => (w, [], Err e)
  | Vis o k =>
      let '(w1, x) := handle o w in
      let '(w2, trace, r) := run (k x) w1 in
      (w2, Event o x :: trace, r)
  end.

(** Two calls in flight at once: [schedule] says which call takes the
    next step, a step being one operation; a call that has completed
    takes no step. *)
Definition step {A} (p : prog A) (w : W) : W * option event * prog A :=
  match p with
  | Vis o k => let '(w1, x) := handle o w in (w1, Some (Event o x), k x)
  | _ => (w, None, p)
  end.

Fixpoint interleave {A B} (schedule : list bool) (p1 : prog A) (p2 : prog B)
    (w : W) : W * list (bool * event) * prog A * prog B :=
  match schedule with
  | [] => (w, [], p1, p2)
  | first :: schedule' =>
      if first then
        let '(w1, o, p1') := step p1 w in
        let '(w2, trace, q1, q2) := interleave schedule' p1' p2 w1 in
        (w2, match o with Some o => (true, o) :: trace | None => trace end,
         q1, q2)
      else
        let '(w1, o, p2') := step p2 w in
        let '(w2, trace, q1, q2) := interleave schedule' p1 p2' w1 in
        (w2, match o with Some o => (false, o) :: trace | None => trace end,
         q1, q2)
  end.
End Run.

(* ------------------------------------------------------------------ *)
(** ** config/scraperConfigs.js *)

(** A quoted text and an attribute selector [[name="value"]]. *)
Definition quoted (s : string) : jsstring := [34] ++ u s ++ [34].
Definition attr (name value : string) : jsstring :=
  u "[" ++ u name ++ u "=" ++ quoted value ++ u "]".

Record Selectors := {
  usernameInput : jsstring;
  passwordInput : jsstring;
  loginButton : jsstring;
  posts_selector : jsstring;
  postText : jsstring;
  postDate : jsstring;
  postAuthor : jsstring;
  postStats : jsstring
}.

(** The [alternativeSelectors] of a configuration are read nowhere in the
    service and are left out. *)
Record PlatformConfig := {
  loginUrl : jsstring;
  profileUrl : jsstring -> jsstring;
  selectors : Selectors
}.

Definition scraperConfigs : list (jsstring * PlatformConfig) :=
  [(u "twitter",
     {| loginUrl := u "https://twitter.com/login";
        profileUrl := fun username => u "https://twitter.com/" ++ username;
        selectors :=
          {| usernameInput := u "input" ++ attr "name" "text";
             passwordInput := u "input" ++ attr "name" "password";
             loginButton := attr "data-testid" "LoginForm_Login_Button";
             posts_selector := attr "data-testid" "tweet";
             postText := attr "data-testid" "tweetText";
             postDate := u "time";
             postAuthor := attr "data-testid" "User-Names" ++ u " a";
             postStats := attr "role" "group" |} |});
   (u "instagram",
     {| loginUrl := u "https://www.instagram.com/accounts/login/";
        profileUrl := fun username =>
          u "https://www.instagram.com/" ++ username ++ u "/";
        selectors :=
          {| usernameInput := u "input" ++ attr "name" "username";
             passwordInput := u "input" ++ attr "name" "password";
             loginButton := u "button" ++ attr "type" "submit";
             posts_selector := u "article";
             postText := attr "data-testid" "post-text";
             postDate := u "time";
             postAuthor := u "header a";
             postStats := attr "data-testid" "post-stats" |} |});
   (u "linkedin",
     {| loginUrl := u "https://www.linkedin.com/login";
        profileUrl := fun username =>
          u "https://www.linkedin.com/in/" ++ username ++ u "/";
        selectors :=
          {| usernameInput := u "#username";
             passwordInput := u "#password";
             loginButton := u ".btn__primary--large";
             posts_selector := u ".feed-shared-update-v2";
             postText := u ".feed-shared-text";
             postDate := u ".feed-shared-actor__sub-description";
             postAuthor := u ".feed-shared-actor__name";
             postStats := u ".social-actions-buttons" |} |})].

(** [Object.keys(scraperConfigs).join(', ')] *)
Definition supported_platforms : jsstring :=
  List.fold_right (fun k acc => match acc with [] => k | _ => k ++ u ", " ++ acc end)
    [] (List.map fst scraperConfigs).

(* ------------------------------------------------------------------ *)
(** ** services/scrapingService.js: data *)

Record Post := {
  p_id : jsstring;
  p_text : jsstring;
  p_author : jsstring;
  p_date : jsstring;             (* ISO text of the post's date *)
  p_timestamp : Z;
  p_platform : jsstring;
  p_url : jsstring;
  p_stats : gmap (list N) Z
}.

Record ScrapeData := {
  d_platform : jsstring;
  d_targetUser : jsstring;
  d_timeframe : jsstring;
  d_totalPosts : nat;
  d_scrapedAt : jsstring;
  d_sessionUsed : bool;
  d_posts : list Post
}.

Record ScrapeResult := { success : bool; data : ScrapeData }.

Record ScrapeArgs := {
  a_email : jsstring;
  a_password : jsstring;
  a_targetUser : jsstring;
  a_platform : jsstring;
  a_timeframe : option jsstring;   (* [None]: left out, defaults to 7d *)
  a_sessionId : option jsstring
}.

Record TestArgs := {
  t_email : jsstring;
  t_password : jsstring;
  t_platform : jsstring;
  t_sessionId : option jsstring
}.

Record TestResult := {
  loginSuccessful : bool;
  requires2FA : bool;
  sessionSaved : bool
}.

(** [this.stealthConfig] *)
Definition userAgent : jsstring :=
  u "Mozilla/5.0 (Windows NT 10.0; Win64; x64) AppleWebKit/537.36 (KHTML, like Gecko) Chrome/119.0.0.0 Safari/537.36".
Definition viewport_width : Z := 1366.
Definition viewport_height : Z := 768.
Definition timeout_navigation : Z := 45000.
Definition timeout_selector : Z := 15000.

(** A session identifier counts when it is a non-empty string. *)
Definition given (sessionId : option jsstring) : option jsstring :=
  match sessionId with
  | Some [] | None => None
  | Some s => Some s
  end.

(** The pieces of [for (const char of text)]: code points, a surrogate
    pair being one piece. *)
Fixpoint code_points (s : jsstring) : list jsstring :=
  match s with
  | [] => []
  | c :: s' =>
      if is_high_surrogate c then
        match s' with
        | d :: s'' =>
            if is_low_surrogate d then [c; d] :: code_points s''
            else [c] :: code_points s'
        | [] => [[c]]
        end
      else [c] :: code_points s'
  end.

(** Tables of the service, by platform. *)
Definition logged_in_twitter : jsstring :=
  attr "data-testid" "SideNav_AccountSwitcher_Button" ++ u ", "
    ++ attr "data-testid" "AppTabBar_Home_Link".
Definition logged_in_instagram : jsstring :=
  attr "aria-label" "Home" ++ u ", nav" ++ attr "role" "navigation".

Definition homeUrls : list (jsstring * jsstring) :=
  [(u "twitter", u "https://twitter.com/home");
   (u "facebook", u "https://www.facebook.com/");
   (u "instagram", u "https://www.instagram.com/");
   (u "linkedin", u "https://www.linkedin.com/feed/")].

Definition loggedInSelectors : list (jsstring * jsstring) :=
  [(u "twitter", logged_in_twitter);
   (u "facebook", attr "data-testid" "left_nav_menu_list"
                    ++ u ", .fbxWelcomeBoxName, " ++ attr "role" "navigation");
   (u "instagram", logged_in_instagram);
   (u "linkedin", u ".global-nav__me, .feed-shared-update-v2")].

Definition twoFASelectors : list (jsstring * jsstring) :=
  [(u "twitter", attr "data-testid" "ocfEnterTextTextInput" ++ u ", input"
                   ++ attr "name" "challenge_response");
   (u "facebook", u "input" ++ attr "name" "approvals_code" ++ u ", "
                    ++ attr "data-testid" "verification_code_input");
   (u "instagram", u "input" ++ attr "name" "verificationCode" ++ u ", input"
                     ++ attr "aria-label" "Security code");
   (u "linkedin", u "#challenge-form input, input" ++ attr "name" "challengeId")].

(** [successSelectors] of [handlePostLoginFlow] *)
Definition successSelectors : list (jsstring * jsstring) :=
  [(u "twitter", logged_in_twitter);
   (u "facebook", attr "data-testid" "left_nav_menu_list"
                    ++ u ", .fbxWelcomeBoxName");
   (u "instagram", logged_in_instagram);
   (u "linkedin", u ".global-nav__me, .feed-shared-update-v2")].

(** [successSelectors] of [checkLoginSuccess] *)
Definition loginSuccessSelectors : list (jsstring * jsstring) :=
  [(u "twitter", logged_in_twitter);
   (u "facebook", attr "data-testid" "left_nav_menu_list"
                    ++ u ", .fbxWelcomeBoxName");
   (u "instagram", logged_in_instagram);
   (u "linkedin", u ".global-nav__me")].

Definition close_dialog : jsstring :=
  u "div" ++ attr "role" "dialog" ++ u " " ++ attr "aria-label" "Close".

Definition platformPopups : list (jsstring * list jsstring) :=
  [(u "facebook",
     [attr "data-cookiebanner" "accept_button";
      u "button" ++ attr "data-cookiebanner" "accept_button";
      attr "aria-label" "Allow all cookies";
      u "._n1s button";
      attr "data-testid" "cookie-policy-manage-dialog" ++ u " button";
      close_dialog;
      u ".fbNubFlyoutOuter ._4_j1"]);
   (u "twitter",
     [attr "aria-label" "Accept cookies";
      attr "data-testid" "cookie-banner-accept";
      attr "data-testid" "close";
      close_dialog]);
   (u "instagram",
     [u "button" ++ attr "data-cookiebanner" "accept_button";
      attr "data-testid" "app-install-banner" ++ u " button";
      u "button" ++ attr "data-testid" "ig-close-button";
      u "._ac69 button";
      u "button" ++ attr "aria-label" "Close"])].

(* ------------------------------------------------------------------ *)
(** ** services/scrapingService.js: the methods of RealisticScrapingService *)

Section Service.
Variable host : Host.

(** [Math.floor(Math.random() * (max - min + 1)) + min] *)
Definition randomBetween (min max : Z) : prog Z :=
  r ← request MathRandom;
  Ret (Qfloor (Qmult r (inject_Z (max - min + 1))) + min)%Z.

Definition randomDelay (min max : Z) : prog unit :=
  delay ← randomBetween min max;
  request (SetTimeout delay).

Definition launchStealthBrowser (userDataDir : jsstring) : prog browser :=
  await (Launch userDataDir (production host)) id.

Definition createStealthPage (b : browser) : prog page :=
  p ← await (NewPage b) id;
  await (PageSetup p (SetUserAgent userAgent)) id;;
  await (PageSetup p SetExtraHTTPHeaders) id;;
  await (PageSetup p EvaluateOnNewDocument) id;;
  await (PageSetup p (SetViewport viewport_width viewport_height)) id;;
  Ret p.

Definition checkExistingSession (p : page) (platform : jsstring) : prog bool :=
  try_catch
    (await (Goto p (arg_of (obj_get homeUrls platform))
              (Some timeout_navigation)) id;;
     request (SetTimeout 3000);;
     found ← await (PageQuery p (arg_of (obj_get loggedInSelectors platform))) id;
     Ret (bool_decide (found ≠ None)))
    (fun _ => Ret false).

(** The wrapper [this.waitForSelector]: the outcome as a boolean. *)
Definition waitForSelector (p : page) (selector : jsstring) (timeout : Z)
  : prog bool :=
  try_catch
    (await (PageWaitForSelector p (AStr selector) timeout) id;; Ret true)
    (fun _ => Ret false).

Definition humanLikeTyping (p : page) (selector text : jsstring) : prog unit :=
  await (PageWaitForSelector p (AStr selector) timeout_selector) id;;
  await (PageClick p selector) id;;
  await (Keyboard p KeyDown (u "Control")) id;;
  await (Keyboard p KeyPress (u "KeyA")) id;;
  await (Keyboard p KeyUp (u "Control")) id;;
  await (Keyboard p KeyPress (u "Backspace")) id;;
  for_of (fun char (_ : unit) =>
            delay ← randomBetween 50 150;
            await (PageType p selector char delay) id)
         (code_points text) ();;
  randomDelay 500 1000.

Definition humanLikeClick (p : page) (selector : jsstring) : prog unit :=
  await (PageWaitForSelector p (AStr selector) timeout_selector) id;;
  found ← await (PageQuery p (AStr selector)) id;
  match found with
  | None =>
      Throw (TypeError (u "Cannot read properties of null (reading 'boundingBox')"))
  | Some el =>
      b ← await (BoundingBox el) id;
      match b with
      | Some b =>
          dx ← randomBetween (-5) 5;
          dy ← randomBetween (-5) 5;
          let x := Qplus (Qplus (box_x b) (Qdiv (box_width b) (inject_Z 2)))
                         (inject_Z dx) in
          let y := Qplus (Qplus (box_y b) (Qdiv (box_height b) (inject_Z 2)))
                         (inject_Z dy) in
          steps ← randomBetween 5 10;
          await (MouseMove p x y steps) id;;
          randomDelay 100 300;;
          await (MouseClick p x y) id
      | None => await (PageClick p selector) id
      end
  end.

Definition handlePlatformSpecificPopups (p : page) (platform : jsstring)
  : prog unit :=
  match obj_get platformPopups platform with
  | Inherited _ => Throw (TypeError (u "selectors is not iterable"))
  | found =>
      for_of
        (fun selector (_ : unit) =>
           try_catch
             (elements ← await (PageQueryAll p selector) id;
              for_of_break
                (fun el (_ : unit) =>
                   isVisible ← await (EvalIsVisible p el) id;
                   if isVisible : bool then
                     await (ElementClick el) id;;
                     randomDelay 1000 2000;;
                     Ret (Break ())
                   else Ret (Next ()))
                elements ())
             (fun _ => Ret ()))
        (match found with Own l => l | _ => [] end) ()
  end.

Definition performLoginSteps (p : page) (platform email password : jsstring)
  : prog unit :=
  match obj_get scraperConfigs platform with
  | Missing =>
      Throw (TypeError (u "Cannot read properties of undefined (reading 'selectors')"))
  | Inherited _ =>
      Throw (TypeError (u "Cannot read properties of undefined (reading 'usernameInput')"))
  | Own config =>
      waitForSelector p (usernameInput (selectors config)) 10000;;
      humanLikeTyping p (usernameInput (selectors config)) email;;
      randomDelay 1000 2000;;
      waitForSelector p (passwordInput (selectors config)) 5000;;
      humanLikeTyping p (passwordInput (selectors config)) password;;
      randomDelay 1000 2000;;
      humanLikeClick p (loginButton (selectors config));;
      try_catch (await (WaitForNavigation p 30000) id)
                (fun _ => request (SetTimeout 3000))
  end.

Definition handle2FAPrompt (p : page) (platform : jsstring) : prog unit :=
  if production host then
    Throw (mkError (u "2FA required but running in production mode - manual intervention needed"))
  else
    try_catch (await (WaitForNavigation p 120000) id)
      (fun _ => Throw (mkError (u "2FA timeout - please complete verification within 2 minutes"))).

(** The outcome of the race: its entries are looked at in order once the
    timer of the third has passed, and the first settled one decides. *)
Inductive race_result := Race2fa | RaceSuccess | RaceTimeout.

Definition race (waits : wait_state * wait_state) : prog race_result :=
  match waits with
  | (Fulfilled, _) => Ret Race2fa
  | (Rejected e, _) => Throw e
  | (Pending, Fulfilled) => Ret RaceSuccess
  | (Pending, Rejected e) => Throw e
  | (Pending, Pending) => Ret RaceTimeout
  end.

Definition handlePostLoginFlow (p : page) (platform : jsstring) : prog unit :=
  try_catch
    (waits ← request (PostLoginWaits p (arg_of (obj_get twoFASelectors platform))
                        (arg_of (obj_get successSelectors platform)));
     result ← race waits;
     match result with
     | Race2fa => handle2FAPrompt p platform
     | RaceSuccess => Ret ()
     | RaceTimeout =>
         currentUrl ← request (PageUrl p);
         if includes (u "challenge") currentUrl
            || includes (u "checkpoint") currentUrl
            || includes (u "verify") currentUrl
         then Throw (mkError (u "Additional verification required - please complete manually"))
         else Ret ()
     end)
    (fun error =>
       Throw (mkError (u "Login verification failed: " ++ message error))).

(** [config.loginUrl] *)
Definition login_url (platform : jsstring) : prog jsarg :=
  match obj_get scraperConfigs platform with
  | Own config => Ret (AStr (loginUrl config))
  | Inherited _ => Ret AUndefined
  | Missing =>
      Throw (TypeError (u "Cannot read properties of undefined (reading 'loginUrl')"))
  end.

Definition performStealthLogin (p : page) (platform email password : jsstring)
  : prog unit :=
  url ← login_url platform;
  await (Goto p url None) id;;
  handlePlatformSpecificPopups p platform;;
  performLoginSteps p platform email password;;
  handlePostLoginFlow p platform.

Definition checkLoginSuccess (p : page) (platform : jsstring) : prog bool :=
  try_catch
    (found ← await (PageQuery p (arg_of (obj_get loginSuccessSelectors platform))) id;
     Ret (bool_decide (found ≠ None)))
    (fun _ => Ret false).

Definition saveSessionState (userDataDir : jsstring) (sessionData : session_info)
  : prog unit :=
  try_catch
    (await (FsWriteJson (path_join host userDataDir (u "session_info.json"))
              sessionData) id)
    (fun _ => Ret ()).

Definition cleanSession (userDataDir : jsstring) : prog unit :=
  try_catch (await (FsRemove userDataDir) id) (fun _ => Ret ()).

(** *** Extraction *)

Definition extractTwitterStats (p : page) (tweetElement : element)
  : prog (gmap (list N) Z) :=
  try_catch
    (statsContainer ← await (ElementQuery tweetElement (attr "role" "group")) id;
     match statsContainer with
     | None => Ret ∅
     | Some c =>
         statsText ← await (EvalTextContent p c) id;
         Ret (parseStats statsText (u "twitter"))
     end)
    (fun _ => Ret ∅).

(** [postDate.toISOString()] *)
Definition date_toISOString (d : date) : prog jsstring :=
  match d with
  | Some t => Ret (toISOString host t)
  | None => Throw (RangeError (u "Invalid time value"))
  end.

(** The object that both extractors return, its fields in order. *)
Definition make_post (platform author text : jsstring) (postDate : date)
    (postUrl : jsstring) (stats : gmap (list N) Z) : prog Post :=
  let id := generatePostId platform author postDate 0 in
  iso ← date_toISOString postDate;
  Ret {| p_id := id;
         p_text := sanitizeText text;
         p_author := sanitizeText author;
         p_date := iso;
         p_timestamp := default 0%Z postDate;
         p_platform := platform;
         p_url := postUrl;
         p_stats := stats |}.

(** [new Date(dateStr)] for an attribute value, [null] when absent. *)
Definition new_Date_attr (dateStr : option jsstring) : date :=
  match dateStr with
  | Some s => new_Date host s
  | None => Some 0%Z
  end.

Definition extractTwitterPostData (p : page) (tweetElement : element)
    (cutoffDate : date) : prog (option Post) :=
  try_catch
    (textElement ← await (ElementQuery tweetElement (attr "data-testid" "tweetText")) id;
     timeElement ← await (ElementQuery tweetElement (u "time")) id;
     authorElement ← await (ElementQuery tweetElement
                              (attr "data-testid" "User-Names" ++ u " a")) id;
     match timeElement with
     | None => Ret None
     | Some timeElement =>
         text ← match textElement with
                | Some el => await (EvalTrimmedText p el) id
                | None => Ret []
                end;
         dateStr ← await (EvalGetAttribute p timeElement (u "datetime")) id;
         let postDate := new_Date_attr dateStr in
         if date_lt postDate cutoffDate then Ret None else
         author ← match authorElement with
                  | Some el => await (EvalTrimmedText p el) id
                  | None => Ret []
                  end;
         postUrl ← await (EvalStatusLink p tweetElement) id;
         stats ← extractTwitterStats p tweetElement;
         post ← make_post (u "twitter") author text postDate postUrl stats;
         Ret (Some post)
     end)
    (fun _ => Ret None).

(** The loop shared by the text and the author of a Facebook post: the
    first selector whose element has a non-empty text. *)
Definition first_text (p : page) (postElement : element)
    (selectors : list jsstring) : prog jsstring :=
  for_of_break
    (fun selector text =>
       try_catch
         (found ← await (ElementQuery postElement selector) id;
          match found with
          | Some el =>
              t ← await (EvalTrimmedText p el) id;
              if bool_decide (t = []) then Ret (Next t) else Ret (Break t)
          | None => Ret (Next text)
          end)
         (fun _ => Ret (Next text)))
    selectors [].

Definition facebook_date (p : page) (postElement : element)
    (dateSelectors : list jsstring) : prog (option date) :=
  for_of_break
    (fun selector (postDate : option date) =>
       try_catch
         (dateElement ← await (ElementQuery postElement selector) id;
          match dateElement with
          | Some el =>
              utime ← await (EvalGetAttribute p el (u "data-utime")) id;
              match given utime with
              | Some utime =>
                  Ret (Break (Some (time_clip
                                      ((fun n => n * 1000)%Z <$> parseInt utime))))
              | None =>
                  dateText ← await (EvalTextOrTitle p el) id;
                  if bool_decide (dateText = []) then Ret (Next postDate) else
                  now ← request DateNow;
                  match parseFacebookDate host now dateText with
                  | Some d => Ret (Break (Some d))
                  | None => Ret (Next None)
                  end
              end
          | None => Ret (Next postDate)
          end)
         (fun _ => Ret (Next postDate)))
    dateSelectors None.

Definition extractFacebookStats (p : page) (postElement : element)
  : prog (gmap (list N) Z) :=
  try_catch
    (statsText ←
       for_of
         (fun selector statsText =>
            try_catch
              (statsContainer ← await (ElementQuery postElement selector) id;
               match statsContainer with
               | Some c =>
                   text ← await (EvalTextContent p c) id;
                   Ret (statsText ++ u " " ++ default (u "null") text)
               | None => Ret statsText
               end)
              (fun _ => Ret statsText))
         [u "._3-8y"; u "._1g06"; u ".UFILikesCount"; u "._4arz";
          attr "data-testid" "fbFeedStoryUFI"] [];
     Ret (parseStats (Some statsText) (u "facebook")))
    (fun _ => Ret ∅).

Definition extractFacebookPostData (p : page) (postElement : element)
    (cutoffDate : date) : prog (option Post) :=
  try_catch
    (text ← first_text p postElement
              [attr "data-testid" "post_message"; u ".userContent"; u "._5pbx";
               u ".text_exposed_show"; attr "data-ad-preview" "message"];
     postDate ← facebook_date p postElement
                  [u "abbr[data-utime]"; u "._5ptz"; u ".timestampContent";
                   u ".livetimestamp";
                   u "a" ++ attr "role" "link" ++ u " span" ++ attr "dir" "auto"];
     match postDate with
     | None => Ret None
     | Some postDate =>
         if date_lt postDate cutoffDate then Ret None else
         author ← first_text p postElement
                    [u ".fwb a"; u "._6qw4"; u ".profileLink"; u ".actorName a";
                     u "h3 a" ++ attr "role" "link"];
         postUrl ←
           try_catch
             (linkElement ← await (ElementQuery postElement
                                     (u "a[href*=" ++ quoted "/posts/"
                                        ++ u "], a[href*=" ++ quoted "/permalink/"
                                        ++ u "], a[href*=" ++ quoted "/story"
                                        ++ u "]")) id;
              match linkElement with
              | Some el => await (EvalHref p el) id
              | None => Ret []
              end)
             (fun _ => Ret []);
         stats ← extractFacebookStats p postElement;
         post ← make_post (u "facebook") author text postDate postUrl stats;
         Ret (Some post)
     end)
    (fun _ => Ret None).

(** *** The acquisition loops *)

(** [if (data && !posts.find(p => p.id === data.id)) posts.push(data)] *)
Definition push_new (posts : list Post) (data : option Post) : list Post :=
  match data with
  | Some d =>
      if existsb (fun p => str_eqb (p_id p) (p_id d)) posts
      then posts else posts ++ [d]
  | None => posts
  end.

(** [new Date(Date.now() - parseTimeframe(timeframe))] *)
Definition cutoff_date (now : Z) (timeframe : jsstring) : date :=
  time_clip (js_minus now (parseTimeframe timeframe)).

(** [posts.filter(post => new Date(post.date) >= cutoffDate)] *)
Definition within (cutoffDate : date) (posts : list Post) : list Post :=
  List.filter (fun post => date_ge (new_Date host (p_date post)) cutoffDate)
    posts.

Definition harvest (extract : element -> prog (option Post))
    (elements : list element) (posts : list Post) : prog (list Post) :=
  for_of
    (fun el posts =>
       try_catch (found ← extract el; Ret (push_new posts found))
                 (fun _ => Ret posts))
    elements posts.

Definition tweet_selector : jsstring := attr "data-testid" "tweet".

(** The [while] loop of [scrapeTwitterPosts], [remaining] being
    [maxScrolls - scrollAttempts]. *)
Fixpoint twitter_scrolls (p : page) (cutoffDate : date) (remaining : nat)
    (posts : list Post) : prog (list Post) :=
  match remaining with
  | O => Ret posts
  | S remaining' =>
      if Nat.ltb (length posts) 50 then
        tweets ← await (PageQueryAll p tweet_selector) id;
        posts' ← harvest (fun tweet => extractTwitterPostData p tweet cutoffDate)
                   tweets posts;
        await (ScrollTo p false) id;;
        randomDelay 2000 4000;;
        twitter_scrolls p cutoffDate remaining' posts'
      else Ret posts
  end.

Definition scrapeTwitterPosts (p : page) (timeframe : jsstring)
  : prog (list Post) :=
  now ← request DateNow;
  let cutoffDate := cutoff_date now timeframe in
  handlePlatformSpecificPopups p (u "twitter");;
  try_catch (await (PageWaitForSelector p (AStr tweet_selector) 15000) id)
            (fun _ => Ret ());;
  posts ← twitter_scrolls p cutoffDate 10 [];
  Ret (within cutoffDate posts).

Definition facebook_post_selector : jsstring :=
  attr "data-pagelet" "FeedUnit" ++ u ", " ++ attr "role" "article".

Fixpoint facebook_scrolls (p : page) (cutoffDate : date) (remaining : nat)
    (posts : list Post) : prog (list Post) :=
  match remaining with
  | O => Ret posts
  | S remaining' =>
      if Nat.ltb (length posts) 40 then
        fbPosts ← await (PageQueryAll p facebook_post_selector) id;
        posts' ← harvest (fun post => extractFacebookPostData p post cutoffDate)
                   fbPosts posts;
        await (ScrollTo p true) id;;
        randomDelay 2000 3000;;
        await (ScrollTo p false) id;;
        randomDelay 3000 5000;;
        facebook_scrolls p cutoffDate remaining' posts'
      else Ret posts
  end.

Definition scrapeFacebookPosts (p : page) (timeframe : jsstring)
  : prog (list Post) :=
  now ← request DateNow;
  let cutoffDate := cutoff_date now timeframe in
  handlePlatformSpecificPopups p (u "facebook");;
  try_catch (await (PageWaitForSelector p (AStr facebook_post_selector) 15000) id)
            (fun _ => Ret ());;
  posts ← facebook_scrolls p cutoffDate 8 [];
  Ret (within cutoffDate posts).

Definition scrapeTargetProfile (p : page) (platform targetUser timeframe : jsstring)
  : prog (list Post) :=
  match obj_get scraperConfigs platform with
  | Missing =>
      Throw (TypeError (u "Cannot read properties of undefined (reading 'profileUrl')"))
  | Inherited _ => Throw (TypeError (u "config.profileUrl is not a function"))
  | Own config =>
      await (Goto p (AStr (profileUrl config targetUser))
               (Some timeout_navigation)) id;;
      request (SetTimeout 3000);;
      if str_eqb platform (u "twitter") then scrapeTwitterPosts p timeframe
      else if str_eqb platform (u "facebook") then scrapeFacebookPosts p timeframe
      else Throw (mkError (u "Scraping not implemented for platform: " ++ platform))
  end.

(** *** The entry points *)

(** The session directory of a request. *)
Definition userDataDir (a : ScrapeArgs) : jsstring :=
  match given (a_sessionId a) with
  | Some sessionId =>
      path_join host (sessionDir host) (a_platform a ++ u "_" ++ sessionId)
  | None =>
      path_join host (sessionDir host)
        (a_platform a ++ u "_" ++ firstn 8 (base64 (a_email a)))
  end.

(** The names that are bound where the [catch] clause of
    [scrapeWithCredentials] is evaluated: the parameters, the variables
    declared before the [try] statement and the caught [error].
    [userDataDir] is declared by [const] inside the [try] block, whose
    scope ends with that block. *)
Definition catch_scope : list jsstring :=
  [u "email"; u "password"; u "targetUser"; u "platform"; u "timeframe";
   u "sessionId"; u "config"; u "browser"; u "page"; u "error"].

Definition bound_in (scope : list jsstring) (identifier : jsstring) : bool :=
  existsb (str_eqb identifier) scope.

(** The [catch] clause of [scrapeWithCredentials]. *)
Definition scrape_catch (a : ScrapeArgs) (error : error) : prog ScrapeResult :=
  if includes (u "login") (message error)
     || includes (u "authentication") (message error)
  then
    if bound_in catch_scope (u "userDataDir") then
      cleanSession (userDataDir a);;
      Throw (mkError (u "Authentication failed: " ++ message error
                        ++ u ". Session cleared - please retry."))
    else Throw (ReferenceError (u "userDataDir is not defined"))
  else Throw error.

(** What follows the launch of the browser in the [try] block. *)
Definition scrape_session (a : ScrapeArgs) (b : browser) : prog ScrapeResult :=
  let platform := a_platform a in
  let timeframe := default (u "7d") (a_timeframe a) in
  p ← createStealthPage b;
  isLoggedIn ← checkExistingSession p platform;
  (if isLoggedIn : bool then Ret ()
   else
     performStealthLogin p platform (a_email a) (a_password a);;
     now ← request DateNow;
     saveSessionState (userDataDir a)
       (SessionInfo (a_email a) platform (toISOString host now)));;
  posts ← scrapeTargetProfile p platform (a_targetUser a) timeframe;
  now ← request DateNow;
  Ret {| success := true;
         data := {| d_platform := platform;
                    d_targetUser := a_targetUser a;
                    d_timeframe := timeframe;
                    d_totalPosts := length posts;
                    d_scrapedAt := toISOString host now;
                    d_sessionUsed := isLoggedIn;
                    d_posts := posts |} |}.

(** The [finally] clause: [browser] is set once the launch has returned. *)
Definition scrape_finally (b : option browser) : prog unit :=
  match b with
  | Some b => if production host then await (BrowserClose b) id else Ret ()
  | None => Ret ()
  end.

Definition scrapeWithCredentials (a : ScrapeArgs) : prog ScrapeResult :=
  match obj_get scraperConfigs (a_platform a) with
  | Missing =>
      Throw (mkError (u "Unsupported platform: " ++ a_platform a
                        ++ u ". Supported platforms: " ++ supported_platforms))
  | _ =>
      launched ← attempt (await (FsEnsureDir (sessionDir host)) id;;
                          launchStealthBrowser (userDataDir a));
      match launched with
      | Err error => try_finally (scrape_catch a error) (scrape_finally None)
      | Ok b =>
          try_finally (try_catch (scrape_session a b) (scrape_catch a))
                      (scrape_finally (Some b))
      end
  end.

Definition test_userDataDir (a : TestArgs) (now : Z) : jsstring :=
  match given (t_sessionId a) with
  | Some sessionId =>
      path_join host (sessionDir host)
        (u "test_" ++ t_platform a ++ u "_" ++ sessionId)
  | None =>
      path_join host (sessionDir host)
        (u "test_" ++ t_platform a ++ u "_" ++ Z_to_js now)
  end.

Definition test_session (a : TestArgs) (b : browser) : prog TestResult :=
  p ← createStealthPage b;
  url ← login_url (t_platform a);
  await (Goto p url None) id;;
  handlePlatformSpecificPopups p (t_platform a);;
  performLoginSteps p (t_platform a) (t_email a) (t_password a);;
  randomDelay 3000 5000;;
  ok ← checkLoginSuccess p (t_platform a);
  Ret {| loginSuccessful := ok; requires2FA := false; sessionSaved := ok |}.

Definition test_catch (error : error) : prog TestResult :=
  Ret {| loginSuccessful := false;
         requires2FA := includes (u "2FA") (message error)
                        || includes (u "verification") (message error);
         sessionSaved := false |}.

Definition test_finally (b : option browser) : prog unit :=
  match b with
  | Some b => await (BrowserClose b) id
  | None => Ret ()
  end.

Definition testCredentials (a : TestArgs) : prog TestResult :=
  launched ← attempt (dir ← match given (t_sessionId a) with
                            | Some _ => Ret (test_userDataDir a 0)
                            | None => now ← request DateNow;
                                      Ret (test_userDataDir a now)
                            end;
                      launchStealthBrowser dir);
  match launched with
  | Err error => try_finally (test_catch error) (test_finally None)
  | Ok b =>
      try_finally (try_catch (test_session a b) test_catch)
                  (test_finally (Some b))
  end.
End Service.

(* ------------------------------------------------------------------ *)
(** ** A program logic

    [sat R I Q p]: whatever answers the driver gives among those that [R]
    allows, every operation that [p] requests satisfies [I] and the
    completion of [p] satisfies [Q]. *)

Section Logic.
Variable R : forall o : op, resp o -> Prop.
Variable I : op -> Prop.

Fixpoint sat {A} (Q : result A -> Prop) (p : prog A) : Prop :=
  match p with
  | Ret a => Q (Ok a)
  | Throw e => Q (Err e)
  | Vis o k => I o /\ forall x, R o x -> sat Q (k x)
  end.
End Logic.

(** No assumption on the answers; no condition on the completion. *)
Definition any_answer : forall o : op, resp o -> Prop := fun _ _ => True.
Definition any_result {A} : result A -> Prop := fun _ => True.

(** A condition on the value of a normal completion only. *)
Definition returns {A} (P : A -> Prop) (r : result A) : Prop :=
  match r with
  | Ok a => P a
  | Err _ => True
  end.

(** Kinds of operation. *)
Inductive op_class :=
| CRemove       (* deletes from the file system *)
| CWrite        (* writes to the file system *)
| CCredential   (* part of filling in and submitting the login form *)
| CLaunch
| CClose
| COther.

Definition classify (o : op) : op_class :=
  match o with
  | FsRemove _ => CRemove
  | FsWriteJson _ _ | FsEnsureDir _ => CWrite
  | PageType _ _ _ _ | Keyboard _ _ _ | PageClick _ _ | MouseMove _ _ _ _
  | MouseClick _ _ _ | BoundingBox _ | WaitForNavigation _ _
  | PostLoginWaits _ _ _ => CCredential
  | Launch _ _ => CLaunch
  | BrowserClose _ => CClose
  | _ => COther
  end.

Definition is_class (c : op_class) (o : op) : bool :=
  match classify o, c with
  | CRemove, CRemove | CWrite, CWrite | CCredential, CCredential
  | CLaunch, CLaunch | CClose, CClose | COther, COther => true
  | _, _ => false
  end.

(* ------------------------------------------------------------------ *)
(** ** A simulated host and driver

    A concrete environment to run the service in: a host in the UTC time
    zone whose date parser reads the ISO format, and a driver for one
    site.  It is what the examples, and the runs that show a statement's
    hypotheses can be met, are computed in. *)

Module Sim.
#[local] Open Scope Z_scope.

(** Days since the epoch to the civil date and back. *)
Definition civil_from_days (days : Z) : Z * Z * Z :=
  let z := days + 719468 in
  let era := z / 146097 in
  let doe := z - era * 146097 in
  let yoe := (doe - doe / 1460 + doe / 36524 - doe / 146096) / 365 in
  let doy := doe - (365 * yoe + yoe / 4 - yoe / 100) in
  let mp := (5 * doy + 2) / 153 in
  let d := doy - (153 * mp + 2) / 5 + 1 in
  let m := if mp <? 10 then mp + 3 else mp - 9 in
  (yoe + era * 400 + (if m <=? 2 then 1 else 0), m, d).

Definition days_from_civil (y m d : Z) : Z :=
  let y := if m <=? 2 then y - 1 else y in
  let era := y / 400 in
  let yoe := y - era * 400 in
  let doy := (153 * (if 2 <? m then m - 3 else m + 9) + 2) / 5 + d - 1 in
  let doe := yoe * 365 + yoe / 4 - yoe / 100 + doy in
  era * 146097 + doe - 719468.

Definition ms_per_day : Z := 86400000.

(** A natural number in decimal, padded with zeros to [width] digits. *)
Definition padded (width : nat) (n : Z) : jsstring :=
  let digits := Z_to_js n in
  repeat 48%N (width - length digits) ++ digits.

Definition iso_format (t : Z) : jsstring :=
  let '(y, m, d) := civil_from_days (t / ms_per_day) in
  let ms := t mod ms_per_day in
  (if (0 <=? y) && (y <=? 9999) then padded 4 y
   else (if y <? 0 then u "-" else u "+") ++ padded 6 (Z.abs y))
    ++ u "-" ++ padded 2 m ++ u "-" ++ padded 2 d ++ u "T"
    ++ padded 2 (ms / 3600000) ++ u ":" ++ padded 2 (ms / 60000 mod 60)
    ++ u ":" ++ padded 2 (ms / 1000 mod 60) ++ u "."
    ++ padded 3 (ms mod 1000) ++ u "Z".

(** The number that the digits of [s] spell; [None] unless all are
    digits. *)
Definition digits_value (s : jsstring) : option Z :=
  if forallb is_digit s && negb (bool_decide (s = [])) then parseInt s
  else None.

(** The parser: the format [YYYY-MM-DDTHH:mm:ss.sssZ] and nothing else. *)
Definition iso_parse (s : jsstring) : option Z :=
  match s with
  | [y1; y2; y3; y4; 45%N; m1; m2; 45%N; d1; d2; 84%N; h1; h2; 58%N;
     i1; i2; 58%N; s1; s2; 46%N; f1; f2; f3; 90%N] =>
      y ← digits_value [y1; y2; y3; y4];
      m ← digits_value [m1; m2];
      d ← digits_value [d1; d2];
      h ← digits_value [h1; h2];
      i ← digits_value [i1; i2];
      sec ← digits_value [s1; s2];
      f ← digits_value [f1; f2; f3];
      if (1 <=? m) && (m <=? 12) && (1 <=? d) && (d <=? 31) && (h <=? 23)
         && (i <=? 59) && (sec <=? 59)
      then Some (days_from_civil y m d * ms_per_day + h * 3600000
                   + i * 60000 + sec * 1000 + f)
      else None
  | _ => None
  end.

Definition utc_year (t : Z) : Z :=
  let '(y, _, _) := civil_from_days (t / ms_per_day) in y.

Definition utc_set_year (t year : Z) : option Z :=
  let '(_, m, d) := civil_from_days (t / ms_per_day) in
  Some (days_from_civil year m d * ms_per_day + t mod ms_per_day).

Definition host (production : bool) : Host :=
  {| production := production;
     sessionDir := u "/app/sessions";
     path_join := fun a b => a ++ u "/" ++ b;
     Date_parse := iso_parse;
     toISOString := iso_format;
     getFullYear := utc_year;
     setFullYear := utc_set_year |}.

(** What the site shows. *)
Record Tweet := {
  tw_datetime : option jsstring;   (* the [datetime] of its [time] element *)
  tw_text : jsstring;
  tw_author : jsstring;
  tw_url : jsstring;
  tw_stats : jsstring
}.

Record Site := {
  site_down : bool;        (* navigation to the login page fails *)
  site_accepts : bool;     (* the credentials are accepted *)
  site_2fa : bool;         (* a code is asked for after the password *)
  site_tweets : list Tweet
}.

(** The outside world.  Pages and browsers share their handles. *)
Record World := {
  w_site : Site;
  w_clock : Z;
  w_dirs : list jsstring;             (* directories that exist *)
  w_files : list (jsstring * session_info);
  w_open : list (browser * jsstring); (* open browsers, with their profile *)
  w_next : nat;                       (* the next handle *)
  w_cookies : list jsstring;          (* profiles that hold a login *)
  w_submitted : list browser;         (* pages whose login form was sent *)
  w_url : jsstring                    (* the address last navigated to *)
}.

Definition add_dir (d : jsstring) (dirs : list jsstring) : list jsstring :=
  if existsb (str_eqb d) dirs then dirs else dirs ++ [d].

Definition remove_dir (d : jsstring) (dirs : list jsstring) : list jsstring :=
  List.filter (fun d' => negb (str_eqb d d')) dirs.

Definition profile_of (w : World) (p : page) : option jsstring :=
  snd <$> List.find (fun b => Nat.eqb (fst b) p) (w_open w).

Definition logged_in (w : World) (p : page) : bool :=
  match profile_of w p with
  | Some d => existsb (str_eqb d) (w_cookies w)
  | None => false
  end.

(** Element handles: tweet [i] is [10 * (i + 1)]; its time, text, author
    and statistics elements follow it. *)
Definition tweet_of (w : World) (e : element) : option Tweet :=
  if Nat.ltb (e / 10) 1 then None
  else nth_error (site_tweets (w_site w)) (e / 10 - 1).

Definition tweet_handles (w : World) : list element :=
  List.map (fun i => 10 * (i + 1))%nat (seq 0 (length (site_tweets (w_site w)))).

Definition set_clock (w : World) (t : Z) : World :=
  {| w_site := w_site w; w_clock := t; w_dirs := w_dirs w;
     w_files := w_files w; w_open := w_open w; w_next := w_next w;
     w_cookies := w_cookies w; w_submitted := w_submitted w;
     w_url := w_url w |}.

Definition set_fs (w : World) (dirs : list jsstring)
    (files : list (jsstring * session_info)) (cookies : list jsstring)
  : World :=
  {| w_site := w_site w; w_clock := w_clock w; w_dirs := dirs;
     w_files := files; w_open := w_open w; w_next := w_next w;
     w_cookies := cookies; w_submitted := w_submitted w; w_url := w_url w |}.

Definition set_open (w : World) (dirs : list jsstring)
    (open : list (browser * jsstring)) (next : nat) : World :=
  {| w_site := w_site w; w_clock := w_clock w; w_dirs := dirs;
     w_files := w_files w; w_open := open; w_next := next;
     w_cookies := w_cookies w; w_submitted := w_submitted w;
     w_url := w_url w |}.

Definition set_url (w : World) (url : jsstring) : World :=
  {| w_site := w_site w; w_clock := w_clock w; w_dirs := w_dirs w;
     w_files := w_files w; w_open := w_open w; w_next := w_next w;
     w_cookies := w_cookies w; w_submitted := w_submitted w; w_url := url |}.

(** Sending the login form: the profile holds a login from then on when
    the site accepts the credentials and asks for no code. *)
Definition submit (w : World) (p : page) : World :=
  {| w_site := w_site w; w_clock := w_clock w; w_dirs := w_dirs w;
     w_files := w_files w; w_open := w_open w; w_next := w_next w;
     w_cookies :=
       match profile_of w p with
       | Some d =>
           if site_accepts (w_site w) && negb (site_2fa (w_site w))
           then add_dir d (w_cookies w) else w_cookies w
       | None => w_cookies w
       end;
     w_submitted := p :: w_submitted w; w_url := w_url w |}.

Definition unreachable (url : jsstring) : error :=
  mkError (u "net::ERR_CONNECTION_REFUSED at " ++ url).

Definition handle (o : op) (w : World) : World * resp o :=
  match o return World * resp o with
  | FsEnsureDir d =>
      (set_fs w (add_dir d (w_dirs w)) (w_files w) (w_cookies w), Ok ())
  | FsWriteJson f data =>
      (set_fs w (w_dirs w) ((f, data) :: w_files w) (w_cookies w), Ok ())
  | FsRemove d =>
      (set_fs w (remove_dir d (w_dirs w)) (w_files w)
         (remove_dir d (w_cookies w)), Ok ())
  | DateNow => (w, w_clock w)
  | MathRandom => (w, Qmake 1 2)
  | SetTimeout ms => (set_clock w (w_clock w + ms), ())
  | Launch d _ =>
      (set_open w (add_dir d (w_dirs w)) (w_open w ++ [(w_next w, d)])
         (S (w_next w)), Ok (w_next w))
  | BrowserClose b =>
      (set_open w (w_dirs w)
         (List.filter (fun o => negb (Nat.eqb (fst o) b)) (w_open w))
         (w_next w), Ok ())
  | NewPage b => (w, Ok b)
  | Goto p (AStr url) _ =>
      if site_down (w_site w) && includes (u "/login") url
      then (w, Err (unreachable url))
      else (set_url w url, Ok ())
  | Goto p _ _ => (w, Err (mkError (u "Cannot navigate to invalid URL")))
  | PageUrl p => (w, w_url w)
  | PostLoginWaits p _ _ =>
      (set_clock w (w_clock w + 3000),
       if existsb (Nat.eqb p) (w_submitted w) && site_accepts (w_site w)
       then if site_2fa (w_site w) then (Fulfilled, Pending)
            else (Pending, Fulfilled)
       else (Pending, Pending))
  | PageQuery p (AStr s) =>
      (w, Ok (if str_eqb s logged_in_twitter
              then if logged_in w p then Some 1%nat else None
              else Some 2%nat))
  | PageQuery p _ => (w, Err (mkError (u "selector is not a string")))
  | PageQueryAll p s =>
      (w, Ok (if str_eqb s tweet_selector then tweet_handles w else []))
  | ElementQuery e s =>
      (w, Ok match tweet_of w e with
             | Some tw =>
                 if negb (Nat.eqb (e mod 10) 0) then None
                 else if str_eqb s (u "time")
                 then (fun _ => (e + 1)%nat) <$> tw_datetime tw
                 else if str_eqb s (attr "data-testid" "tweetText")
                 then Some (e + 2)%nat
                 else if str_eqb s (attr "data-testid" "User-Names" ++ u " a")
                 then Some (e + 3)%nat
                 else if str_eqb s (attr "role" "group")
                 then Some (e + 4)%nat
                 else None
             | None => None
             end)
  | BoundingBox e =>
      (w, Ok (Some (Box (inject_Z 100) (inject_Z 200) (inject_Z 80) (inject_Z 30))))
  | MouseClick p _ _ => (submit w p, Ok ())
  | EvalIsVisible _ _ => (w, Ok true)
  | EvalTrimmedText _ e =>
      (w, Ok match tweet_of w e with
             | Some tw => if Nat.eqb (e mod 10) 2 then trim (tw_text tw)
                          else trim (tw_author tw)
             | None => []
             end)
  | EvalTextContent _ e => (w, Ok (tw_stats <$> tweet_of w e))
  | EvalGetAttribute _ e _ => (w, Ok (tweet_of w e ≫= tw_datetime))
  | EvalTextOrTitle _ _ => (w, Ok [])
  | EvalStatusLink _ e => (w, Ok (default [] (tw_url <$> tweet_of w e)))
  | EvalHref _ _ => (w, Ok [])
  | PageSetup _ _ | PageWaitForSelector _ _ _ | WaitForNavigation _ _
  | PageClick _ _ | PageType _ _ _ _ | Keyboard _ _ _ | MouseMove _ _ _ _
  | ScrollTo _ _ | ElementClick _ => (w, Ok ())
  end.

Definition world (site : Site) (clock : Z) : World :=
  {| w_site := site; w_clock := clock; w_dirs := []; w_files := [];
     w_open := []; w_next := 1%nat; w_cookies := []; w_submitted := [];
     w_url := [] |}.
End Sim.

(* ------------------------------------------------------------------ *)
(** ** Vocabulary of the statements *)

(** An ASCII letter, a digit or the underscore. *)
Definition id_unit (c : N) : Prop :=
  65 <= c <= 90 \/ 97 <= c <= 122 \/ 48 <= c <= 57 \/ c = 95.

(** The text of the specification's example, with its middle dot. *)
Definition stats_example : jsstring :=
  u "1,250 likes " ++ [183] ++ u " 42 comments".

(** No condition on the operations. *)
Definition any_op : op -> Prop := fun _ => True.

(** The identifiers of a list of posts are pairwise different. *)
Definition unique_ids (posts : list Post) : Prop := NoDup (List.map p_id posts).

(** The date of every post of the list, read back from its ISO text, is
    not before [cutoffDate]. *)
Definition all_within (host : Host) (cutoffDate : date) (posts : list Post)
  : Prop :=
  Forall (fun post => date_ge (new_Date host (p_date post)) cutoffDate = true)
    posts.

(** What both acquisition loops establish, [R] saying which clock readings
    are possible. *)
Definition posts_ok (host : Host) (R : forall o : op, resp o -> Prop)
    (timeframe : jsstring) (posts : list Post) : Prop :=
  unique_ids posts
  /\ exists now : Z,
       R DateNow now /\ all_within host (cutoff_date now timeframe) posts.

(** The clock never reads less than [t0]. *)
Definition clock_from (t0 : Z) (o : op) : resp o -> Prop :=
  match o with
  | DateNow => fun now => (t0 <= now)%Z
  | _ => fun _ => True
  end.

(** [clock_from], decided on an event. *)
Definition clock_fromb (t0 : Z) (ev : event) : bool :=
  match ev with
  | Event o x =>
      match o return resp o -> bool with
      | DateNow => fun now => (t0 <=? now)%Z
      | _ => fun _ => true
      end x
  end.

(** A site and a request to try the statements on: three tweets, one of
    them older than a week, and an account whose credentials the site
    accepts. *)
Definition demo_tweet (datetime text : string) : Sim.Tweet :=
  {| Sim.tw_datetime := Some (u datetime);
     Sim.tw_text := u text;
     Sim.tw_author := u "alice";
     Sim.tw_url := u "https://twitter.com/alice/status/1";
     Sim.tw_stats := u "12 replies 1,250 likes" |}.

Definition demo_site : Sim.Site :=
  {| Sim.site_down := false;
     Sim.site_accepts := true;
     Sim.site_2fa := false;
     Sim.site_tweets :=
       [demo_tweet "2023-11-04T10:30:00.000Z" "hello";
        demo_tweet "2023-10-01T10:30:00.000Z" "an old one";
        demo_tweet "2023-11-03T08:00:00.000Z" "second"] |}.

Definition demo_clock : Z := 1699123456789.

Definition demo_world : Sim.World := Sim.world demo_site demo_clock.

Definition demo_args : ScrapeArgs :=
  {| a_email := u "hello@example.com";
     a_password := u "secret";
     a_targetUser := u "alice";
     a_platform := u "twitter";
     a_timeframe := Some (u "7d");
     a_sessionId := None |}.

(** Every operation is of a kind that [allowed] admits. *)
Definition permits (allowed : op_class -> bool) (o : op) : Prop :=
  allowed (classify o) = true.

(** [p] requests operations of the admitted kinds only. *)
Definition uses (R : forall o : op, resp o -> Prop) (allowed : op_class -> bool)
    {A} (p : prog A) : Prop :=
  sat R (permits allowed) any_result p.

(** A normal completion. *)
Definition is_ok {A} (r : result A) : Prop :=
  match r with
  | Ok _ => True
  | Err _ => False
  end.



#[export] Instance jsarg_eq_dec : EqDecision jsarg.
Proof. solve_decision. Defined.

(** The persisted session of the platform is valid: the navigation to the
    platform's home address succeeds and the query for its logged-in
    marker finds an element. *)
Definition session_valid (platform : jsstring) (o : op) : resp o -> Prop :=
  match o with
  | Goto _ url _ =>
      fun x => url = arg_of (obj_get homeUrls platform) -> x = Ok ()
  | PageQuery _ selector =>
      fun x => selector = arg_of (obj_get loggedInSelectors platform) ->
               exists el, x = Ok (Some el)
  | _ => fun _ => True
  end.

Definition session_validb (platform : jsstring) (ev : event) : bool :=
  match ev with
  | Event o x =>
      match o return resp o -> bool with
      | Goto _ url _ =>
          fun x => if bool_decide (url = arg_of (obj_get homeUrls platform))
                   then match x with Ok _ => true | Err _ => false end
                   else true
      | PageQuery _ selector =>
          fun x => if bool_decide (selector
                                   = arg_of (obj_get loggedInSelectors platform))
                   then match x with Ok (Some _) => true | _ => false end
                   else true
      | _ => fun _ => true
      end x
  end.

(** The kinds of operation other than [c]. *)
Definition all_but (c : op_class) (c' : op_class) : bool :=
  match c, c' with
  | CRemove, CRemove | CWrite, CWrite | CCredential, CCredential
  | CLaunch, CLaunch | CClose, CClose | COther, COther => false
  | _, _ => true
  end.

Definition demo_test_args : TestArgs :=
  {| t_email := u "hello@example.com";
     t_password := u "secret";
     t_platform := u "twitter";
     t_sessionId := Some (u "probe") |}.

(** The site of the demonstration when it asks for a code after the
    password, and when its login page cannot be reached. *)
Definition site_with_2fa : Sim.Site :=
  {| Sim.site_down := false;
     Sim.site_accepts := true;
     Sim.site_2fa := true;
     Sim.site_tweets := Sim.site_tweets demo_site |}.

Definition site_unreachable : Sim.Site :=
  {| Sim.site_down := true;
     Sim.site_accepts := true;
     Sim.site_2fa := false;
     Sim.site_tweets := Sim.site_tweets demo_site |}.

(** No two open browsers have the same profile location. *)
Definition profile_exclusive (w : Sim.World) : Prop :=
  NoDup (List.map snd (Sim.w_open w)).

(** A call that has not completed. *)
Definition running {A} (p : prog A) : Prop :=
  match p with
  | Vis _ _ => True
  | _ => False
  end.

(** The platform has a configuration, of its own or inherited. *)
Definition configured (platform : jsstring) : Prop :=
  match obj_get scraperConfigs platform with
  | Missing => False
  | _ => True
  end.

(** An abrupt completion. *)
Definition raises {A} (r : result A) : Prop :=
  match r with
  | Ok _ => False
  | Err _ => True
  end.

(** A request for a platform that is configured and not implemented. *)
Definition instagram_args : ScrapeArgs :=
  {| a_email := u "hello@example.com";
     a_password := u "secret";
     a_targetUser := u "alice";
     a_platform := u "instagram";
     a_timeframe := None;
     a_sessionId := Some (u "insta") |}.


(** [tsat R T p]: in every run of [p] whose answers are among those that
    [R] allows, the events of the run, in order, and its completion
    satisfy [T]. *)
Fixpoint tsat (R : forall o : op, resp o -> Prop) {A}
    (T : list event -> result A -> Prop) (p : prog A) : Prop :=
  match p with
  | Ret a => T [] (Ok a)
  | Throw e => T [] (Err e)
  | Vis o k =>
      forall x, R o x -> tsat R (fun trace r => T (Event o x :: trace) r) (k x)
  end.

(** The browser that an event hands out, and the browser that an event
    asks to close. *)
Definition launched (ev : event) : option browser :=
  match ev with
  | Event o x =>
      match o return resp o -> option browser with
      | Launch _ _ => fun x => match x with Ok b => Some b | Err _ => None end
      | _ => fun _ => None
      end x
  end.

Definition closed (ev : event) : option browser :=
  match ev with
  | Event (BrowserClose b) _ => Some b
  | _ => None
  end.

(** Every browser that the run was handed is asked to be closed by the
    last operation of the run. *)
Definition closes_last (trace : list event) : Prop :=
  forall b, In b (omap launched trace) -> last trace ≫= closed = Some b.

(** [ops R I p]: every operation that [p] requests satisfies [I]. *)
Definition ops (R : forall o : op, resp o -> Prop) (I : op -> Prop) {A}
    (p : prog A) : Prop :=
  sat R I any_result p.

(** The operations that type a text into a field and those that scroll
    the page; what an event types, with the selector of the field, and
    how it scrolls. *)
Definition is_typing (o : op) : bool :=
  match o with
  | PageType _ _ _ _ => true
  | _ => false
  end.

Definition is_scroll (o : op) : bool :=
  match o with
  | ScrollTo _ _ => true
  | _ => false
  end.

Definition typed (ev : event) : option (jsstring * jsstring) :=
  match ev_op ev with
  | PageType _ selector text _ => Some (selector, text)
  | _ => None
  end.

Definition scrolled (ev : event) : option bool :=
  match ev_op ev with
  | ScrollTo _ half => Some half
  | _ => None
  end.

(** [osat R obs P p]: in every run of [p] whose answers are among those
    that [R] allows, what [obs] retains of the events, in order, and the
    completion satisfy [P]. *)
Definition osat (R : forall o : op, resp o -> Prop) {X A}
    (obs : event -> option X) (P : list X -> result A -> Prop) (p : prog A)
  : Prop :=
  tsat R (fun trace r => P (omap obs trace) r) p.

(** The pieces of a text, code point by code point, with the selector of
    the field that they are typed into. *)
Definition keystrokes (selector text : jsstring) : list (jsstring * jsstring) :=
  List.map (pair selector) (code_points text).

(** What a login types: the e-mail into the first field, then the password
    into the second. *)
Definition credentials_typed (config : PlatformConfig) (email password : jsstring)
  : list (jsstring * jsstring) :=
  keystrokes (usernameInput (selectors config)) email
    ++ keystrokes (passwordInput (selectors config)) password.

(** No typing, no scrolling. *)
Definition quiet_typing : op -> Prop := fun o => is_typing o = false.
Definition quiet_scroll : op -> Prop := fun o => is_scroll o = false.

(** What a login on [platform] types: nothing when the platform has no
    configuration of its own. *)
Definition login_typed (platform email password : jsstring)
  : list (jsstring * jsstring) :=
  match obj_get scraperConfigs platform with
  | Own config => credentials_typed config email password
  | _ => []
  end.

(* ================================================================== *)
(** * Properties *)

(* ------------------------------------------------------------------ *)
(** ** The matcher *)

Example match_hours :
  (fun m => (group 1 m, group 2 m)) <$>
    str_match facebook_ago (u "about 3 Hours ago")
  = Some (Some (u "3"), Some (u "Hour")).
Proof. vm_compute. reflexivity. Qed.

Example match_lazy :
  (fun m => (whole m, group 1 m)) <$>
    str_match (pat_after (u "like")) (u "Liked by 1,204 and 17 more")
  = Some (u "Liked by 1,204", Some (u "1,204")).
Proof. vm_compute. reflexivity. Qed.

Example sanitize_markup :
  sanitizeText (u "  <b onclick = 'x'>Hi</b><script>alert(1)<x></script> there ")
  = u "Hi there".
Proof. vm_compute. reflexivity. Qed.

Example base64_ascii :
  base64 (u "hello@example.com") = u "aGVsbG9AZXhhbXBsZS5jb20=".
Proof. vm_compute. reflexivity. Qed.

(** A search skips input only: the text before the match extends the text
    before the search. *)
Lemma search_from_prefix r : forall aft bef m,
  search_from r bef aft = Some m ->
  exists skipped, m_prefix m = List.rev skipped ++ bef.
Proof.
  induction aft as [|c rest IH]; intros bef m; simpl.
  - destruct (rmatch r Some (MState bef [] [])); intros [= <-].
    exists []. reflexivity.
  - destruct (rmatch r Some (MState bef (c :: rest) [])).
    + intros [= <-]. exists []. reflexivity.
    + intros H. destruct (IH _ _ H) as [sk Hsk].
      exists (c :: sk). rewrite Hsk. simpl. rewrite <- app_assoc. reflexivity.
Qed.

Lemma firstn_skipped {A} (sk bef : list A) :
  firstn (length (sk ++ bef) - length bef) (sk ++ bef) = sk.
Proof.
  rewrite length_app.
  replace (length sk + length bef - length bef)%nat with (length sk + 0)%nat by lia.
  rewrite firstn_app_2. simpl. apply app_nil_r.
Qed.

(** Where the expression does not match at the first unit, a global
    replacement copies that unit and goes on behind it. *)
Lemma replace_all_from_skip r by_ fuel bef c rest :
  rmatch r Some (MState bef (c :: rest) []) = None ->
  replace_all_from (S fuel) r by_ bef (c :: rest)
  = c :: replace_all_from (S fuel) r by_ (c :: bef) rest.
Proof.
  intros Hno. cbn [replace_all_from search_from]. rewrite Hno.
  destruct (search_from r (c :: bef) rest) as [m|] eqn:Hs; [|reflexivity].
  destruct (search_from_prefix _ _ _ _ Hs) as [sk Hsk].
  rewrite Hsk.
  replace (List.rev sk ++ c :: bef) with ((List.rev sk ++ [c]) ++ bef)
    by (rewrite <- app_assoc; reflexivity).
  rewrite firstn_skipped.
  replace ((List.rev sk ++ [c]) ++ bef) with (List.rev sk ++ c :: bef)
    by (rewrite <- app_assoc; reflexivity).
  rewrite (firstn_skipped (List.rev sk) (c :: bef)).
  rewrite rev_app_distr, rev_involutive. simpl.
  destruct (Nat.eqb _ _); [destruct (after (m_state m))|]; reflexivity.
Qed.

(** The global replacement of a character class is a unit-wise map. *)
Lemma replace_all_from_class p by_ : forall aft fuel bef,
  (length aft < fuel)%nat ->
  replace_all_from fuel (RChar p) by_ bef aft
  = List.flat_map (fun c => if p c then by_ else [c]) aft.
Proof.
  induction aft as [|c rest IH]; intros fuel bef Hfuel.
  - destruct fuel; [simpl in Hfuel; lia|]. reflexivity.
  - destruct fuel as [|fuel]; [simpl in Hfuel; lia|].
    simpl in Hfuel.
    destruct (p c) eqn:Hp.
    + cbn [replace_all_from search_from rmatch after]. rewrite Hp.
      cbn [m_prefix m_state before after].
      replace (Nat.eqb (length (c :: bef)) (length bef)) with false
        by (symmetry; apply Nat.eqb_neq; simpl; lia).
      rewrite Nat.sub_diag. change (firstn 0 bef) with (@nil N).
      change (List.rev (@nil N) ++ ?x) with x.
      cbn [List.flat_map]. rewrite Hp. f_equal. apply IH. lia.
    + rewrite replace_all_from_skip by (cbn; rewrite Hp; reflexivity).
      cbn [List.flat_map]. rewrite Hp. cbn [app]. f_equal. apply IH. lia.
Qed.

Lemma replace_all_class p by_ s :
  replace_all (RChar p) by_ s
  = List.flat_map (fun c => if p c then by_ else [c]) s.
Proof. apply replace_all_from_class. lia. Qed.

(* ------------------------------------------------------------------ *)
(** ** generatePostId *)

Lemma is_word_id_unit c : is_word c = true -> id_unit c.
Proof.
  unfold is_word, is_alpha, is_upper, is_lower, is_digit, id_unit.
  rewrite !orb_true_iff, !andb_true_iff, !N.leb_le, N.eqb_eq. tauto.
Qed.

Example generatePostId_example :
  generatePostId (u "twitter") (u "J. Doe @x") (Some 1699123456789%Z) 0
  = u "twitter_J__Doe__x_1699123456789_0".
Proof. vm_compute. reflexivity. Qed.

(** C10: whatever the platform, the author, the timestamp (a time value
    or NaN) and the index, every code unit of the identifier that
    [generatePostId] returns is an ASCII letter, a digit or an underscore. *)
Theorem generatePostId_safe platform author timestamp index :
  Forall id_unit (generatePostId platform author timestamp index).
Proof.
  unfold generatePostId, id_unsafe. rewrite replace_all_class.
  apply Forall_flat_map, Forall_forall. intros c _.
  destruct (is_word c) eqn:Hc; cbn [negb].
  - constructor; [apply is_word_id_unit, Hc | constructor].
  - constructor; [|constructor]. unfold id_unit. vm_compute. tauto.
Qed.

(* ------------------------------------------------------------------ *)
(** ** parseTimeframe *)

Example parseTimeframe_known :
  List.map parseTimeframe [u "1h"; u "6h"; u "12h"; u "1d"; u "3d"; u "7d"; u "30d"]
  = List.map VNumber
      [3600000; 21600000; 43200000; 86400000; 259200000; 604800000;
       2592000000]%Z.
Proof. vm_compute. reflexivity. Qed.

(** A text that names neither a symbol of the table nor a member of
    [Object.prototype] gets the duration of 7d. *)
Lemma parseTimeframe_default timeframe :
  own_get timeMap timeframe = None ->
  existsb (str_eqb timeframe) object_prototype_keys = false ->
  parseTimeframe timeframe = VNumber (7 * 24 * 60 * 60 * 1000).
Proof.
  intros Hown Hproto. unfold parseTimeframe, obj_get.
  rewrite Hown, Hproto. reflexivity.
Qed.

(** C3, at an input where the code departs from it: the text
    [constructor] is none of the seven symbols, and [parseTimeframe]
    returns the member of [Object.prototype] of that name, not the
    duration of 7d; the cutoff computed from it is an invalid date. *)
Theorem parseTimeframe_constructor :
  own_get timeMap (u "constructor") = None
  /\ parseTimeframe (u "constructor") = VObject (u "constructor")
  /\ parseTimeframe (u "7d") = VNumber (7 * 24 * 60 * 60 * 1000)
  /\ forall now, time_clip (js_minus now (parseTimeframe (u "constructor"))) = None.
Proof. repeat split. Qed.

(* ------------------------------------------------------------------ *)
(** ** parseStats *)

Lemma first_number_some statsText patternArray number :
  first_number statsText patternArray = Some number ->
  exists pattern, In pattern patternArray
                  /\ pattern_number statsText pattern = Some number.
Proof.
  induction patternArray as [|pattern rest IH]; simpl; [discriminate|].
  destruct (pattern_number statsText pattern) as [n|] eqn:Hp.
  - intros [= <-]. eauto.
  - intros H. destruct (IH H) as (q & Hin & Hq). eauto.
Qed.

Lemma pattern_number_some statsText pattern number :
  pattern_number statsText pattern = Some number ->
  exists m capture,
    str_match pattern statsText = Some m
    /\ group 1 m = Some capture
    /\ parseInt (strip_commas capture) = Some number.
Proof.
  unfold pattern_number. intros H.
  destruct (str_match pattern statsText) as [m|]; [|discriminate].
  cbn [mbind option_bind] in H.
  destruct (group 1 m) as [c|] eqn:Hg; [|discriminate].
  cbn [mbind option_bind] in H. destruct (bool_decide (c = [])); [discriminate|].
  exists m, c. auto.
Qed.

(** A key is in the result only by a pattern listed under it. *)
Lemma stats_entries_lookup statsText key number : forall entries stats,
  stats_entries statsText entries stats !! key = Some number ->
  stats !! key = Some number
  \/ exists patternArray pattern,
       In (key, patternArray) entries /\ In pattern patternArray
       /\ pattern_number statsText pattern = Some number.
Proof.
  induction entries as [|[k patternArray] rest IH]; intros stats; simpl.
  - auto.
  - intros H. apply IH in H as [H|(pa & p & Hin & Hp)].
    + destruct (first_number statsText patternArray) as [n|] eqn:Hf; [|auto].
      destruct (decide (k = key)) as [->|Hne].
      * rewrite lookup_insert_eq in H. injection H as ->.
        destruct (first_number_some _ _ _ Hf) as (p & Hin & Hp).
        right. exists patternArray, p. auto.
      * rewrite lookup_insert_ne in H by exact Hne. auto.
    + right. exists pa, p. tauto.
Qed.

Example parseStats_example_entries :
  map_to_list (parseStats (Some stats_example) (u "twitter"))
  = [(u "likes", 1250%Z); (u "replies", 42%Z)].
Proof. vm_compute. reflexivity. Qed.

Example parseStats_nothing_to_find :
  parseStats (Some (u "posted from the office")) (u "twitter") = ∅
  /\ parseStats None (u "twitter") = ∅
  /\ parseStats (Some stats_example) (u "constructor") = ∅.
Proof. repeat split. Qed.

(** C5: a key is in the result of [parseStats] only if a pattern that is
    configured under that key for the platform matched the text and the
    number is its first capture with the commas removed -- no key is filled
    in by default; on the text "1,250 likes . 42 comments" for twitter the
    result has likes = 1250 and no key comments, twitter having no patterns
    under comments. *)
Theorem parseStats_only_matched :
  (forall statsText platform key number,
     parseStats statsText platform !! key = Some number ->
     exists text patternArray pattern m capture,
       statsText = Some text
       /\ In (key, patternArray) (patterns_for platform)
       /\ In pattern patternArray
       /\ str_match pattern text = Some m
       /\ group 1 m = Some capture
       /\ parseInt (strip_commas capture) = Some number)
  /\ parseStats (Some stats_example) (u "twitter") !! u "likes" = Some 1250%Z
  /\ parseStats (Some stats_example) (u "twitter") !! u "comments" = None
  /\ own_get (patterns_for (u "twitter")) (u "comments") = None.
Proof.
  split; [|repeat split].
  intros statsText platform key number H.
  destruct statsText as [[|c text]|]; try (cbn in H; discriminate).
  unfold parseStats in H.
  apply stats_entries_lookup in H as [H|(pa & p & Hin & Hp & Hn)].
  - rewrite lookup_empty in H. discriminate.
  - destruct (pattern_number_some _ _ _ Hn) as (m & cap & Hm & Hg & Hi).
    exists (c :: text), pa, p, m, cap. tauto.
Qed.

(** The statement at the example: the pattern behind its likes. *)
Lemma parseStats_only_matched_witness :
  exists text patternArray pattern m capture,
    Some stats_example = Some text
    /\ In (u "likes", patternArray) (patterns_for (u "twitter"))
    /\ In pattern patternArray
    /\ str_match pattern text = Some m
    /\ group 1 m = Some capture
    /\ parseInt (strip_commas capture) = Some 1250%Z.
Proof.
  apply (proj1 parseStats_only_matched
           (Some stats_example) (u "twitter") (u "likes") 1250%Z).
  vm_compute. reflexivity.
Defined.

(* ------------------------------------------------------------------ *)
(** ** Relative dates *)

Lemma relative_date_3_hours now :
  relative_date now (u "3 hours ago")
  = Some (minus_ms now (Some 3%Z) (60 * 60 * 1000)).
Proof. lazy -[minus_ms]. reflexivity. Qed.

Lemma relative_date_yesterday now :
  relative_date now (u "Yesterday") = None.
Proof. lazy. reflexivity. Qed.

Lemma time_clip_in_range t :
  (- max_time <= t <= max_time)%Z -> time_clip (Some t) = Some t.
Proof.
  intros H. unfold time_clip.
  destruct (Z.leb_spec (Z.abs t) max_time); [reflexivity|lia].
Qed.

(** C4: at a clock reading T from which the instant 24 hours earlier is
    still a time value, the date normalisation of the extraction pipeline,
    [parseFacebookDate], reads the text "3 hours ago" as the instant
    T - 3 h exactly and the text "Yesterday" as the instant T - 24 h
    exactly, whatever the host's own date parser does. *)
Theorem relative_dates_exact host T :
  (- max_time + 24 * 60 * 60 * 1000 <= T <= max_time)%Z ->
  parseFacebookDate host T (u "3 hours ago")
  = Some (Some (T - 3 * 60 * 60 * 1000)%Z)
  /\ parseFacebookDate host T (u "Yesterday")
     = Some (Some (T - 24 * 60 * 60 * 1000)%Z).
Proof.
  intros HT. unfold max_time in HT. split.
  - unfold parseFacebookDate. rewrite relative_date_3_hours.
    unfold minus_ms. cbn [fmap option_fmap option_map].
    rewrite time_clip_in_range by (unfold max_time; lia).
    do 2 f_equal; lia.
  - unfold parseFacebookDate. rewrite relative_date_yesterday.
    replace (includes (u "yesterday") (toLowerCase (u "Yesterday"))) with true
      by (vm_compute; reflexivity).
    rewrite time_clip_in_range by (unfold max_time; lia).
    reflexivity.
Qed.

Lemma relative_dates_exact_witness :
  parseFacebookDate (Sim.host true) 1699123456789 (u "3 hours ago")
  = Some (Some (1699123456789 - 3 * 60 * 60 * 1000)%Z)
  /\ parseFacebookDate (Sim.host true) 1699123456789 (u "Yesterday")
     = Some (Some (1699123456789 - 24 * 60 * 60 * 1000)%Z).
Proof.
  apply (relative_dates_exact (Sim.host true) 1699123456789).
  unfold max_time. lia.
Defined.

(** The utility [parseDate], which the service imports and never calls,
    reads "3 hours ago" the same way on a host whose parser rejects that
    text, and has no case for "Yesterday". *)
Lemma parseDate_relative host T :
  (- max_time + 24 * 60 * 60 * 1000 <= T <= max_time)%Z ->
  Date_parse host (u "3 hours ago") = None ->
  Date_parse host (u "Yesterday") = None ->
  parseDate host T (u "3 hours ago") = Some (Some (T - 3 * 60 * 60 * 1000)%Z)
  /\ parseDate host T (u "Yesterday") = None.
Proof.
  intros HT H3 Hy. unfold max_time in HT. split.
  - unfold parseDate, new_Date. rewrite H3.
    replace (ago_value (ago_pattern [u "s"; u "sec"; u "second"]) (u "3 hours ago"))
      with (@None (option Z)) by (vm_compute; reflexivity).
    replace (ago_value (ago_pattern [u "m"; u "min"; u "minute"]) (u "3 hours ago"))
      with (@None (option Z)) by (vm_compute; reflexivity).
    replace (ago_value (ago_pattern [u "h"; u "hr"; u "hour"]) (u "3 hours ago"))
      with (Some (Some 3%Z)) by (vm_compute; reflexivity).
    replace (bool_decide (u "3 hours ago" = [])) with false by reflexivity.
    unfold minus_ms. cbn [fmap option_fmap option_map].
    rewrite time_clip_in_range by (unfold max_time; lia).
    do 2 f_equal; lia.
  - unfold parseDate, new_Date. rewrite Hy. vm_compute. reflexivity.
Qed.

(* ------------------------------------------------------------------ *)
(** ** Rules of the program logic *)

Section Rules.
Context (R : forall o : op, resp o -> Prop) (I : op -> Prop).

Lemma sat_mono {A} (Q Q' : result A -> Prop) (p : prog A) :
  (forall r, Q r -> Q' r) -> sat R I Q p -> sat R I Q' p.
Proof.
  intros HQ. induction p as [a|e|o k IH]; cbn; auto.
  intros [Ho Hk]. split; [exact Ho|]. intros x Hx. apply IH, Hk, Hx.
Qed.

Lemma sat_bind {A B} (Q : result B -> Prop) (p : prog A) (f : A -> prog B) :
  sat R I (fun r => match r with
                    | Ok a => sat R I Q (f a)
                    | Err e => Q (Err e)
                    end) p ->
  sat R I Q (p ≫= f).
Proof.
  induction p as [a|e|o k IH]; cbn; auto.
  intros [Ho Hk]. split; [exact Ho|]. intros x Hx. apply IH, Hk, Hx.
Qed.

Lemma sat_attempt {A} (Q : result (result A) -> Prop) (p : prog A) :
  sat R I (fun r => Q (Ok r)) p -> sat R I Q (attempt p).
Proof.
  induction p as [a|e|o k IH]; cbn; auto.
  intros [Ho Hk]. split; [exact Ho|]. intros x Hx. apply IH, Hk, Hx.
Qed.

Lemma sat_complete {A} (Q : result A -> Prop) (r : result A) :
  Q r -> sat R I Q (complete r).
Proof. destruct r; exact id. Qed.

Lemma sat_try_catch {A} (Q : result A -> Prop) (p : prog A) handler :
  sat R I (fun r => match r with
                    | Ok a => Q (Ok a)
                    | Err e => sat R I Q (handler e)
                    end) p ->
  sat R I Q (try_catch p handler).
Proof.
  intros H. unfold try_catch. apply sat_bind, sat_attempt.
  revert H. apply sat_mono. intros [a|e]; auto.
Qed.

Lemma sat_try_finally {A} (Q : result A -> Prop) (p : prog A) finalizer :
  sat R I (fun r => sat R I (fun c => match c with
                                      | Ok _ => Q r
                                      | Err e => Q (Err e)
                                      end) finalizer) p ->
  sat R I Q (try_finally p finalizer).
Proof.
  intros H. unfold try_finally. apply sat_bind, sat_attempt.
  revert H. apply sat_mono. intros r Hr. apply sat_bind.
  revert Hr. apply sat_mono. intros [[]|e]; [apply sat_complete|exact id].
Qed.

Lemma sat_request (o : op) (Q : result (resp o) -> Prop) :
  I o -> (forall x, R o x -> Q (Ok x)) -> sat R I Q (request o).
Proof. intros Ho HQ. split; assumption. Qed.

Lemma sat_await {A} (Q : result A -> Prop) (o : op) (k : resp o -> result A) :
  I o -> (forall x, R o x -> Q (k x)) -> sat R I Q (await o k).
Proof.
  intros Ho HQ. split; [exact Ho|]. intros x Hx. apply sat_complete, HQ, Hx.
Qed.

(** Sequencing when an error of the first part needs no argument. *)
Lemma sat_seq {A B} (P : A -> Prop) (Q : result B -> Prop) (p : prog A)
    (f : A -> prog B) :
  sat R I (returns P) p ->
  (forall e, Q (Err e)) ->
  (forall a, P a -> sat R I Q (f a)) ->
  sat R I Q (p ≫= f).
Proof.
  intros Hp HQ Hf. apply sat_bind. revert Hp. apply sat_mono.
  intros [a|e]; cbn; auto.
Qed.

Lemma sat_for_of {X S} (Inv : S -> Prop) (Q : result S -> Prop)
    (body : X -> S -> prog S) (l : list X) (s : S) :
  Inv s ->
  (forall x s, Inv s -> sat R I (returns Inv) (body x s)) ->
  (forall e, Q (Err e)) ->
  (forall s, Inv s -> Q (Ok s)) ->
  sat R I Q (for_of body l s).
Proof.
  intros Hs Hbody HQe HQ. revert s Hs.
  induction l as [|x l IH]; intros s Hs; cbn [for_of].
  - apply HQ, Hs.
  - apply (sat_seq Inv); auto.
Qed.

Lemma sat_for_of_break {X S} (Inv : S -> Prop) (Q : result S -> Prop)
    (body : X -> S -> prog (ctl S)) (l : list X) (s : S) :
  Inv s ->
  (forall x s, Inv s ->
     sat R I (returns (fun c => match c with Next s' | Break s' => Inv s' end))
       (body x s)) ->
  (forall e, Q (Err e)) ->
  (forall s, Inv s -> Q (Ok s)) ->
  sat R I Q (for_of_break body l s).
Proof.
  intros Hs Hbody HQe HQ. revert s Hs.
  induction l as [|x l IH]; intros s Hs; cbn [for_of_break].
  - apply HQ, Hs.
  - eapply sat_seq; [apply Hbody, Hs|exact HQe|].
    intros [s'|s'] Hs'; [apply IH, Hs'|apply HQ, Hs'].
Qed.

(** With no condition on the operations, a condition that every
    completion meets holds of every program. *)
Lemma sat_always {A} (Q : result A -> Prop) (p : prog A) :
  (forall o, I o) -> (forall r, Q r) -> sat R I Q p.
Proof.
  intros HI HQ. induction p as [a|e|o k IH]; cbn; auto.
Qed.

(** Soundness: in a run all of whose answers are among those that [R]
    allows, the operations satisfy [I] and the completion satisfies [Q]. *)
Lemma run_sat {W} (handle : forall o : op, W -> W * resp o) {A}
    (Q : result A -> Prop) (p : prog A) :
  sat R I Q p ->
  forall w w' trace r,
    run handle p w = (w', trace, r) ->
    Forall (fun ev => R (ev_op ev) (ev_answer ev)) trace ->
    Forall (fun ev => I (ev_op ev)) trace /\ Q r.
Proof.
  induction p as [a|e|o k IH]; cbn [sat run].
  - intros HQ w w' trace r [= <- <- <-] _. auto.
  - intros HQ w w' trace r [= <- <- <-] _. auto.
  - intros [Ho Hk] w w' trace r.
    destruct (handle o w) as [w1 x].
    destruct (run handle (k x) w1) as [[w2 trace'] r'] eqn:Hrun.
    intros [= <- <- <-] Htrace.
    apply Forall_cons_iff in Htrace as [Hx Htrace]. cbn in Hx.
    destruct (IH x (Hk x Hx) _ _ _ _ Hrun Htrace) as [HI HQ].
    split; [constructor; [exact Ho|exact HI]|exact HQ].
Qed.
End Rules.

(* ------------------------------------------------------------------ *)
(** ** The acquisition loops: identifiers and dates of the posts *)

Lemma push_new_unique posts found :
  unique_ids posts -> unique_ids (push_new posts found).
Proof.
  unfold unique_ids, push_new. intros Hposts.
  destruct found as [d|]; [|exact Hposts].
  destruct (existsb _ posts) eqn:Hex; [exact Hposts|].
  rewrite List.map_app. apply NoDup_app. split; [exact Hposts|].
  split; [|apply NoDup_singleton].
  intros x Hx Hd. apply list_elem_of_singleton in Hd as ->.
  apply list_elem_of_In, in_map_iff in Hx as (q & Hq & Hin).
  assert (existsb (fun p => str_eqb (p_id p) (p_id d)) posts = true) as Habs.
  { apply existsb_exists. exists q. split; [exact Hin|].
    unfold str_eqb. apply bool_decide_eq_true. exact Hq. }
  congruence.
Qed.

Lemma filter_unique (f : Post -> bool) posts :
  unique_ids posts -> unique_ids (List.filter f posts).
Proof.
  unfold unique_ids. induction posts as [|q posts IH]; cbn; [auto|].
  intros Hnd. apply NoDup_cons in Hnd as [Hq Hnd].
  destruct (f q); cbn; [|auto].
  apply NoDup_cons. split; [|auto].
  intros Hin. apply Hq.
  apply list_elem_of_In, in_map_iff in Hin as (q' & Hid & Hq').
  apply list_elem_of_In, in_map_iff. exists q'.
  apply filter_In in Hq'. tauto.
Qed.

Lemma within_all_within host cutoffDate posts :
  all_within host cutoffDate (within host cutoffDate posts).
Proof.
  unfold all_within, within. apply Forall_forall. intros q Hq.
  apply list_elem_of_In, filter_In in Hq. tauto.
Qed.

Section Acquisition.
Context (host : Host) (R : forall o : op, resp o -> Prop).

(** A step whose outcome does not matter. *)
Lemma sat_skip {A B} (Q : result B -> Prop) (p : prog A) (f : A -> prog B) :
  (forall e, Q (Err e)) ->
  (forall a, sat R any_op Q (f a)) ->
  sat R any_op Q (p ≫= f).
Proof.
  intros HQ Hf. apply (sat_seq R any_op (fun _ => True)); auto.
  apply sat_always; [exact (fun _ => Logic.I)|intros []; exact Logic.I].
Qed.

Lemma harvest_unique extract elements posts :
  unique_ids posts ->
  sat R any_op (returns unique_ids) (harvest extract elements posts).
Proof.
  intros Hposts. unfold harvest.
  apply (sat_for_of R any_op unique_ids); auto; [|exact (fun _ => Logic.I)].
  intros el s Hs. apply sat_try_catch, sat_bind, sat_always;
    [exact (fun _ => Logic.I)|].
  intros [found|e]; cbn; [apply push_new_unique|]; exact Hs.
Qed.

Lemma twitter_scrolls_unique p cutoffDate : forall remaining posts,
  unique_ids posts ->
  sat R any_op (returns unique_ids)
    (twitter_scrolls host p cutoffDate remaining posts).
Proof.
  induction remaining as [|n IH]; intros posts Hposts; cbn [twitter_scrolls].
  - exact Hposts.
  - destruct (Nat.ltb _ _); [|exact Hposts].
    apply sat_skip; [exact (fun _ => Logic.I)|]. intros tweets.
    apply (sat_seq R any_op unique_ids);
      [apply harvest_unique, Hposts|exact (fun _ => Logic.I)|].
    intros posts' Hposts'.
    apply sat_skip; [exact (fun _ => Logic.I)|]. intros _.
    apply sat_skip; [exact (fun _ => Logic.I)|]. intros _.
    apply IH, Hposts'.
Qed.

Lemma facebook_scrolls_unique p cutoffDate : forall remaining posts,
  unique_ids posts ->
  sat R any_op (returns unique_ids)
    (facebook_scrolls host p cutoffDate remaining posts).
Proof.
  induction remaining as [|n IH]; intros posts Hposts; cbn [facebook_scrolls].
  - exact Hposts.
  - destruct (Nat.ltb _ _); [|exact Hposts].
    apply sat_skip; [exact (fun _ => Logic.I)|]. intros fbPosts.
    apply (sat_seq R any_op unique_ids);
      [apply harvest_unique, Hposts|exact (fun _ => Logic.I)|].
    intros posts' Hposts'.
    do 4 (apply sat_skip; [exact (fun _ => Logic.I)|]; intros _).
    apply IH, Hposts'.
Qed.

Lemma posts_ok_within timeframe now posts :
  R DateNow now -> unique_ids posts ->
  posts_ok host R timeframe (within host (cutoff_date now timeframe) posts).
Proof.
  intros Hnow Hposts. split; [apply filter_unique, Hposts|].
  exists now. split; [exact Hnow|apply within_all_within].
Qed.

Lemma scrapeTwitterPosts_ok p timeframe :
  sat R any_op (returns (posts_ok host R timeframe))
    (scrapeTwitterPosts host p timeframe).
Proof.
  unfold scrapeTwitterPosts. apply sat_bind, sat_request; [exact Logic.I|].
  intros now Hnow.
  apply sat_skip; [exact (fun _ => Logic.I)|]. intros _.
  apply sat_skip; [exact (fun _ => Logic.I)|]. intros _.
  apply (sat_seq R any_op unique_ids);
    [apply twitter_scrolls_unique, NoDup_nil_2|exact (fun _ => Logic.I)|].
  intros posts Hposts. apply posts_ok_within; assumption.
Qed.

Lemma scrapeFacebookPosts_ok p timeframe :
  sat R any_op (returns (posts_ok host R timeframe))
    (scrapeFacebookPosts host p timeframe).
Proof.
  unfold scrapeFacebookPosts. apply sat_bind, sat_request; [exact Logic.I|].
  intros now Hnow.
  apply sat_skip; [exact (fun _ => Logic.I)|]. intros _.
  apply sat_skip; [exact (fun _ => Logic.I)|]. intros _.
  apply (sat_seq R any_op unique_ids);
    [apply facebook_scrolls_unique, NoDup_nil_2|exact (fun _ => Logic.I)|].
  intros posts Hposts. apply posts_ok_within; assumption.
Qed.

Lemma scrapeTargetProfile_ok p platform targetUser timeframe :
  sat R any_op (returns (posts_ok host R timeframe))
    (scrapeTargetProfile host p platform targetUser timeframe).
Proof.
  unfold scrapeTargetProfile.
  destruct (obj_get scraperConfigs platform) as [config| |];
    [|exact Logic.I|exact Logic.I].
  apply sat_skip; [exact (fun _ => Logic.I)|]. intros _.
  apply sat_skip; [exact (fun _ => Logic.I)|]. intros _.
  destruct (str_eqb platform (u "twitter")); [apply scrapeTwitterPosts_ok|].
  destruct (str_eqb platform (u "facebook")); [apply scrapeFacebookPosts_ok|].
  exact Logic.I.
Qed.

(** The [catch] clause never completes normally. *)
Lemma scrape_catch_throws (I : op -> Prop) {P : ScrapeResult -> Prop} a error :
  sat R I (returns P) (scrape_catch host a error).
Proof.
  unfold scrape_catch.
  destruct (includes _ _ || includes _ _); exact Logic.I.
Qed.

Lemma scrape_session_ok a b :
  sat R any_op
    (returns (fun res =>
       posts_ok host R (default (u "7d") (a_timeframe a)) (d_posts (data res))))
    (scrape_session host a b).
Proof.
  unfold scrape_session.
  apply sat_skip; [exact (fun _ => Logic.I)|]. intros p.
  apply sat_skip; [exact (fun _ => Logic.I)|]. intros isLoggedIn.
  apply sat_skip; [exact (fun _ => Logic.I)|]. intros _.
  eapply sat_seq;
    [apply scrapeTargetProfile_ok|exact (fun _ => Logic.I)|].
  intros posts Hposts.
  apply sat_skip; [exact (fun _ => Logic.I)|]. intros now. exact Hposts.
Qed.

Lemma sat_try_finally_returns (I : op -> Prop) {A} (P : A -> Prop) (p : prog A)
    finalizer :
  sat R I (returns P) p ->
  sat R I any_result finalizer ->
  sat R I (returns P) (try_finally p finalizer).
Proof.
  intros Hp Hf. apply sat_try_finally. revert Hp. apply sat_mono.
  intros r Hr. revert Hf. apply sat_mono. intros [c|e] _; [exact Hr|exact Logic.I].
Qed.

Lemma scrapeWithCredentials_ok a :
  sat R any_op
    (returns (fun res =>
       posts_ok host R (default (u "7d") (a_timeframe a)) (d_posts (data res))))
    (scrapeWithCredentials host a).
Proof.
  unfold scrapeWithCredentials.
  assert (forall q : prog unit, sat R any_op any_result q) as Hany.
  { intros q. apply sat_always; [exact (fun _ => Logic.I)|exact (fun _ => Logic.I)]. }
  set (Q := returns _).
  assert (sat R any_op Q
            (launched ← attempt (await (FsEnsureDir (sessionDir host)) id;;
                                 launchStealthBrowser host (userDataDir host a));
             match launched with
             | Err error =>
                 try_finally (scrape_catch host a error) (scrape_finally host None)
             | Ok b =>
                 try_finally (try_catch (scrape_session host a b) (scrape_catch host a))
                   (scrape_finally host (Some b))
             end)) as Hmain.
  { apply sat_skip; [exact (fun _ => Logic.I)|]. intros [b|error].
    - apply sat_try_finally_returns; [|apply Hany].
      apply sat_try_catch. generalize (scrape_session_ok a b).
      apply sat_mono. intros [res|e] H; [exact H|apply scrape_catch_throws].
    - apply sat_try_finally_returns; [|apply Hany]. apply scrape_catch_throws. }
  destruct (obj_get scraperConfigs (a_platform a)); [exact Hmain|exact Hmain|].
  exact Logic.I.
Qed.
End Acquisition.

Lemma clock_fromb_spec t0 trace :
  forallb (clock_fromb t0) trace = true ->
  Forall (fun ev => clock_from t0 (ev_op ev) (ev_answer ev)) trace.
Proof.
  intros H. apply Forall_forall. intros ev Hin.
  apply list_elem_of_In in Hin.
  pose proof (proj1 (forallb_forall _ _) H ev Hin) as Hev.
  destruct ev as [o x]. destruct o; cbn in *; try exact Logic.I.
  apply Z.leb_le, Hev.
Qed.

Lemma all_within_cutoff host t0 now timeframe posts :
  (t0 <= now)%Z ->
  all_within host (cutoff_date now timeframe) posts ->
  Forall (fun post => exists t d,
            new_Date host (p_date post) = Some t
            /\ parseTimeframe timeframe = VNumber d
            /\ (t0 - d <= t)%Z) posts.
Proof.
  intros Hnow Hall. eapply Forall_impl; [exact Hall|]. cbn beta.
  intros post Hge.
  unfold date_ge in Hge.
  destruct (new_Date host (p_date post)) as [t|]; [|discriminate].
  destruct (cutoff_date now timeframe) as [c|] eqn:Hc; [|discriminate].
  apply Z.leb_le in Hge. unfold cutoff_date in Hc.
  destruct (parseTimeframe timeframe) as [|d|]; try discriminate.
  cbn [js_minus time_clip] in Hc.
  destruct (Z.abs (now - d) <=? max_time)%Z; [|discriminate].
  injection Hc as <-. exists t, d. repeat split. lia.
Qed.

(** C1: in a run of [scrapeWithCredentials] during which the clock never
    reads less than it did at the call, [t0], the date of every post of
    the returned result is an instant that is not before [t0] minus the
    duration of the requested timeframe. *)
Theorem scrape_posts_within_timeframe host {W}
    (handle : forall o : op, W -> W * resp o) a w t0 res :
  Forall (fun ev => clock_from t0 (ev_op ev) (ev_answer ev))
    (run handle (scrapeWithCredentials host a) w).1.2 ->
  (run handle (scrapeWithCredentials host a) w).2 = Ok res ->
  Forall (fun post => exists t d,
            new_Date host (p_date post) = Some t
            /\ parseTimeframe (default (u "7d") (a_timeframe a)) = VNumber d
            /\ (t0 - d <= t)%Z)
    (d_posts (data res)).
Proof.
  destruct (run handle (scrapeWithCredentials host a) w) as [[w' trace] r] eqn:Hrun.
  cbn [fst snd]. intros Hclock ->.
  destruct (run_sat _ _ handle _ _ (scrapeWithCredentials_ok host (clock_from t0) a)
              _ _ _ _ Hrun Hclock) as [_ (_ & now & Hnow & Hposts)].
  eapply all_within_cutoff; [exact Hnow|exact Hposts].
Qed.

Lemma scrape_posts_within_timeframe_witness :
  exists res,
    (run Sim.handle (scrapeWithCredentials (Sim.host true) demo_args) demo_world).2
    = Ok res
    /\ length (d_posts (data res)) = 2%nat
    /\ Forall (fun post => exists t d,
                 new_Date (Sim.host true) (p_date post) = Some t
                 /\ parseTimeframe (default (u "7d") (a_timeframe demo_args))
                    = VNumber d
                 /\ (demo_clock - d <= t)%Z)
         (d_posts (data res)).
Proof.
  eexists. split; [vm_compute; reflexivity|]. split; [reflexivity|].
  apply (scrape_posts_within_timeframe (Sim.host true) Sim.handle demo_args
           demo_world demo_clock).
  - apply clock_fromb_spec. vm_compute. reflexivity.
  - vm_compute. reflexivity.
Defined.

(** The same holds of both acquisition loops when they are entered
    through [scrapeTargetProfile], on any platform. *)
Lemma scrapeTargetProfile_within_timeframe host {W}
    (handle : forall o : op, W -> W * resp o) p platform targetUser timeframe
    w t0 posts :
  Forall (fun ev => clock_from t0 (ev_op ev) (ev_answer ev))
    (run handle (scrapeTargetProfile host p platform targetUser timeframe) w).1.2 ->
  (run handle (scrapeTargetProfile host p platform targetUser timeframe) w).2
  = Ok posts ->
  unique_ids posts
  /\ Forall (fun post => exists t d,
               new_Date host (p_date post) = Some t
               /\ parseTimeframe timeframe = VNumber d
               /\ (t0 - d <= t)%Z) posts.
Proof.
  destruct (run handle _ w) as [[w' trace] r] eqn:Hrun.
  cbn [fst snd]. intros Hclock ->.
  destruct (run_sat _ _ handle _ _
              (scrapeTargetProfile_ok host (clock_from t0) p platform targetUser
                 timeframe)
              _ _ _ _ Hrun Hclock) as [_ (Hu & now & Hnow & Hposts)].
  split; [exact Hu|]. eapply all_within_cutoff; [exact Hnow|exact Hposts].
Qed.

(** C2: in the result that a run of [scrapeWithCredentials] returns, the
    posts at two different positions have different identifiers. *)
Theorem scrape_post_ids_unique host {W}
    (handle : forall o : op, W -> W * resp o) a w res :
  (run handle (scrapeWithCredentials host a) w).2 = Ok res ->
  forall (i j : nat) (pi pj : Post),
    i <> j ->
    d_posts (data res) !! i = Some pi ->
    d_posts (data res) !! j = Some pj ->
    p_id pi <> p_id pj.
Proof.
  destruct (run handle (scrapeWithCredentials host a) w) as [[w' trace] r] eqn:Hrun.
  cbn [fst snd]. intros ->.
  assert (Forall (fun ev => any_answer (ev_op ev) (ev_answer ev)) trace) as Hany
    by (apply Forall_forall; intros; exact Logic.I).
  destruct (run_sat _ _ handle _ _ (scrapeWithCredentials_ok host any_answer a)
              _ _ _ _ Hrun Hany) as [_ [Hu _]].
  intros i j pi pj Hij Hi Hj Hid. apply Hij.
  apply (proj1 (NoDup_alt _) Hu i j (p_id pi)).
  - rewrite list_lookup_fmap, Hi. reflexivity.
  - rewrite list_lookup_fmap, Hj, Hid. reflexivity.
Qed.

Lemma scrape_post_ids_unique_witness :
  exists res pi pj,
    (run Sim.handle (scrapeWithCredentials (Sim.host true) demo_args) demo_world).2
    = Ok res
    /\ d_posts (data res) !! 0%nat = Some pi
    /\ d_posts (data res) !! 1%nat = Some pj
    /\ p_id pi <> p_id pj.
Proof.
  eexists _, _, _. split; [vm_compute; reflexivity|].
  split; [reflexivity|]. split; [reflexivity|].
  apply (scrape_post_ids_unique (Sim.host true) Sim.handle demo_args demo_world
           _ ltac:(vm_compute; reflexivity) 0%nat 1%nat);
    [discriminate|reflexivity|reflexivity].
Defined.

(* ------------------------------------------------------------------ *)
(** ** The kinds of operation that the methods request *)

Section Uses.
Context (R : forall o : op, resp o -> Prop) (allowed : op_class -> bool).

Lemma uses_bind {A B} (p : prog A) (f : A -> prog B) :
  uses R allowed p -> (forall a, uses R allowed (f a)) ->
  uses R allowed (p ≫= f).
Proof.
  intros Hp Hf. apply sat_bind. revert Hp. apply sat_mono.
  intros [a|e] _; [apply Hf|exact Logic.I].
Qed.

Lemma uses_attempt {A} (p : prog A) :
  uses R allowed p -> uses R allowed (attempt p).
Proof. intros Hp. apply sat_attempt. revert Hp. apply sat_mono. auto. Qed.

Lemma uses_try_catch {A} (p : prog A) handler :
  uses R allowed p -> (forall e, uses R allowed (handler e)) ->
  uses R allowed (try_catch p handler).
Proof.
  intros Hp Hh. apply sat_try_catch. revert Hp. apply sat_mono.
  intros [a|e] _; [exact Logic.I|apply Hh].
Qed.

Lemma uses_try_finally {A} (p : prog A) finalizer :
  uses R allowed p -> uses R allowed finalizer ->
  uses R allowed (try_finally p finalizer).
Proof.
  intros Hp Hf. apply sat_try_finally. revert Hp. apply sat_mono.
  intros r _. revert Hf. apply sat_mono. intros [c|e] _; exact Logic.I.
Qed.

Lemma uses_await {A} (o : op) (k : resp o -> result A) :
  permits allowed o -> uses R allowed (await o k).
Proof. intros Ho. apply sat_await; [exact Ho|]. intros; exact Logic.I. Qed.

Lemma uses_request (o : op) : permits allowed o -> uses R allowed (request o).
Proof. intros Ho. apply sat_request; [exact Ho|]. intros; exact Logic.I. Qed.

Lemma uses_for_of {X S} (body : X -> S -> prog S) (l : list X) (s : S) :
  (forall x s, uses R allowed (body x s)) -> uses R allowed (for_of body l s).
Proof.
  intros Hbody.
  apply (sat_for_of R (permits allowed) (fun _ => True)); auto;
    try (intros; exact Logic.I).
  intros x s' _. generalize (Hbody x s'). apply sat_mono.
  intros [a|e] _; exact Logic.I.
Qed.

Lemma uses_for_of_break {X S} (body : X -> S -> prog (ctl S)) (l : list X)
    (s : S) :
  (forall x s, uses R allowed (body x s)) ->
  uses R allowed (for_of_break body l s).
Proof.
  intros Hbody.
  apply (sat_for_of_break R (permits allowed) (fun _ => True)); auto;
    try (intros; exact Logic.I).
  intros x s' _. generalize (Hbody x s'). apply sat_mono.
  intros [[a|a]|e] _; exact Logic.I.
Qed.

(** Sequencing after a part of which only the operations matter. *)
Lemma uses_seq {A B} (Q : result B -> Prop) (p : prog A) (f : A -> prog B) :
  uses R allowed p ->
  (forall e, Q (Err e)) ->
  (forall a, sat R (permits allowed) Q (f a)) ->
  sat R (permits allowed) Q (p ≫= f).
Proof.
  intros Hp HQ Hf. apply sat_bind. revert Hp. apply sat_mono.
  intros [a|e] _; [apply Hf|apply HQ].
Qed.
End Uses.

(** One step of a proof that a method requests admitted operations only:
    a rule of the logic by the shape of the program, or a method already
    dealt with. *)
Ltac uses_step :=
  match goal with
  | |- uses _ _ (Ret _) => exact Logic.I
  | |- uses _ _ (Throw _) => exact Logic.I
  | |- uses _ _ (await _ _) => apply uses_await; unfold permits; cbn; assumption
  | |- uses _ _ (request _) => apply uses_request; unfold permits; cbn; assumption
  | |- uses _ _ (try_catch _ _) => apply uses_try_catch; [|intros ?]
  | |- uses _ _ (try_finally _ _) => apply uses_try_finally
  | |- uses _ _ (attempt _) => apply uses_attempt
  | |- uses _ _ (for_of _ _ _) => apply uses_for_of; intros ? ?
  | |- uses _ _ (for_of_break _ _ _) => apply uses_for_of_break; intros ? ?
  | |- uses _ _ (mbind _ _) => apply uses_bind; [|intros ?]
  | |- uses _ _ (match ?x with _ => _ end) => destruct x
  | |- uses _ _ _ => solve [auto with uses]
  end.

Ltac uses_all := repeat uses_step.

Create HintDb uses.

Section Methods.
Context (host : Host) (R : forall o : op, resp o -> Prop)
        (allowed : op_class -> bool).
Context (Hother : allowed COther = true).

Lemma randomBetween_uses min max : uses R allowed (randomBetween min max).
Proof. unfold randomBetween. uses_all. Qed.
#[local] Hint Resolve randomBetween_uses : uses.

Lemma randomDelay_uses min max : uses R allowed (randomDelay min max).
Proof. unfold randomDelay. uses_all. Qed.
#[local] Hint Resolve randomDelay_uses : uses.

Lemma createStealthPage_uses b : uses R allowed (createStealthPage b).
Proof. unfold createStealthPage. uses_all. Qed.
#[local] Hint Resolve createStealthPage_uses : uses.

Lemma checkExistingSession_uses p platform :
  uses R allowed (checkExistingSession p platform).
Proof. unfold checkExistingSession. uses_all. Qed.
#[local] Hint Resolve checkExistingSession_uses : uses.

Lemma waitForSelector_uses p selector timeout :
  uses R allowed (waitForSelector p selector timeout).
Proof. unfold waitForSelector. uses_all. Qed.
#[local] Hint Resolve waitForSelector_uses : uses.

Lemma checkLoginSuccess_uses p platform :
  uses R allowed (checkLoginSuccess p platform).
Proof. unfold checkLoginSuccess. uses_all. Qed.
#[local] Hint Resolve checkLoginSuccess_uses : uses.

Lemma handlePlatformSpecificPopups_uses p platform :
  uses R allowed (handlePlatformSpecificPopups p platform).
Proof. unfold handlePlatformSpecificPopups. uses_all. Qed.
#[local] Hint Resolve handlePlatformSpecificPopups_uses : uses.

Lemma extractTwitterStats_uses p el : uses R allowed (extractTwitterStats p el).
Proof. unfold extractTwitterStats. uses_all. Qed.
#[local] Hint Resolve extractTwitterStats_uses : uses.

Lemma make_post_uses platform author text postDate postUrl stats :
  uses R allowed (make_post host platform author text postDate postUrl stats).
Proof. unfold make_post, date_toISOString. uses_all. Qed.
#[local] Hint Resolve make_post_uses : uses.

Lemma extractTwitterPostData_uses p el cutoffDate :
  uses R allowed (extractTwitterPostData host p el cutoffDate).
Proof. unfold extractTwitterPostData. uses_all. Qed.
#[local] Hint Resolve extractTwitterPostData_uses : uses.

Lemma first_text_uses p el selectors : uses R allowed (first_text p el selectors).
Proof. unfold first_text. uses_all. Qed.
#[local] Hint Resolve first_text_uses : uses.

Lemma facebook_date_uses p el selectors :
  uses R allowed (facebook_date host p el selectors).
Proof. unfold facebook_date. uses_all. Qed.
#[local] Hint Resolve facebook_date_uses : uses.

Lemma extractFacebookStats_uses p el : uses R allowed (extractFacebookStats p el).
Proof. unfold extractFacebookStats. uses_all. Qed.
#[local] Hint Resolve extractFacebookStats_uses : uses.

Lemma extractFacebookPostData_uses p el cutoffDate :
  uses R allowed (extractFacebookPostData host p el cutoffDate).
Proof. unfold extractFacebookPostData. uses_all. Qed.
#[local] Hint Resolve extractFacebookPostData_uses : uses.

Lemma harvest_uses extract elements posts :
  (forall el, uses R allowed (extract el)) ->
  uses R allowed (harvest extract elements posts).
Proof. intros Hextract. unfold harvest. uses_all. Qed.

Lemma twitter_scrolls_uses p cutoffDate : forall remaining posts,
  uses R allowed (twitter_scrolls host p cutoffDate remaining posts).
Proof.
  induction remaining as [|n IH]; intros posts; cbn [twitter_scrolls].
  - exact Logic.I.
  - destruct (Nat.ltb _ _); [|exact Logic.I].
    uses_step; [uses_step|].
    uses_step; [apply harvest_uses; auto with uses|].
    uses_step; [uses_step|]. uses_step; [uses_step|]. apply IH.
Qed.
#[local] Hint Resolve twitter_scrolls_uses : uses.

Lemma facebook_scrolls_uses p cutoffDate : forall remaining posts,
  uses R allowed (facebook_scrolls host p cutoffDate remaining posts).
Proof.
  induction remaining as [|n IH]; intros posts; cbn [facebook_scrolls].
  - exact Logic.I.
  - destruct (Nat.ltb _ _); [|exact Logic.I].
    uses_step; [uses_step|].
    uses_step; [apply harvest_uses; auto with uses|].
    do 4 (uses_step; [uses_step|]). apply IH.
Qed.
#[local] Hint Resolve facebook_scrolls_uses : uses.

Lemma scrapeTwitterPosts_uses p timeframe :
  uses R allowed (scrapeTwitterPosts host p timeframe).
Proof. unfold scrapeTwitterPosts. uses_all. Qed.
#[local] Hint Resolve scrapeTwitterPosts_uses : uses.

Lemma scrapeFacebookPosts_uses p timeframe :
  uses R allowed (scrapeFacebookPosts host p timeframe).
Proof. unfold scrapeFacebookPosts. uses_all. Qed.
#[local] Hint Resolve scrapeFacebookPosts_uses : uses.

Lemma scrapeTargetProfile_uses p platform targetUser timeframe :
  uses R allowed (scrapeTargetProfile host p platform targetUser timeframe).
Proof. unfold scrapeTargetProfile. uses_all. Qed.
End Methods.

Section Login.
Context (host : Host) (R : forall o : op, resp o -> Prop)
        (allowed : op_class -> bool).
Context (Hother : allowed COther = true)
        (Hcredential : allowed CCredential = true)
        (Hwrite : allowed CWrite = true)
        (Hlaunch : allowed CLaunch = true)
        (Hclose : allowed CClose = true).

#[local] Hint Resolve randomBetween_uses randomDelay_uses createStealthPage_uses
  checkExistingSession_uses waitForSelector_uses checkLoginSuccess_uses
  handlePlatformSpecificPopups_uses scrapeTargetProfile_uses : uses.

Lemma humanLikeTyping_uses p selector text :
  uses R allowed (humanLikeTyping p selector text).
Proof. unfold humanLikeTyping. uses_all. Qed.
#[local] Hint Resolve humanLikeTyping_uses : uses.

Lemma humanLikeClick_uses p selector :
  uses R allowed (humanLikeClick p selector).
Proof. unfold humanLikeClick. uses_all. Qed.
#[local] Hint Resolve humanLikeClick_uses : uses.

Lemma performLoginSteps_uses p platform email password :
  uses R allowed (performLoginSteps p platform email password).
Proof. unfold performLoginSteps. uses_all. Qed.
#[local] Hint Resolve performLoginSteps_uses : uses.

Lemma handle2FAPrompt_uses p platform :
  uses R allowed (handle2FAPrompt host p platform).
Proof. unfold handle2FAPrompt. uses_all. Qed.
#[local] Hint Resolve handle2FAPrompt_uses : uses.

Lemma handlePostLoginFlow_uses p platform :
  uses R allowed (handlePostLoginFlow host p platform).
Proof. unfold handlePostLoginFlow, race. uses_all. Qed.
#[local] Hint Resolve handlePostLoginFlow_uses : uses.

Lemma login_url_uses platform : uses R allowed (login_url platform).
Proof. unfold login_url. uses_all. Qed.
#[local] Hint Resolve login_url_uses : uses.

Lemma performStealthLogin_uses p platform email password :
  uses R allowed (performStealthLogin host p platform email password).
Proof. unfold performStealthLogin. uses_all. Qed.
#[local] Hint Resolve performStealthLogin_uses : uses.

Lemma saveSessionState_uses userDataDir sessionData :
  uses R allowed (saveSessionState host userDataDir sessionData).
Proof. unfold saveSessionState. uses_all. Qed.
#[local] Hint Resolve saveSessionState_uses : uses.

Lemma scrape_session_uses a b : uses R allowed (scrape_session host a b).
Proof. unfold scrape_session. uses_all. Qed.

Lemma scrape_finally_uses b : uses R allowed (scrape_finally host b).
Proof. unfold scrape_finally. uses_all. Qed.

Lemma scrape_catch_uses a error : uses R allowed (scrape_catch host a error).
Proof.
  unfold scrape_catch. destruct (includes _ _ || includes _ _); exact Logic.I.
Qed.

(** Whatever is admitted besides, [scrapeWithCredentials] stays within the
    admitted kinds: none of them is a deletion. *)
Lemma scrapeWithCredentials_uses a :
  uses R allowed (scrapeWithCredentials host a).
Proof.
  pose proof scrape_session_uses. pose proof scrape_finally_uses.
  pose proof scrape_catch_uses.
  unfold scrapeWithCredentials, launchStealthBrowser.
  destruct (obj_get scraperConfigs (a_platform a)); uses_all; auto.
Qed.
End Login.

(** In no run does [scrapeWithCredentials] ask for anything to be deleted:
    [cleanSession] is never reached. *)
Lemma scrapeWithCredentials_never_removes host {W}
    (handle : forall o : op, W -> W * resp o) a w :
  Forall (fun ev => is_class CRemove (ev_op ev) = false)
    (run handle (scrapeWithCredentials host a) w).1.2.
Proof.
  destruct (run handle (scrapeWithCredentials host a) w) as [[w' trace] r] eqn:Hrun.
  cbn [fst snd].
  assert (Forall (fun ev => any_answer (ev_op ev) (ev_answer ev)) trace) as Hany
    by (apply Forall_forall; intros; exact Logic.I).
  destruct (run_sat _ _ handle _ _
              (scrapeWithCredentials_uses host any_answer (all_but CRemove)
                 eq_refl eq_refl eq_refl eq_refl eq_refl a)
              _ _ _ _ Hrun Hany) as [Hops _].
  eapply Forall_impl; [exact Hops|]. cbn beta. intros [o x]. cbn [ev_op].
  unfold permits, is_class. destruct (classify o); cbn; congruence.
Qed.

(* ------------------------------------------------------------------ *)
(** ** testCredentials *)





Example testCredentials_accepted :
  (run Sim.handle (testCredentials (Sim.host true) demo_test_args) demo_world).2
  = Ok {| loginSuccessful := true; requires2FA := false; sessionSaved := true |}.
Proof. vm_compute. reflexivity. Qed.

Example testCredentials_unsupported_platform :
  (run Sim.handle
     (testCredentials (Sim.host true)
        {| t_email := u "hello@example.com"; t_password := u "secret";
           t_platform := u "myspace"; t_sessionId := None |})
     demo_world).2
  = Ok {| loginSuccessful := false; requires2FA := false; sessionSaved := false |}.
Proof. vm_compute. reflexivity. Qed.

(* ------------------------------------------------------------------ *)
(** ** Failed authentication and the session directory *)

Lemma existsb_In (d : jsstring) dirs :
  existsb (str_eqb d) dirs = true -> In d dirs.
Proof.
  intros H. apply existsb_exists in H as (d' & Hin & Heq).
  unfold str_eqb in Heq. apply bool_decide_eq_true in Heq as ->. exact Hin.
Qed.

(** None of the errors that the login of the service raises by itself
    has a message that the [catch] clause of [scrapeWithCredentials]
    recognises. *)
Example own_login_errors_not_recognised :
  List.map (fun msg =>
              includes (u "login") (u "Login verification failed: " ++ u msg)
              || includes (u "authentication")
                   (u "Login verification failed: " ++ u msg))
    ["2FA required but running in production mode - manual intervention needed";
     "2FA timeout - please complete verification within 2 minutes";
     "Additional verification required - please complete manually"]%string
  = [false; false; false].
Proof. vm_compute. reflexivity. Qed.

(** C6, at two inputs where the code departs from it, in production mode.
    Against a site that asks for a code after the password the call fails
    with the service's own verification error, whose message does not
    contain the words that the [catch] clause looks for; against a site
    whose login page cannot be reached it fails on the way to
    [cleanSession], with the reference error for [userDataDir].  In both
    runs nothing is deleted and the session directory is still there when
    the error surfaces. *)
Theorem scrapeWithCredentials_auth_failure_keeps_session :
  let dir := userDataDir (Sim.host true) demo_args in
  let call := scrapeWithCredentials (Sim.host true) demo_args in
  let code_asked := run Sim.handle call (Sim.world site_with_2fa demo_clock) in
  let no_login_page := run Sim.handle call (Sim.world site_unreachable demo_clock) in
  (code_asked.2
   = Err (mkError (u "Login verification failed: 2FA required but running in production mode - manual intervention needed"))
   /\ In dir (Sim.w_dirs code_asked.1.1)
   /\ Forall (fun ev => is_class CRemove (ev_op ev) = false) code_asked.1.2)
  /\ (no_login_page.2 = Err (ReferenceError (u "userDataDir is not defined"))
      /\ In dir (Sim.w_dirs no_login_page.1.1)
      /\ Forall (fun ev => is_class CRemove (ev_op ev) = false) no_login_page.1.2).
Proof.
  cbv zeta. split; (split; [vm_compute; reflexivity|]);
    (split; [apply existsb_In; vm_compute; reflexivity
            |apply scrapeWithCredentials_never_removes]).
Qed.

(* ------------------------------------------------------------------ *)
(** ** Session reuse *)

Lemma session_validb_spec platform trace :
  forallb (session_validb platform) trace = true ->
  Forall (fun ev => session_valid platform (ev_op ev) (ev_answer ev)) trace.
Proof.
  intros H. apply Forall_forall. intros ev Hin.
  apply list_elem_of_In in Hin.
  pose proof (proj1 (forallb_forall _ _) H ev Hin) as Hev.
  destruct ev as [o x]. destruct o; cbn in *; try exact Logic.I.
  - intros ->. rewrite bool_decide_eq_true_2 in Hev by reflexivity.
    destruct x as [[]|e]; [reflexivity|discriminate].
  - intros ->. rewrite bool_decide_eq_true_2 in Hev by reflexivity.
    destruct x as [[el|]|e]; try discriminate. eauto.
Qed.

Section Reuse.
Context (host : Host).

(** With a valid session the check answers yes. *)
Lemma checkExistingSession_valid p platform :
  sat (session_valid platform) (permits (all_but CCredential)) (fun r => r = Ok true)
    (checkExistingSession p platform).
Proof.
  unfold checkExistingSession. apply sat_try_catch, sat_bind, sat_await;
    [reflexivity|].
  intros x Hx. rewrite (Hx eq_refl). cbn [id].
  apply sat_bind, sat_request; [reflexivity|]. intros [] _.
  apply sat_bind, sat_await; [reflexivity|].
  intros y Hy. destruct (Hy eq_refl) as [el ->]. reflexivity.
Qed.

Lemma scrape_session_reuse a b :
  sat (session_valid (a_platform a)) (permits (all_but CCredential))
    (returns (fun res => d_sessionUsed (data res) = true))
    (scrape_session host a b).
Proof.
  unfold scrape_session.
  apply uses_seq;
    [apply createStealthPage_uses; reflexivity|exact (fun _ => Logic.I)|].
  intros p. apply sat_bind.
  generalize (checkExistingSession_valid p (a_platform a)). apply sat_mono.
  intros r ->. cbn iota.
  apply uses_seq; [exact Logic.I|exact (fun _ => Logic.I)|]. intros _.
  apply uses_seq;
    [apply scrapeTargetProfile_uses; reflexivity|exact (fun _ => Logic.I)|].
  intros posts.
  apply uses_seq; [apply uses_request; reflexivity|exact (fun _ => Logic.I)|].
  intros now. reflexivity.
Qed.

Lemma scrapeWithCredentials_reuse a :
  sat (session_valid (a_platform a)) (permits (all_but CCredential))
    (returns (fun res => d_sessionUsed (data res) = true))
    (scrapeWithCredentials host a).
Proof.
  unfold scrapeWithCredentials.
  set (Q := returns _).
  assert (sat (session_valid (a_platform a)) (permits (all_but CCredential)) Q
            (launched ← attempt (await (FsEnsureDir (sessionDir host)) id;;
                                 launchStealthBrowser host (userDataDir host a));
             match launched with
             | Err error =>
                 try_finally (scrape_catch host a error) (scrape_finally host None)
             | Ok b =>
                 try_finally (try_catch (scrape_session host a b) (scrape_catch host a))
                   (scrape_finally host (Some b))
             end)) as Hmain.
  { apply uses_seq; [|exact (fun _ => Logic.I)|].
    { apply uses_attempt, uses_bind; [|intros _]; apply uses_await; reflexivity. }
    intros [b|error].
    - apply sat_try_finally_returns;
        [|apply scrape_finally_uses; reflexivity].
      apply sat_try_catch. generalize (scrape_session_reuse a b).
      apply sat_mono. intros [res|e] H; [exact H|apply scrape_catch_throws].
    - apply sat_try_finally_returns; [|exact Logic.I]. apply scrape_catch_throws. }
  destruct (obj_get scraperConfigs (a_platform a)); [exact Hmain|exact Hmain|].
  exact Logic.I.
Qed.
End Reuse.

(** C8: in a run of [scrapeWithCredentials] that finds the persisted
    session of the platform valid -- the home page loads and shows the
    logged-in marker -- no operation of filling in and submitting the login
    form is requested, and a result that is returned has [sessionUsed] set
    (the field that the route reports as [sessionReused]). *)
Theorem session_reuse_skips_login host {W}
    (handle : forall o : op, W -> W * resp o) a w :
  Forall (fun ev => session_valid (a_platform a) (ev_op ev) (ev_answer ev))
    (run handle (scrapeWithCredentials host a) w).1.2 ->
  Forall (fun ev => is_class CCredential (ev_op ev) = false)
    (run handle (scrapeWithCredentials host a) w).1.2
  /\ forall res,
       (run handle (scrapeWithCredentials host a) w).2 = Ok res ->
       d_sessionUsed (data res) = true.
Proof.
  destruct (run handle (scrapeWithCredentials host a) w) as [[w' trace] r] eqn:Hrun.
  cbn [fst snd]. intros Hvalid.
  destruct (run_sat _ _ handle _ _
              (scrapeWithCredentials_reuse host a)
              _ _ _ _ Hrun Hvalid) as [Hops Hres].
  split.
  - eapply Forall_impl; [exact Hops|]. cbn beta. intros [o x]. cbn [ev_op].
    unfold permits, is_class. destruct (classify o); cbn; congruence.
  - intros res ->. exact Hres.
Qed.

(** The statement at the second of two calls of the demonstration: the
    first logs in, the second finds the session that the first left. *)
Lemma session_reuse_skips_login_witness :
  let first := run Sim.handle (scrapeWithCredentials (Sim.host true) demo_args)
                 demo_world in
  let second := run Sim.handle (scrapeWithCredentials (Sim.host true) demo_args)
                  first.1.1 in
  (exists res, first.2 = Ok res /\ d_sessionUsed (data res) = false)
  /\ (exists res, second.2 = Ok res /\ d_sessionUsed (data res) = true)
  /\ Forall (fun ev => is_class CCredential (ev_op ev) = false) second.1.2
  /\ forall res, second.2 = Ok res -> d_sessionUsed (data res) = true.
Proof.
  cbv zeta.
  split; [eexists; split; [vm_compute; reflexivity|reflexivity]|].
  split; [eexists; split; [vm_compute; reflexivity|reflexivity]|].
  apply (session_reuse_skips_login (Sim.host true) Sim.handle demo_args).
  apply session_validb_spec. vm_compute. reflexivity.
Defined.

(* ------------------------------------------------------------------ *)
(** ** Two calls for the same profile location *)

(** C9 as it is stated fails: with two calls for the same account in
    flight, at the point where each has taken its first two steps two
    browsers are open on the same profile location. *)
Lemma concurrent_calls_not_exclusive :
  ~ (forall schedule,
       profile_exclusive
         (interleave Sim.handle schedule
            (scrapeWithCredentials (Sim.host true) demo_args)
            (scrapeWithCredentials (Sim.host true) demo_args)
            demo_world).1.1.1).
Proof.
  intros H. specialize (H [true; true; false; false]).
  unfold profile_exclusive in H. vm_compute in H.
  apply NoDup_cons in H as [Hnotin _]. apply Hnotin. left.
Qed.

(** C9, amended: [scrapeWithCredentials] takes no lock.  For two calls
    that resolve to the same profile location, on a driver that creates
    the sessions directory and grants every launch, the schedule that
    lets the first call take two steps and then the second call take two
    steps has both calls launch a browser on that location, the second
    while the first is still running: the second call neither waits nor
    fails. *)
Theorem concurrent_calls_both_launch host {W}
    (handle : forall o : op, W -> W * resp o) a1 a2 w :
  configured (a_platform a1) ->
  configured (a_platform a2) ->
  userDataDir host a1 = userDataDir host a2 ->
  (forall d w, (handle (FsEnsureDir d) w).2 = Ok ()) ->
  (forall d headless w, exists b, (handle (Launch d headless) w).2 = Ok b) ->
  exists b1 b2,
    (interleave handle [true; true; false; false]
       (scrapeWithCredentials host a1) (scrapeWithCredentials host a2) w).1.1.2
    = [(true, Event (FsEnsureDir (sessionDir host)) (Ok ()));
       (true, Event (Launch (userDataDir host a1) (production host)) (Ok b1));
       (false, Event (FsEnsureDir (sessionDir host)) (Ok ()));
       (false, Event (Launch (userDataDir host a1) (production host)) (Ok b2))]
    /\ running (interleave handle [true; true; false; false]
                  (scrapeWithCredentials host a1)
                  (scrapeWithCredentials host a2) w).1.2
    /\ running (interleave handle [true; true; false; false]
                  (scrapeWithCredentials host a1)
                  (scrapeWithCredentials host a2) w).2.
Proof.
  intros H1 H2 Hdir Hmk Hlaunch.
  assert (forall a, configured (a_platform a) ->
            scrapeWithCredentials host a
            = Vis (FsEnsureDir (sessionDir host))
                (fun x =>
                   launched ← attempt (complete x;;
                                       launchStealthBrowser host (userDataDir host a));
                   match launched with
                   | Err error =>
                       try_finally (scrape_catch host a error)
                         (scrape_finally host None)
                   | Ok b =>
                       try_finally
                         (try_catch (scrape_session host a b) (scrape_catch host a))
                         (scrape_finally host (Some b))
                   end)) as Hshape.
  { intros a Ha. unfold scrapeWithCredentials, configured in *.
    destruct (obj_get scraperConfigs (a_platform a)); [reflexivity|reflexivity|].
    destruct Ha. }
  rewrite (Hshape a1 H1), (Hshape a2 H2), <- Hdir.
  cbn [interleave step].
  pose proof (Hmk (sessionDir host) w) as E1.
  destruct (handle (FsEnsureDir (sessionDir host)) w) as [w1 x1].
  cbn [snd] in E1. subst x1.
  cbn -[scrape_session scrape_catch scrape_finally].
  destruct (Hlaunch (userDataDir host a1) (production host) w1) as [b1 E2].
  destruct (handle (Launch (userDataDir host a1) (production host)) w1) as [w2 x2].
  cbn [snd] in E2. subst x2.
  cbn -[scrape_session scrape_catch scrape_finally].
  pose proof (Hmk (sessionDir host) w2) as E3.
  destruct (handle (FsEnsureDir (sessionDir host)) w2) as [w3 x3].
  cbn [snd] in E3. subst x3.
  cbn -[scrape_session scrape_catch scrape_finally].
  destruct (Hlaunch (userDataDir host a1) (production host) w3) as [b2 E4].
  destruct (handle (Launch (userDataDir host a1) (production host)) w3) as [w4 x4].
  cbn [snd] in E4. subst x4.
  exists b1, b2. cbn. repeat split.
Qed.

Lemma concurrent_calls_both_launch_witness :
  exists b1 b2,
    (interleave Sim.handle [true; true; false; false]
       (scrapeWithCredentials (Sim.host true) demo_args)
       (scrapeWithCredentials (Sim.host true) demo_args) demo_world).1.1.2
    = [(true, Event (FsEnsureDir (sessionDir (Sim.host true))) (Ok ()));
       (true, Event (Launch (userDataDir (Sim.host true) demo_args)
                       (production (Sim.host true))) (Ok b1));
       (false, Event (FsEnsureDir (sessionDir (Sim.host true))) (Ok ()));
       (false, Event (Launch (userDataDir (Sim.host true) demo_args)
                        (production (Sim.host true))) (Ok b2))]
    /\ running (interleave Sim.handle [true; true; false; false]
                  (scrapeWithCredentials (Sim.host true) demo_args)
                  (scrapeWithCredentials (Sim.host true) demo_args)
                  demo_world).1.2
    /\ running (interleave Sim.handle [true; true; false; false]
                  (scrapeWithCredentials (Sim.host true) demo_args)
                  (scrapeWithCredentials (Sim.host true) demo_args)
                  demo_world).2.
Proof.
  apply (concurrent_calls_both_launch (Sim.host true) Sim.handle demo_args
           demo_args demo_world).
  - vm_compute. exact Logic.I.
  - vm_compute. exact Logic.I.
  - reflexivity.
  - intros d w. reflexivity.
  - intros d headless w. eexists. reflexivity.
Defined.

Example concurrent_calls_open_browsers :
  Sim.w_open
    (interleave Sim.handle [true; true; false; false]
       (scrapeWithCredentials (Sim.host true) demo_args)
       (scrapeWithCredentials (Sim.host true) demo_args) demo_world).1.1.1
  = [(1%nat, u "/app/sessions/twitter_aGVsbG9A");
     (2%nat, u "/app/sessions/twitter_aGVsbG9A")].
Proof. vm_compute. reflexivity. Qed.

(* ================================================================== *)
(** * Further properties of the service *)

(* ------------------------------------------------------------------ *)
(** ** The platforms that can be scraped *)

Lemma str_eqb_eq (a b : jsstring) : str_eqb a b = true -> a = b.
Proof. unfold str_eqb. apply bool_decide_eq_true. Qed.

Lemma scrapeTargetProfile_raises host R p platform targetUser timeframe :
  platform <> u "twitter" ->
  sat R any_op raises (scrapeTargetProfile host p platform targetUser timeframe).
Proof.
  intros Hplatform. unfold scrapeTargetProfile.
  destruct (obj_get scraperConfigs platform) as [config| |] eqn:Hconfig;
    [|exact Logic.I|exact Logic.I].
  apply sat_skip; [exact (fun _ => Logic.I)|]. intros _.
  apply sat_skip; [exact (fun _ => Logic.I)|]. intros _.
  destruct (str_eqb platform (u "twitter")) eqn:Htw.
  { destruct Hplatform. apply str_eqb_eq, Htw. }
  destruct (str_eqb platform (u "facebook")) eqn:Hfb; [|exact Logic.I].
  apply str_eqb_eq in Hfb. subst platform. discriminate Hconfig.
Qed.

Lemma sat_raises_bind R {A B} (p : prog A) (f : A -> prog B) :
  (forall a, sat R any_op raises (f a)) -> sat R any_op raises (p ≫= f).
Proof. intros Hf. apply sat_skip; [exact (fun _ => Logic.I)|exact Hf]. Qed.

Lemma scrapeWithCredentials_raises host R a :
  a_platform a <> u "twitter" ->
  sat R any_op raises (scrapeWithCredentials host a).
Proof.
  intros Hplatform.
  assert (forall error, sat R any_op raises (scrape_catch host a error)) as Hcatch.
  { intros error. unfold scrape_catch.
    destruct (includes _ _ || includes _ _); exact Logic.I. }
  assert (forall {A} (p : prog A) finalizer,
            sat R any_op raises p -> sat R any_op raises (try_finally p finalizer))
    as Hfinally.
  { intros A p finalizer Hp. apply sat_try_finally. revert Hp. apply sat_mono.
    intros [r|e] Hr; [destruct Hr|].
    apply sat_always; [exact (fun _ => Logic.I)|]. intros [c|e']; exact Logic.I. }
  assert (forall b, sat R any_op raises (scrape_session host a b)) as Hsession.
  { intros b. unfold scrape_session.
    apply sat_raises_bind. intros p.
    apply sat_raises_bind. intros isLoggedIn.
    apply sat_raises_bind. intros _.
    apply sat_bind.
    generalize (scrapeTargetProfile_raises host R p (a_platform a)
                  (a_targetUser a) (default (u "7d") (a_timeframe a)) Hplatform).
    apply sat_mono. intros [posts|e] H; [destruct H|exact Logic.I]. }
  unfold scrapeWithCredentials.
  destruct (obj_get scraperConfigs (a_platform a)); [| |exact Logic.I];
    (apply sat_raises_bind; intros [b|error];
     [|apply Hfinally, Hcatch];
     apply Hfinally, sat_try_catch;
     generalize (Hsession b); apply sat_mono;
     intros [res|e] H; [destruct H|apply Hcatch]).
Qed.

(** X1: twitter is the one platform for which [scrapeWithCredentials] can
    return a result.  For every other platform name -- facebook, which the
    request validation admits, and instagram and linkedin, which are
    configured, included -- every run ends in an error, whatever the site
    and the driver do. *)
Theorem scrapeWithCredentials_only_twitter host {W}
    (handle : forall o : op, W -> W * resp o) a w :
  a_platform a <> u "twitter" ->
  exists error, (run handle (scrapeWithCredentials host a) w).2 = Err error.
Proof.
  intros Hplatform.
  destruct (run handle (scrapeWithCredentials host a) w) as [[w' trace] r] eqn:Hrun.
  cbn [fst snd].
  assert (Forall (fun ev => any_answer (ev_op ev) (ev_answer ev)) trace) as Hany
    by (apply Forall_forall; intros; exact Logic.I).
  destruct (run_sat _ _ handle _ _ (scrapeWithCredentials_raises host any_answer a Hplatform)
              _ _ _ _ Hrun Hany) as [_ Hr].
  destruct r as [res|error]; [destruct Hr|eauto].
Qed.

Lemma scrapeWithCredentials_only_twitter_witness :
  exists error,
    (run Sim.handle (scrapeWithCredentials (Sim.host true) instagram_args)
       demo_world).2 = Err error.
Proof.
  apply (scrapeWithCredentials_only_twitter (Sim.host true) Sim.handle
           instagram_args demo_world).
  vm_compute. discriminate.
Defined.

(** On a configured platform other than twitter the call fails only once
    the browser is launched and the profile is opened. *)
Example instagram_fails_late :
  let out := run Sim.handle (scrapeWithCredentials (Sim.host true) instagram_args)
               demo_world in
  out.2 = Err (mkError (u "Scraping not implemented for platform: instagram"))
  /\ existsb (fun ev => is_class CLaunch (ev_op ev)) out.1.2 = true
  /\ Sim.w_url out.1.1 = u "https://www.instagram.com/alice/".
Proof. vm_compute. repeat split. Qed.

(* ------------------------------------------------------------------ *)
(** ** What reading a profile requests *)

Lemma all_answers (trace : list event) :
  Forall (fun ev => any_answer (ev_op ev) (ev_answer ev)) trace.
Proof. apply Forall_forall. intros; exact Logic.I. Qed.


(* ------------------------------------------------------------------ *)
(** ** The browser outside production *)

Lemma scrapeWithCredentials_no_close host R a :
  production host = false ->
  uses R (all_but CClose) (scrapeWithCredentials host a).
Proof.
  intros Hdev.
  pose proof (scrape_session_uses host R (all_but CClose) eq_refl eq_refl eq_refl)
    as Hsession.
  pose proof (scrape_catch_uses host R (all_but CClose)) as Hcatch.
  assert (forall b, uses R (all_but CClose) (scrape_finally host b)) as Hfinally.
  { intros [b|]; cbn; rewrite ?Hdev; exact Logic.I. }
  assert (all_but CClose CWrite = true) as Hwrite by reflexivity.
  assert (all_but CClose CLaunch = true) as Hlaunch by reflexivity.
  unfold scrapeWithCredentials, launchStealthBrowser.
  destruct (obj_get scraperConfigs (a_platform a)); uses_all; auto.
Qed.

(** X3: outside production mode [scrapeWithCredentials] never closes the
    browser that it launches, whether the call returns or fails: no run
    requests a close. *)
Theorem scrapeWithCredentials_keeps_browser_open host {W}
    (handle : forall o : op, W -> W * resp o) a w :
  production host = false ->
  Forall (fun ev => is_class CClose (ev_op ev) = false)
    (run handle (scrapeWithCredentials host a) w).1.2.
Proof.
  intros Hdev.
  destruct (run handle _ w) as [[w' trace] r] eqn:Hrun. cbn [fst snd].
  destruct (run_sat _ _ handle _ _
              (scrapeWithCredentials_no_close host any_answer a Hdev)
              _ _ _ _ Hrun (all_answers trace)) as [Hops _].
  eapply Forall_impl; [exact Hops|]. cbn beta. intros [o x]. cbn [ev_op].
  unfold permits, is_class. destruct (classify o); cbn; congruence.
Qed.

Lemma scrapeWithCredentials_keeps_browser_open_witness :
  Forall (fun ev => is_class CClose (ev_op ev) = false)
    (run Sim.handle (scrapeWithCredentials (Sim.host false) demo_args)
       demo_world).1.2.
Proof.
  apply (scrapeWithCredentials_keeps_browser_open (Sim.host false) Sim.handle
           demo_args demo_world).
  reflexivity.
Defined.

Example development_run_leaves_browser :
  Sim.w_open (run Sim.handle (scrapeWithCredentials (Sim.host false) demo_args)
                demo_world).1.1
  = [(1%nat, u "/app/sessions/twitter_aGVsbG9A")].
Proof. vm_compute. reflexivity. Qed.

(* ------------------------------------------------------------------ *)
(** ** One element at a time *)

Lemma push_new_extends posts found :
  posts `prefix_of` push_new posts found
  /\ (length (push_new posts found) <= S (length posts))%nat.
Proof.
  unfold push_new. destruct found as [d|].
  - destruct (existsb _ posts).
    + split; [reflexivity|lia].
    + split; [apply prefix_app_r; reflexivity|rewrite length_app; cbn; lia].
  - split; [reflexivity|lia].
Qed.

Lemma harvest_extends R extract : forall elements posts,
  sat R any_op
    (fun r => exists posts',
       r = Ok posts' /\ posts `prefix_of` posts'
       /\ (length posts' <= length posts + length elements)%nat)
    (harvest extract elements posts).
Proof.
  unfold harvest.
  induction elements as [|el elements IH]; intros posts; cbn [for_of].
  - exists posts. split; [reflexivity|]. split; [reflexivity|lia].
  - apply sat_bind, sat_try_catch, sat_bind, sat_always;
      [exact (fun _ => Logic.I)|].
    assert (forall posts1,
              posts `prefix_of` posts1 ->
              (length posts1 <= S (length posts))%nat ->
              sat R any_op
                (fun r => exists posts',
                   r = Ok posts' /\ posts `prefix_of` posts'
                   /\ (length posts' <= length posts + length (el :: elements))%nat)
                (for_of
                   (fun el posts =>
                      try_catch (found ← extract el; Ret (push_new posts found))
                        (fun _ => Ret posts)) elements posts1)) as Hrest.
    { intros posts1 Hprefix Hlength. generalize (IH posts1). apply sat_mono.
      intros r (posts' & -> & Hp & Hl). exists posts'.
      split; [reflexivity|]. split; [etrans; eassumption|cbn; lia]. }
    intros [found|e]; cbn.
    + apply Hrest; apply push_new_extends.
    + apply Hrest; [reflexivity|lia].
Qed.

(** X4: the loop over the elements of one scroll never fails, even when
    the extraction of an element does: it returns the posts collected so
    far, in place and in order, followed by at most one new post for each
    element. *)
Theorem harvest_keeps_posts {W} (handle : forall o : op, W -> W * resp o)
    extract elements posts w :
  exists posts',
    (run handle (harvest extract elements posts) w).2 = Ok posts'
    /\ posts `prefix_of` posts'
    /\ (length posts' <= length posts + length elements)%nat.
Proof.
  destruct (run handle _ w) as [[w' trace] r] eqn:Hrun. cbn [fst snd].
  exact (proj2 (run_sat _ _ handle _ _ (harvest_extends any_answer extract elements posts)
                  _ _ _ _ Hrun (all_answers trace))).
Qed.

(* ------------------------------------------------------------------ *)
(** ** Popups *)

Lemma handlePlatformSpecificPopups_ok R p platform :
  (forall name, obj_get platformPopups platform <> Inherited name) ->
  sat R any_op is_ok (handlePlatformSpecificPopups p platform).
Proof.
  intros Hown. unfold handlePlatformSpecificPopups.
  assert (forall sels,
            sat R any_op is_ok
              (for_of
                 (fun selector (_ : unit) =>
                    try_catch
                      (elements ← await (PageQueryAll p selector) id;
                       for_of_break
                         (fun el (_ : unit) =>
                            isVisible ← await (EvalIsVisible p el) id;
                            if isVisible : bool then
                              await (ElementClick el) id;;
                              randomDelay 1000 2000;;
                              Ret (Break ())
                            else Ret (Next ()))
                         elements ())
                      (fun _ => Ret ()))
                 sels ())) as Hloop.
  { induction sels as [|selector sels IH]; cbn [for_of];
      [exact Logic.I|].
    apply sat_bind, sat_try_catch, sat_always; [exact (fun _ => Logic.I)|].
    intros [[]|e]; exact IH. }
  destruct (obj_get platformPopups platform) as [l|name|];
    [apply Hloop|destruct (Hown name eq_refl)|apply Hloop].
Qed.

(** X5: dismissing popups is never fatal on a platform name of the popup
    table or on an unknown name: whatever the page does,
    [handlePlatformSpecificPopups] completes normally.  On a name that
    the table inherits from [Object.prototype] it raises a type error
    before it touches the page. *)
Theorem handlePlatformSpecificPopups_never_fatal {W}
    (handle : forall o : op, W -> W * resp o) p platform w :
  match obj_get platformPopups platform with
  | Inherited _ =>
      run handle (handlePlatformSpecificPopups p platform) w
      = (w, [], Err (TypeError (u "selectors is not iterable")))
  | _ => (run handle (handlePlatformSpecificPopups p platform) w).2 = Ok ()
  end.
Proof.
  destruct (obj_get platformPopups platform) as [l|name|] eqn:Hget.
  - destruct (run handle _ w) as [[w' trace] r] eqn:Hrun. cbn [fst snd].
    assert (is_ok r) as Hok.
    { refine (proj2 (run_sat _ _ handle _ _
                       (handlePlatformSpecificPopups_ok any_answer p platform _)
                       _ _ _ _ Hrun (all_answers trace))).
      intros name. rewrite Hget. discriminate. }
    destruct r as [[]|e]; [reflexivity|destruct Hok].
  - unfold handlePlatformSpecificPopups. rewrite Hget. reflexivity.
  - destruct (run handle _ w) as [[w' trace] r] eqn:Hrun. cbn [fst snd].
    assert (is_ok r) as Hok.
    { refine (proj2 (run_sat _ _ handle _ _
                       (handlePlatformSpecificPopups_ok any_answer p platform _)
                       _ _ _ _ Hrun (all_answers trace))).
      intros name. rewrite Hget. discriminate. }
    destruct r as [[]|e]; [reflexivity|destruct Hok].
Qed.

(* ------------------------------------------------------------------ *)
(** ** The record of testCredentials *)

Lemma testCredentials_record host a :
  sat any_answer any_op
    (returns (fun outcome =>
       sessionSaved outcome = loginSuccessful outcome
       /\ (loginSuccessful outcome = true -> requires2FA outcome = false)))
    (testCredentials host a).
Proof.
  set (P := fun outcome : TestResult => _ /\ _).
  assert (forall b, sat any_answer any_op any_result (test_finally b)) as Hfinally.
  { intros b. apply sat_always; exact (fun _ => Logic.I). }
  assert (forall error, sat any_answer any_op (returns P) (test_catch error))
    as Hcatch.
  { intros error. split; [reflexivity|discriminate]. }
  unfold testCredentials. apply sat_skip; [exact (fun _ => Logic.I)|].
  intros [b|error].
  - apply sat_try_finally_returns; [|apply Hfinally].
    apply sat_try_catch. unfold test_session.
    do 6 (apply sat_skip; [exact Hcatch|]; intros ?).
    apply sat_skip; [exact Hcatch|]. intros ok.
    split; [reflexivity|reflexivity].
  - apply sat_try_finally_returns; [|apply Hfinally]. apply Hcatch.
Qed.

(** X6: in the record that [testCredentials] returns, [sessionSaved]
    equals [loginSuccessful], and a successful login never comes with
    [requires2FA]. *)
Theorem testCredentials_record_consistent host {W}
    (handle : forall o : op, W -> W * resp o) a w outcome :
  (run handle (testCredentials host a) w).2 = Ok outcome ->
  sessionSaved outcome = loginSuccessful outcome
  /\ (loginSuccessful outcome = true -> requires2FA outcome = false).
Proof.
  destruct (run handle _ w) as [[w' trace] r] eqn:Hrun. cbn [fst snd].
  intros ->.
  exact (proj2 (run_sat _ _ handle _ _ (testCredentials_record host a)
                  _ _ _ _ Hrun (all_answers trace))).
Qed.

Lemma testCredentials_record_consistent_witness :
  exists outcome,
    (run Sim.handle (testCredentials (Sim.host true) demo_test_args) demo_world).2
    = Ok outcome
    /\ sessionSaved outcome = loginSuccessful outcome
    /\ (loginSuccessful outcome = true -> requires2FA outcome = false).
Proof.
  eexists. split; [vm_compute; reflexivity|].
  apply (testCredentials_record_consistent (Sim.host true) Sim.handle
           demo_test_args demo_world).
  vm_compute. reflexivity.
Defined.

(* ------------------------------------------------------------------ *)
(** ** Rules for the events of a run *)

Section TraceRules.
Context (R : forall o : op, resp o -> Prop).

Lemma tsat_mono {A} (T T' : list event -> result A -> Prop) (p : prog A) :
  (forall trace r, T trace r -> T' trace r) -> tsat R T p -> tsat R T' p.
Proof.
  revert T T'. induction p as [a|e|o k IH]; intros T T' HT; cbn; auto.
  intros Hk x Hx. eapply IH; [|apply Hk, Hx]. cbn beta. auto.
Qed.

Lemma tsat_bind {A B} (T : list event -> result B -> Prop) (p : prog A)
    (f : A -> prog B) :
  tsat R (fun t1 r1 =>
            match r1 with
            | Ok a => tsat R (fun t2 r2 => T (t1 ++ t2) r2) (f a)
            | Err e => T t1 (Err e)
            end) p ->
  tsat R T (p ≫= f).
Proof.
  revert T. induction p as [a|e|o k IH]; intros T; cbn; auto;
    intros Hk x Hx; apply IH; apply Hk, Hx.
Qed.

Lemma tsat_attempt {A} (T : list event -> result (result A) -> Prop)
    (p : prog A) :
  tsat R (fun t r => T t (Ok r)) p -> tsat R T (attempt p).
Proof.
  revert T. induction p as [a|e|o k IH]; intros T; cbn; auto;
    intros Hk x Hx; apply IH; apply Hk, Hx.
Qed.

Lemma tsat_try_catch {A} (T : list event -> result A -> Prop) (p : prog A)
    handler :
  tsat R (fun t1 r1 =>
            match r1 with
            | Ok a => T t1 (Ok a)
            | Err e => tsat R (fun t2 r2 => T (t1 ++ t2) r2) (handler e)
            end) p ->
  tsat R T (try_catch p handler).
Proof.
  intros H. unfold try_catch. apply tsat_bind, tsat_attempt.
  revert H. apply tsat_mono. intros t1 [a|e] H; [|exact H].
  cbn. rewrite app_nil_r. exact H.
Qed.

Lemma tsat_try_finally {A} (T : list event -> result A -> Prop) (p : prog A)
    finalizer :
  tsat R (fun t1 r1 =>
            tsat R (fun t2 c =>
                      match c with
                      | Ok _ => T (t1 ++ t2) r1
                      | Err e => T (t1 ++ t2) (Err e)
                      end) finalizer) p ->
  tsat R T (try_finally p finalizer).
Proof.
  intros H. unfold try_finally. apply tsat_bind, tsat_attempt.
  revert H. apply tsat_mono. intros t1 r1 H. apply tsat_bind.
  revert H. apply tsat_mono. intros t2 [[]|e] H; [|exact H].
  destruct r1; cbn; rewrite app_nil_r; exact H.
Qed.

(** What the logic of operations and completions shows holds of the
    events. *)
Lemma tsat_of_sat (I : op -> Prop) {A} (Q : result A -> Prop) (p : prog A) :
  sat R I Q p ->
  tsat R (fun trace r => Forall (fun ev => I (ev_op ev)) trace /\ Q r) p.
Proof.
  induction p as [a|e|o k IH]; cbn; auto.
  intros [Ho Hk] x Hx. generalize (IH x (Hk x Hx)). apply tsat_mono.
  intros trace r [Ht Hr]. split; [constructor; assumption|exact Hr].
Qed.

Lemma run_tsat {W} (handle : forall o : op, W -> W * resp o) {A}
    (T : list event -> result A -> Prop) (p : prog A) :
  tsat R T p ->
  forall w w' trace r,
    run handle p w = (w', trace, r) ->
    Forall (fun ev => R (ev_op ev) (ev_answer ev)) trace ->
    T trace r.
Proof.
  revert T. induction p as [a|e|o k IH]; intros T; cbn [tsat run].
  - intros HT w w' trace r [= <- <- <-] _. exact HT.
  - intros HT w w' trace r [= <- <- <-] _. exact HT.
  - intros Hk w w' trace r.
    destruct (handle o w) as [w1 x].
    destruct (run handle (k x) w1) as [[w2 trace'] r'] eqn:Hrun.
    intros [= <- <- <-] Htrace.
    apply Forall_cons_iff in Htrace as [Hx Htrace]. cbn in Hx.
    exact (IH x _ (Hk x Hx) _ _ _ _ Hrun Htrace).
Qed.
End TraceRules.

(* ------------------------------------------------------------------ *)
(** ** The browser in production, and after a test of credentials *)

Lemma no_launch_launched trace :
  Forall (fun ev => permits (all_but CLaunch) (ev_op ev)) trace ->
  omap launched trace = [].
Proof.
  induction 1 as [|[o x] trace Ho _ IH]; [reflexivity|].
  cbn [omap list_omap]. rewrite IH.
  destruct o; cbn in *; try reflexivity. discriminate Ho.
Qed.

Lemma closes_last_after before d headless b body c :
  omap launched before = [] ->
  omap launched body = [] ->
  closes_last (before ++ Event (Launch d headless) (Ok b) :: body
                 ++ [Event (BrowserClose b) c]).
Proof.
  intros Hbefore Hbody b' Hin.
  rewrite omap_app, Hbefore in Hin. cbn [omap list_omap app launched] in Hin.
  rewrite omap_app, Hbody in Hin. cbn in Hin.
  destruct Hin as [<-|[]].
  change (before ++ Event (Launch d headless) (Ok b) :: body
            ++ [Event (BrowserClose b) c])
    with (before ++ (Event (Launch d headless) (Ok b) :: body)
            ++ [Event (BrowserClose b) c]).
  rewrite app_assoc, last_snoc. reflexivity.
Qed.

Lemma closes_last_launch o (x : resp o) d headless b body c :
  launched (Event o x) = None ->
  omap launched body = [] ->
  closes_last (Event o x :: Event (Launch d headless) (Ok b) :: body
                 ++ [Event (BrowserClose b) c]).
Proof.
  intros Ho Hbody. apply (closes_last_after [Event o x]); [|exact Hbody].
  cbn [omap list_omap]. rewrite Ho. reflexivity.
Qed.

Lemma scrapeWithCredentials_closes host a :
  production host = true ->
  tsat any_answer (fun trace _ => closes_last trace) (scrapeWithCredentials host a).
Proof.
  intros Hprod. unfold scrapeWithCredentials.
  assert (forall error,
            tsat any_answer (fun trace (_ : result ScrapeResult) => trace = [])
              (scrape_catch host a error)) as Hcatch.
  { intros error. unfold scrape_catch.
    destruct (includes _ _ || includes _ _); reflexivity. }
  set (T := fun (trace : list event) (_ : result ScrapeResult) => closes_last trace).
  assert (tsat any_answer T
            (launched ← attempt (await (FsEnsureDir (sessionDir host)) id;;
                                 launchStealthBrowser host (userDataDir host a));
             match launched with
             | Err error =>
                 try_finally (scrape_catch host a error) (scrape_finally host None)
             | Ok b =>
                 try_finally (try_catch (scrape_session host a b) (scrape_catch host a))
                   (scrape_finally host (Some b))
             end)) as Hmain.
  { cbn -[scrape_session scrape_catch scrape_finally try_finally try_catch].
    intros [[]|e1] _.
    - cbn -[scrape_session scrape_catch scrape_finally try_finally try_catch].
      intros [b|e2] _.
      + cbn -[scrape_session scrape_catch scrape_finally try_finally try_catch].
        apply tsat_try_finally, tsat_try_catch.
        generalize (tsat_of_sat any_answer _ _ _
                      (scrape_session_uses host any_answer (all_but CLaunch)
                         eq_refl eq_refl eq_refl a b)).
        apply tsat_mono. intros body r [Hbody _].
        apply no_launch_launched in Hbody.
        assert (tsat any_answer
                  (fun t2 (c : result unit) =>
                     closes_last
                       (Event (FsEnsureDir (sessionDir host)) (Ok ())
                        :: Event (Launch (userDataDir host a) (production host)) (Ok b)
                        :: body ++ t2))
                  (scrape_finally host (Some b))) as Hfinally.
        { cbn. rewrite Hprod. cbn. intros c _.
          destruct c as [[]|e]; apply closes_last_launch; auto. }
        destruct r as [res|error].
        * revert Hfinally. apply tsat_mono. intros t2 [[]|e] H; exact H.
        * generalize (Hcatch error). apply tsat_mono. intros t1 r1 ->.
          rewrite app_nil_r.
          revert Hfinally. apply tsat_mono. intros t2 [[]|e] H; exact H.
      + cbn -[scrape_catch scrape_finally try_finally].
        apply tsat_try_finally. generalize (Hcatch e2). apply tsat_mono.
        intros t1 r1 ->. cbn. intros b' [].
    - cbn -[scrape_catch scrape_finally try_finally].
      apply tsat_try_finally. generalize (Hcatch e1). apply tsat_mono.
      intros t1 r1 ->. cbn. intros b' []. }
  destruct (obj_get scraperConfigs (a_platform a)); [exact Hmain|exact Hmain|].
  intros b' [].
Qed.

(** X7: in production mode [scrapeWithCredentials] closes the browser it
    was handed whether it returns or fails: in every run in which a launch
    gave a browser, the last operation requested is the close of that
    browser. *)
Theorem scrapeWithCredentials_closes_browser host {W}
    (handle : forall o : op, W -> W * resp o) a w :
  production host = true ->
  closes_last (run handle (scrapeWithCredentials host a) w).1.2.
Proof.
  intros Hprod.
  destruct (run handle _ w) as [[w' trace] r] eqn:Hrun. cbn [fst snd].
  exact (run_tsat _ handle _ _ (scrapeWithCredentials_closes host a Hprod)
           _ _ _ _ Hrun (all_answers trace)).
Qed.

Lemma scrapeWithCredentials_closes_browser_witness :
  closes_last
    (run Sim.handle (scrapeWithCredentials (Sim.host true) demo_args)
       (Sim.world site_with_2fa demo_clock)).1.2.
Proof.
  apply (scrapeWithCredentials_closes_browser (Sim.host true) Sim.handle demo_args).
  reflexivity.
Defined.

Example production_run_leaves_no_browser :
  Sim.w_open (run Sim.handle (scrapeWithCredentials (Sim.host true) demo_args)
                (Sim.world site_with_2fa demo_clock)).1.1 = [].
Proof. vm_compute. reflexivity. Qed.

Lemma test_session_uses R allowed a b :
  allowed COther = true -> allowed CCredential = true ->
  uses R allowed (test_session a b).
Proof.
  intros Hother Hcredential.
  pose proof (createStealthPage_uses R allowed Hother).
  pose proof (login_url_uses R allowed).
  pose proof (handlePlatformSpecificPopups_uses R allowed Hother).
  pose proof (performLoginSteps_uses R allowed Hother Hcredential).
  pose proof (randomDelay_uses R allowed Hother).
  pose proof (checkLoginSuccess_uses R allowed Hother).
  unfold test_session. uses_all; auto.
Qed.

Lemma testCredentials_closes host a :
  tsat any_answer (fun trace _ => closes_last trace) (testCredentials host a).
Proof.
  set (T := fun (trace : list event) (_ : result TestResult) => closes_last trace).
  assert (forall before dir,
            omap launched before = [] ->
            tsat any_answer (fun trace r => T (before ++ trace) r)
              (launched ← attempt (launchStealthBrowser host dir);
               match launched with
               | Err error => try_finally (test_catch error) (test_finally None)
               | Ok b =>
                   try_finally (try_catch (test_session a b) test_catch)
                     (test_finally (Some b))
               end)) as Hmain.
  { intros before dir Hbefore.
    cbn -[test_session test_catch test_finally try_finally try_catch].
    intros [b|e] _.
    - cbn -[test_session test_catch test_finally try_finally try_catch].
      apply tsat_try_finally, tsat_try_catch.
      generalize (tsat_of_sat any_answer _ _ _ (test_session_uses any_answer (all_but CLaunch) a b eq_refl eq_refl)).
      apply tsat_mono. intros body r [Hbody _].
      apply no_launch_launched in Hbody.
      assert (tsat any_answer
                (fun t2 (c : result unit) =>
                   closes_last (before ++ Event (Launch dir (production host)) (Ok b)
                                  :: body ++ t2))
                (test_finally (Some b))) as Hfinally.
      { cbn. intros c _. destruct c as [[]|e]; apply closes_last_after; auto. }
      destruct r as [res|error].
      + revert Hfinally. apply tsat_mono. intros t2 [[]|e] H; exact H.
      + cbn -[test_finally]. rewrite app_nil_r.
        revert Hfinally. apply tsat_mono. intros t2 [[]|e] H; exact H.
    - cbn. intros b' Hin. rewrite omap_app, Hbefore in Hin. destruct Hin. }
  unfold testCredentials. destruct (given (t_sessionId a)) as [sessionId|].
  - exact (Hmain [] _ eq_refl).
  - intros now _. exact (Hmain [Event DateNow now] _ eq_refl).
Qed.

(** X8: [testCredentials] never leaves a browser behind: in every run in
    which the launch gave a browser, whatever happens during the login and
    in either mode, the last operation requested is the close of that
    browser. *)
Theorem testCredentials_closes_browser host {W}
    (handle : forall o : op, W -> W * resp o) a w :
  closes_last (run handle (testCredentials host a) w).1.2.
Proof.
  destruct (run handle _ w) as [[w' trace] r] eqn:Hrun. cbn [fst snd].
  exact (run_tsat _ handle _ _ (testCredentials_closes host a)
           _ _ _ _ Hrun (all_answers trace)).
Qed.

Example test_run_leaves_no_browser :
  Sim.w_open (run Sim.handle (testCredentials (Sim.host false) demo_test_args)
                demo_world).1.1 = [].
Proof. vm_compute. reflexivity. Qed.

(* ------------------------------------------------------------------ *)
(** ** Typing and scrolling

    The operations of each method once more, typing and scrolling being
    told apart from the rest. *)

Section Ops.
Context (R : forall o : op, resp o -> Prop) (I : op -> Prop).

Lemma ops_bind {A B} (p : prog A) (f : A -> prog B) :
  ops R I p -> (forall a, ops R I (f a)) -> ops R I (p ≫= f).
Proof.
  intros Hp Hf. apply sat_bind. revert Hp. apply sat_mono.
  intros [a|e] _; [apply Hf|exact Logic.I].
Qed.

Lemma ops_attempt {A} (p : prog A) : ops R I p -> ops R I (attempt p).
Proof. intros Hp. apply sat_attempt. revert Hp. apply sat_mono. auto. Qed.

Lemma ops_try_catch {A} (p : prog A) handler :
  ops R I p -> (forall e, ops R I (handler e)) -> ops R I (try_catch p handler).
Proof.
  intros Hp Hh. apply sat_try_catch. revert Hp. apply sat_mono.
  intros [a|e] _; [exact Logic.I|apply Hh].
Qed.

Lemma ops_try_finally {A} (p : prog A) finalizer :
  ops R I p -> ops R I finalizer -> ops R I (try_finally p finalizer).
Proof.
  intros Hp Hf. apply sat_try_finally. revert Hp. apply sat_mono.
  intros r _. revert Hf. apply sat_mono. intros [c|e] _; exact Logic.I.
Qed.

Lemma ops_await {A} (o : op) (k : resp o -> result A) :
  I o -> ops R I (await o k).
Proof. intros Ho. apply sat_await; [exact Ho|]. intros; exact Logic.I. Qed.

Lemma ops_request (o : op) : I o -> ops R I (request o).
Proof. intros Ho. apply sat_request; [exact Ho|]. intros; exact Logic.I. Qed.

Lemma ops_for_of {X S} (body : X -> S -> prog S) (l : list X) (s : S) :
  (forall x s, ops R I (body x s)) -> ops R I (for_of body l s).
Proof.
  intros Hbody. revert s. induction l as [|x l IH]; intros s; cbn [for_of].
  - exact Logic.I.
  - apply ops_bind; auto.
Qed.

Lemma ops_for_of_break {X S} (body : X -> S -> prog (ctl S)) (l : list X)
    (s : S) :
  (forall x s, ops R I (body x s)) -> ops R I (for_of_break body l s).
Proof.
  intros Hbody. revert s. induction l as [|x l IH]; intros s; cbn [for_of_break].
  - exact Logic.I.
  - apply ops_bind; [apply Hbody|]. intros [s'|s']; [apply IH|exact Logic.I].
Qed.
End Ops.

Ltac ops_step :=
  match goal with
  | |- ops _ _ (Ret _) => exact Logic.I
  | |- ops _ _ (Throw _) => exact Logic.I
  | |- ops _ _ (await _ _) => apply ops_await; solve [auto]
  | |- ops _ _ (request _) => apply ops_request; solve [auto]
  | |- ops _ _ (try_catch _ _) => apply ops_try_catch; [|intros ?]
  | |- ops _ _ (try_finally _ _) => apply ops_try_finally
  | |- ops _ _ (attempt _) => apply ops_attempt
  | |- ops _ _ (for_of _ _ _) => apply ops_for_of; intros ? ?
  | |- ops _ _ (for_of_break _ _ _) => apply ops_for_of_break; intros ? ?
  | |- ops _ _ (mbind _ _) => apply ops_bind; [|intros ?]
  | |- ops _ _ (match ?x with _ => _ end) => destruct x
  | |- ops _ _ _ => solve [auto with ops]
  end.

Ltac ops_all := repeat ops_step.

Create HintDb ops.

Section Kinds.
Context (host : Host) (R : forall o : op, resp o -> Prop) (I : op -> Prop).
Context (Hrest : forall o, is_typing o = false -> is_scroll o = false -> I o)
        (Hscroll : forall o, is_scroll o = true -> I o)
        (Htyping : forall o, is_typing o = true -> I o).

Lemma randomBetween_ops min max : ops R I (randomBetween min max).
Proof. unfold randomBetween. ops_all. Qed.
#[local] Hint Resolve randomBetween_ops : ops.

Lemma randomDelay_ops min max : ops R I (randomDelay min max).
Proof. unfold randomDelay. ops_all. Qed.
#[local] Hint Resolve randomDelay_ops : ops.

Lemma createStealthPage_ops b : ops R I (createStealthPage b).
Proof. unfold createStealthPage. ops_all. Qed.
#[local] Hint Resolve createStealthPage_ops : ops.

Lemma checkExistingSession_ops p platform :
  ops R I (checkExistingSession p platform).
Proof. unfold checkExistingSession. ops_all. Qed.
#[local] Hint Resolve checkExistingSession_ops : ops.

Lemma waitForSelector_ops p selector timeout :
  ops R I (waitForSelector p selector timeout).
Proof. unfold waitForSelector. ops_all. Qed.
#[local] Hint Resolve waitForSelector_ops : ops.

Lemma checkLoginSuccess_ops p platform : ops R I (checkLoginSuccess p platform).
Proof. unfold checkLoginSuccess. ops_all. Qed.
#[local] Hint Resolve checkLoginSuccess_ops : ops.

Lemma handlePlatformSpecificPopups_ops p platform :
  ops R I (handlePlatformSpecificPopups p platform).
Proof. unfold handlePlatformSpecificPopups. ops_all. Qed.
#[local] Hint Resolve handlePlatformSpecificPopups_ops : ops.

Lemma extractTwitterStats_ops p el : ops R I (extractTwitterStats p el).
Proof. unfold extractTwitterStats. ops_all. Qed.
#[local] Hint Resolve extractTwitterStats_ops : ops.

Lemma make_post_ops platform author text postDate postUrl stats :
  ops R I (make_post host platform author text postDate postUrl stats).
Proof. unfold make_post, date_toISOString. ops_all. Qed.
#[local] Hint Resolve make_post_ops : ops.

Lemma extractTwitterPostData_ops p el cutoffDate :
  ops R I (extractTwitterPostData host p el cutoffDate).
Proof. unfold extractTwitterPostData. ops_all. Qed.
#[local] Hint Resolve extractTwitterPostData_ops : ops.

Lemma first_text_ops p el sels : ops R I (first_text p el sels).
Proof. unfold first_text. ops_all. Qed.
#[local] Hint Resolve first_text_ops : ops.

Lemma facebook_date_ops p el sels : ops R I (facebook_date host p el sels).
Proof. unfold facebook_date. ops_all. Qed.
#[local] Hint Resolve facebook_date_ops : ops.

Lemma extractFacebookStats_ops p el : ops R I (extractFacebookStats p el).
Proof. unfold extractFacebookStats. ops_all. Qed.
#[local] Hint Resolve extractFacebookStats_ops : ops.

Lemma extractFacebookPostData_ops p el cutoffDate :
  ops R I (extractFacebookPostData host p el cutoffDate).
Proof. unfold extractFacebookPostData. ops_all. Qed.
#[local] Hint Resolve extractFacebookPostData_ops : ops.

Lemma harvest_ops extract elements posts :
  (forall el, ops R I (extract el)) -> ops R I (harvest extract elements posts).
Proof. intros Hextract. unfold harvest. ops_all. Qed.

Lemma twitter_scrolls_ops p cutoffDate : forall remaining posts,
  ops R I (twitter_scrolls host p cutoffDate remaining posts).
Proof.
  induction remaining as [|n IH]; intros posts; cbn [twitter_scrolls].
  - exact Logic.I.
  - destruct (Nat.ltb _ _); [|exact Logic.I].
    ops_step; [ops_step|].
    ops_step; [apply harvest_ops; auto with ops|].
    ops_step; [ops_step|]. ops_step; [ops_step|]. apply IH.
Qed.
#[local] Hint Resolve twitter_scrolls_ops : ops.

Lemma facebook_scrolls_ops p cutoffDate : forall remaining posts,
  ops R I (facebook_scrolls host p cutoffDate remaining posts).
Proof.
  induction remaining as [|n IH]; intros posts; cbn [facebook_scrolls].
  - exact Logic.I.
  - destruct (Nat.ltb _ _); [|exact Logic.I].
    ops_step; [ops_step|].
    ops_step; [apply harvest_ops; auto with ops|].
    do 4 (ops_step; [ops_step|]). apply IH.
Qed.
#[local] Hint Resolve facebook_scrolls_ops : ops.

Lemma scrapeTwitterPosts_ops p timeframe :
  ops R I (scrapeTwitterPosts host p timeframe).
Proof. unfold scrapeTwitterPosts. ops_all. Qed.
#[local] Hint Resolve scrapeTwitterPosts_ops : ops.

Lemma scrapeFacebookPosts_ops p timeframe :
  ops R I (scrapeFacebookPosts host p timeframe).
Proof. unfold scrapeFacebookPosts. ops_all. Qed.
#[local] Hint Resolve scrapeFacebookPosts_ops : ops.

Lemma scrapeTargetProfile_ops p platform targetUser timeframe :
  ops R I (scrapeTargetProfile host p platform targetUser timeframe).
Proof. unfold scrapeTargetProfile. ops_all. Qed.
#[local] Hint Resolve scrapeTargetProfile_ops : ops.

Lemma humanLikeTyping_ops p selector text :
  ops R I (humanLikeTyping p selector text).
Proof. unfold humanLikeTyping. ops_all. Qed.
#[local] Hint Resolve humanLikeTyping_ops : ops.

Lemma humanLikeClick_ops p selector : ops R I (humanLikeClick p selector).
Proof. unfold humanLikeClick. ops_all. Qed.
#[local] Hint Resolve humanLikeClick_ops : ops.

Lemma performLoginSteps_ops p platform email password :
  ops R I (performLoginSteps p platform email password).
Proof. unfold performLoginSteps. ops_all. Qed.
#[local] Hint Resolve performLoginSteps_ops : ops.

Lemma handle2FAPrompt_ops p platform : ops R I (handle2FAPrompt host p platform).
Proof. unfold handle2FAPrompt. ops_all. Qed.
#[local] Hint Resolve handle2FAPrompt_ops : ops.

Lemma handlePostLoginFlow_ops p platform :
  ops R I (handlePostLoginFlow host p platform).
Proof. unfold handlePostLoginFlow, race. ops_all. Qed.
#[local] Hint Resolve handlePostLoginFlow_ops : ops.

Lemma login_url_ops platform : ops R I (login_url platform).
Proof. unfold login_url. ops_all. Qed.
#[local] Hint Resolve login_url_ops : ops.

Lemma performStealthLogin_ops p platform email password :
  ops R I (performStealthLogin host p platform email password).
Proof. unfold performStealthLogin. ops_all. Qed.
#[local] Hint Resolve performStealthLogin_ops : ops.

Lemma saveSessionState_ops userDataDir sessionData :
  ops R I (saveSessionState host userDataDir sessionData).
Proof. unfold saveSessionState. ops_all. Qed.
#[local] Hint Resolve saveSessionState_ops : ops.

Lemma scrape_finally_ops b : ops R I (scrape_finally host b).
Proof. unfold scrape_finally. ops_all. Qed.

Lemma scrape_catch_ops a error : ops R I (scrape_catch host a error).
Proof.
  unfold scrape_catch. destruct (includes _ _ || includes _ _); exact Logic.I.
Qed.
End Kinds.

(* ------------------------------------------------------------------ *)
(** ** What a run types and how often it scrolls *)

Section Observe.
Context (R : forall o : op, resp o -> Prop) {X : Type} (obs : event -> option X).
Context (I : op -> Prop)
        (Hobs : forall o (x : resp o), I o -> obs (Event o x) = None).

Lemma unobserved trace :
  Forall (fun ev => I (ev_op ev)) trace -> omap obs trace = [].
Proof.
  induction 1 as [|[o x] trace Ho _ IH]; [reflexivity|].
  cbn [omap list_omap]. rewrite IH, (Hobs o x Ho). reflexivity.
Qed.

Lemma osat_mono {A} (P P' : list X -> result A -> Prop) (p : prog A) :
  (forall l r, P l r -> P' l r) -> osat R obs P p -> osat R obs P' p.
Proof. intros HP. apply tsat_mono. intros trace r. apply HP. Qed.

Lemma osat_bind {A B} (Q : list X -> result A -> Prop)
    (P : list X -> result B -> Prop) (p : prog A) (f : A -> prog B) :
  osat R obs Q p ->
  (forall l e, Q l (Err e) -> P l (Err e)) ->
  (forall l a, Q l (Ok a) -> osat R obs (fun l' r => P (l ++ l') r) (f a)) ->
  osat R obs P (p ≫= f).
Proof.
  intros Hp He Hf. apply tsat_bind. revert Hp. apply tsat_mono.
  intros t1 [a|e] HQ; [|apply He, HQ].
  generalize (Hf _ _ HQ). apply tsat_mono. intros t2 r2.
  rewrite omap_app. exact id.
Qed.

Lemma osat_quiet {A} (p : prog A) :
  ops R I p -> osat R obs (fun l _ => l = []) p.
Proof.
  intros Hp. generalize (tsat_of_sat R I _ p Hp). apply tsat_mono.
  intros trace r [Htrace _]. apply unobserved, Htrace.
Qed.

Lemma osat_skip {A B} (P : list X -> result B -> Prop) (p : prog A)
    (f : A -> prog B) :
  ops R I p -> (forall e, P [] (Err e)) -> (forall a, osat R obs P (f a)) ->
  osat R obs P (p ≫= f).
Proof.
  intros Hp He Hf. apply (osat_bind (fun l _ => l = [])).
  - apply osat_quiet, Hp.
  - intros l e ->. apply He.
  - intros l a ->. apply Hf.
Qed.

Lemma osat_last {A B} (P : list X -> Prop) (p : prog A) (f : A -> prog B) :
  osat R obs (fun l _ => P l) p -> (forall a, ops R I (f a)) ->
  osat R obs (fun l _ => P l) (p ≫= f).
Proof.
  intros Hp Hf. apply (osat_bind (fun l _ => P l)); [exact Hp|auto|].
  intros l a Hl. generalize (osat_quiet _ (Hf a)). apply osat_mono.
  intros l' r ->. rewrite app_nil_r. exact Hl.
Qed.

Lemma osat_attempt {A} (P : list X -> result (result A) -> Prop) (p : prog A) :
  osat R obs (fun l r => P l (Ok r)) p -> osat R obs P (attempt p).
Proof. exact (tsat_attempt R (fun trace r => P (omap obs trace) r) p). Qed.

Lemma osat_try_catch_quiet {A} (P : list X -> Prop) (p : prog A) handler :
  osat R obs (fun l _ => P l) p -> (forall e, ops R I (handler e)) ->
  osat R obs (fun l _ => P l) (try_catch p handler).
Proof.
  intros Hp Hh. unfold try_catch. apply osat_last.
  - apply osat_attempt. exact Hp.
  - intros [a|e]; [exact Logic.I|apply Hh].
Qed.

Lemma osat_try_finally_quiet {A} (P : list X -> Prop) (p : prog A) finalizer :
  osat R obs (fun l _ => P l) p -> ops R I finalizer ->
  osat R obs (fun l _ => P l) (try_finally p finalizer).
Proof.
  intros Hp Hf. unfold try_finally. apply osat_last.
  - apply osat_attempt. exact Hp.
  - intros r. apply ops_bind; [exact Hf|]. intros []. destruct r; exact Logic.I.
Qed.

Lemma run_osat {W} (handle : forall o : op, W -> W * resp o) {A}
    (P : list X -> result A -> Prop) (p : prog A) w :
  osat R obs P p ->
  Forall (fun ev => R (ev_op ev) (ev_answer ev)) (run handle p w).1.2 ->
  P (omap obs (run handle p w).1.2) (run handle p w).2.
Proof.
  intros Hp. destruct (run handle p w) as [[w' trace] r] eqn:Hrun. cbn [fst snd].
  exact (run_tsat R handle _ p Hp _ _ _ _ Hrun).
Qed.
End Observe.

Lemma typing_unobserved o (x : resp o) :
  is_typing o = false -> typed (Event o x) = None.
Proof. destruct o; cbn; congruence. Qed.

Lemma scroll_unobserved o (x : resp o) :
  is_scroll o = false -> scrolled (Event o x) = None.
Proof. destruct o; cbn; congruence. Qed.

Lemma scroll_not_typing o : is_scroll o = true -> is_typing o = false.
Proof. destruct o; cbn; congruence. Qed.

Lemma typing_not_scroll o : is_typing o = true -> is_scroll o = false.
Proof. destruct o; cbn; congruence. Qed.

Lemma code_points_concat text : concat (code_points text) = text.
Proof.
  assert (forall n text, (length text <= n)%nat -> concat (code_points text) = text)
    as H; [|exact (H _ _ (Nat.le_refl _))].
  clear text. induction n as [|n IH]; intros [|c text] Hn; try reflexivity.
  - cbn in Hn. lia.
  - cbn in Hn. cbn [code_points]. destruct (is_high_surrogate c).
    + destruct text as [|d text]; [reflexivity|].
      destruct (is_low_surrogate d); cbn [concat app].
      * rewrite IH; [reflexivity|cbn in Hn; lia].
      * rewrite IH; [reflexivity|cbn in *; lia].
    + cbn [concat app]. rewrite IH; [reflexivity|lia].
Qed.

Lemma keystrokes_text selector text :
  concat (List.map snd (keystrokes selector text)) = text.
Proof.
  unfold keystrokes. rewrite List.map_map. cbn [snd]. rewrite List.map_id.
  apply code_points_concat.
Qed.

Section Typing.
Context (R : forall o : op, resp o -> Prop).

Lemma typing_loop p selector : forall pieces,
  osat R typed
    (fun l (r : result unit) =>
       l `prefix_of` List.map (pair selector) pieces
       /\ (is_ok r -> l = List.map (pair selector) pieces))
    (for_of (fun char (_ : unit) =>
               delay ← randomBetween 50 150;
               await (PageType p selector char delay) id)
            pieces ()).
Proof.
  induction pieces as [|c pieces IH]; cbn [for_of List.map].
  - split; [reflexivity|auto].
  - apply (osat_bind R typed (fun l _ => l = [(selector, c)])).
    + intros x _ [[]|e] _; reflexivity.
    + intros l e ->. split; [|intros []].
      exists (List.map (pair selector) pieces). reflexivity.
    + intros l [] ->. revert IH. apply osat_mono. intros l r [Hprefix Hall].
      split.
      * apply (prefix_app [(selector, c)]), Hprefix.
      * intros Hr. rewrite (Hall Hr). reflexivity.
Qed.

Lemma humanLikeTyping_types p selector text :
  osat R typed
    (fun l (r : result unit) =>
       l `prefix_of` keystrokes selector text
       /\ (is_ok r -> l = keystrokes selector text))
    (humanLikeTyping p selector text).
Proof.
  assert (forall e : error,
            ([] : list (jsstring * jsstring)) `prefix_of` keystrokes selector text
            /\ (is_ok (@Err unit e) -> [] = keystrokes selector text)) as Herr.
  { intros e. split; [apply prefix_nil|intros []]. }
  assert (forall o, is_typing o = false -> is_scroll o = false -> quiet_typing o)
    as Hrest by (intros o H _; exact H).
  unfold humanLikeTyping.
  do 6 (apply (osat_skip R typed quiet_typing typing_unobserved);
        [apply ops_await; reflexivity|exact Herr|intros _]).
  apply (osat_bind R typed _ _ _ _ (typing_loop p selector (code_points text))).
  - intros l e [Hprefix _]. split; [exact Hprefix|intros []].
  - intros l [] [_ Hall].
    generalize (osat_quiet R typed quiet_typing typing_unobserved _
                  (randomDelay_ops R quiet_typing Hrest 500 1000)).
    apply osat_mono. intros l' r ->. rewrite app_nil_r, (Hall Logic.I).
    split; [reflexivity|auto].
Qed.

Lemma performLoginSteps_types p platform config email password :
  obj_get scraperConfigs platform = Own config ->
  osat R typed
    (fun l (r : result unit) =>
       l `prefix_of` credentials_typed config email password
       /\ (is_ok r -> l = credentials_typed config email password))
    (performLoginSteps p platform email password).
Proof.
  intros Hconfig. unfold performLoginSteps. rewrite Hconfig.
  assert (forall o, is_typing o = false -> is_scroll o = false -> quiet_typing o)
    as Hrest by (intros o H _; exact H).
  assert (forall e : error,
            ([] : list (jsstring * jsstring))
              `prefix_of` credentials_typed config email password
            /\ (is_ok (@Err unit e) -> [] = credentials_typed config email password))
    as Herr.
  { intros e. split; [apply prefix_nil|intros []]. }
  apply (osat_skip R typed quiet_typing typing_unobserved);
    [apply waitForSelector_ops, Hrest|exact Herr|intros _].
  apply (osat_bind R typed _ _ _ _
           (humanLikeTyping_types p (usernameInput (selectors config)) email)).
  { intros l e [Hprefix _]. split; [|intros []].
    apply prefix_app_r, Hprefix. }
  intros l [] [_ Hall]. specialize (Hall Logic.I). subst l.
  assert (forall e : error,
            (keystrokes (usernameInput (selectors config)) email ++ [])
              `prefix_of` credentials_typed config email password
            /\ (is_ok (@Err unit e) ->
                keystrokes (usernameInput (selectors config)) email ++ []
                = credentials_typed config email password)) as Herr'.
  { intros e. split; [|intros []]. rewrite app_nil_r. apply prefix_app_r.
    reflexivity. }
  do 2 (apply (osat_skip R typed quiet_typing typing_unobserved);
        [first [apply randomDelay_ops, Hrest|apply waitForSelector_ops, Hrest]
        |exact Herr'|intros _]).
  apply (osat_bind R typed _ _ _ _
           (humanLikeTyping_types p (passwordInput (selectors config)) password)).
  { intros l e [Hprefix _]. split; [|intros []].
    apply prefix_app, Hprefix. }
  intros l [] [_ Hall]. specialize (Hall Logic.I). subst l.
  assert (ops R quiet_typing
            (randomDelay 1000 2000;;
             humanLikeClick p (loginButton (selectors config));;
             try_catch (await (WaitForNavigation p 30000) id)
               (fun _ => request (SetTimeout 3000)))) as Hquiet.
  { pose proof (randomDelay_ops R quiet_typing Hrest).
    pose proof (humanLikeClick_ops R quiet_typing Hrest).
    ops_all; auto. }
  generalize (osat_quiet R typed quiet_typing typing_unobserved _ Hquiet).
  apply osat_mono. intros l' r ->. rewrite !app_nil_r.
  split; [reflexivity|auto].
Qed.

Lemma quiet_typing_rest o :
  is_typing o = false -> is_scroll o = false -> quiet_typing o.
Proof. intros H _. exact H. Qed.

Lemma performStealthLogin_types host p platform email password :
  osat R typed (fun l _ => l `prefix_of` login_typed platform email password)
    (performStealthLogin host p platform email password).
Proof.
  pose proof quiet_typing_rest as Hrest.
  unfold performStealthLogin.
  apply (osat_skip R typed quiet_typing typing_unobserved);
    [apply login_url_ops|intros; apply prefix_nil|intros url].
  apply (osat_skip R typed quiet_typing typing_unobserved);
    [apply ops_await; reflexivity|intros; apply prefix_nil|intros _].
  apply (osat_skip R typed quiet_typing typing_unobserved);
    [apply handlePlatformSpecificPopups_ops, Hrest|intros; apply prefix_nil
    |intros _].
  apply (osat_last R typed quiet_typing typing_unobserved);
    [|intros _; apply handlePostLoginFlow_ops, Hrest].
  unfold login_typed.
  destruct (obj_get scraperConfigs platform) as [config|name|] eqn:Hconfig.
  - generalize (performLoginSteps_types p platform config email password Hconfig).
    apply osat_mono. intros l r [Hprefix _]. exact Hprefix.
  - unfold performLoginSteps. rewrite Hconfig. apply prefix_nil.
  - unfold performLoginSteps. rewrite Hconfig. apply prefix_nil.
Qed.

Lemma scrape_session_types host a b :
  osat R typed
    (fun l _ => l `prefix_of` login_typed (a_platform a) (a_email a) (a_password a))
    (scrape_session host a b).
Proof.
  pose proof quiet_typing_rest as Hrest.
  unfold scrape_session.
  apply (osat_skip R typed quiet_typing typing_unobserved);
    [apply createStealthPage_ops, Hrest|intros; apply prefix_nil|intros p].
  apply (osat_skip R typed quiet_typing typing_unobserved);
    [apply checkExistingSession_ops, Hrest|intros; apply prefix_nil
    |intros isLoggedIn].
  apply (osat_last R typed quiet_typing typing_unobserved).
  - destruct isLoggedIn; [apply prefix_nil|].
    apply (osat_last R typed quiet_typing typing_unobserved);
      [apply performStealthLogin_types|].
    intros _. apply ops_bind; [apply ops_request; reflexivity|].
    intros now. apply saveSessionState_ops, Hrest.
  - intros _. apply ops_bind.
    + apply scrapeTargetProfile_ops; [exact Hrest|exact scroll_not_typing].
    + intros posts. apply ops_bind; [apply ops_request; reflexivity|].
      intros now. exact Logic.I.
Qed.

Lemma scrapeWithCredentials_types host a :
  osat R typed
    (fun l _ => l `prefix_of` login_typed (a_platform a) (a_email a) (a_password a))
    (scrapeWithCredentials host a).
Proof.
  pose proof quiet_typing_rest as Hrest.
  assert (osat R typed
            (fun l (_ : result ScrapeResult) =>
               l `prefix_of` login_typed (a_platform a) (a_email a) (a_password a))
            (launched ← attempt (await (FsEnsureDir (sessionDir host)) id;;
                                 launchStealthBrowser host (userDataDir host a));
             match launched with
             | Err error =>
                 try_finally (scrape_catch host a error) (scrape_finally host None)
             | Ok b =>
                 try_finally (try_catch (scrape_session host a b) (scrape_catch host a))
                   (scrape_finally host (Some b))
             end)) as Hmain.
  { apply (osat_skip R typed quiet_typing typing_unobserved).
    - apply ops_attempt, ops_bind; [apply ops_await; reflexivity|].
      intros _. apply ops_await. reflexivity.
    - intros; apply prefix_nil.
    - intros [b|error].
      + apply (osat_try_finally_quiet R typed quiet_typing typing_unobserved);
          [|apply scrape_finally_ops, Hrest].
        apply (osat_try_catch_quiet R typed quiet_typing typing_unobserved);
          [apply scrape_session_types|intros e; apply scrape_catch_ops].
      + apply (osat_try_finally_quiet R typed quiet_typing typing_unobserved);
          [|apply scrape_finally_ops, Hrest].
        generalize (osat_quiet R typed quiet_typing typing_unobserved _
                      (scrape_catch_ops host R quiet_typing a error)).
        apply osat_mono. intros l r ->. apply prefix_nil. }
  unfold scrapeWithCredentials.
  destruct (obj_get scraperConfigs (a_platform a)) eqn:Hconfig;
    [exact Hmain|exact Hmain|apply prefix_nil].
Qed.
End Typing.

(** X9: on a configured platform the login form is filled in with the
    credentials and nothing else: whatever the page does, what
    [performLoginSteps] types is a beginning of the e-mail, code point by
    code point, into the user name field followed by the password into the
    password field, and all of it when the method completes normally. *)
Theorem performLoginSteps_types_credentials {W}
    (handle : forall o : op, W -> W * resp o) p platform config email password w :
  obj_get scraperConfigs platform = Own config ->
  omap typed (run handle (performLoginSteps p platform email password) w).1.2
    `prefix_of` credentials_typed config email password
  /\ ((run handle (performLoginSteps p platform email password) w).2 = Ok () ->
      omap typed (run handle (performLoginSteps p platform email password) w).1.2
      = credentials_typed config email password).
Proof.
  intros Hconfig.
  destruct (run_osat any_answer typed handle _ _ w
              (performLoginSteps_types any_answer p platform config email password
                 Hconfig)
              (all_answers _)) as [Hprefix Hall].
  split; [exact Hprefix|]. intros Hr. apply Hall. rewrite Hr. exact Logic.I.
Qed.

Lemma performLoginSteps_types_credentials_witness :
  exists config,
    obj_get scraperConfigs (u "twitter") = Own config
    /\ omap typed (run Sim.handle
                     (performLoginSteps 1%nat (u "twitter") (u "hello@example.com")
                        (u "secret")) demo_world).1.2
       `prefix_of` credentials_typed config (u "hello@example.com") (u "secret").
Proof.
  eexists. split; [reflexivity|].
  apply (performLoginSteps_types_credentials Sim.handle 1%nat (u "twitter") _
           (u "hello@example.com") (u "secret") demo_world).
  reflexivity.
Defined.

Example login_types_the_password_last :
  List.map snd
    (omap typed (run Sim.handle
                   (performLoginSteps 1%nat (u "twitter") (u "a@b") (u "pw"))
                   demo_world).1.2)
  = [u "a"; u "@"; u "b"; u "p"; u "w"].
Proof. vm_compute. reflexivity. Qed.

(** X10: in a whole call of [scrapeWithCredentials] nothing is typed into
    the page but the credentials into the two fields of the login form of
    the platform, in this order and at most once; on a platform name
    without a configuration of its own nothing is typed at all. *)
Theorem scrapeWithCredentials_types_only_credentials host {W}
    (handle : forall o : op, W -> W * resp o) a w :
  omap typed (run handle (scrapeWithCredentials host a) w).1.2
    `prefix_of` login_typed (a_platform a) (a_email a) (a_password a).
Proof.
  exact (run_osat any_answer typed handle _ _ w
           (scrapeWithCredentials_types any_answer host a) (all_answers _)).
Qed.

Section Scrolling.
Context (R : forall o : op, resp o -> Prop) (host : Host).

Lemma quiet_scroll_rest o :
  is_typing o = false -> is_scroll o = false -> quiet_scroll o.
Proof. intros _ H. exact H. Qed.

Lemma twitter_scrolls_bounded p cutoffDate : forall remaining posts,
  osat R scrolled (fun l _ => (length l <= remaining)%nat)
    (twitter_scrolls host p cutoffDate remaining posts).
Proof.
  pose proof quiet_scroll_rest as Hrest.
  induction remaining as [|n IH]; intros posts; cbn [twitter_scrolls].
  - cbn. lia.
  - destruct (Nat.ltb _ _); [|cbn; lia].
    apply (osat_skip R scrolled quiet_scroll scroll_unobserved);
      [apply ops_await; reflexivity|cbn; lia|intros tweets].
    apply (osat_skip R scrolled quiet_scroll scroll_unobserved);
      [|cbn; lia|intros posts'].
    { apply harvest_ops. intros el. apply extractTwitterPostData_ops, Hrest. }
    apply (osat_bind R scrolled (fun l _ => l = [false])).
    + intros [[]|e] _; reflexivity.
    + intros l e ->. cbn. lia.
    + intros l [] ->.
      apply (osat_skip R scrolled quiet_scroll scroll_unobserved);
        [apply randomDelay_ops, Hrest|cbn; lia|intros _].
      generalize (IH posts'). apply osat_mono. intros l _ Hl. cbn. lia.
Qed.

Lemma facebook_scrolls_bounded p cutoffDate : forall remaining posts,
  osat R scrolled (fun l _ => (length l <= 2 * remaining)%nat)
    (facebook_scrolls host p cutoffDate remaining posts).
Proof.
  pose proof quiet_scroll_rest as Hrest.
  induction remaining as [|n IH]; intros posts; cbn [facebook_scrolls].
  - cbn. lia.
  - destruct (Nat.ltb _ _); [|cbn; lia].
    apply (osat_skip R scrolled quiet_scroll scroll_unobserved);
      [apply ops_await; reflexivity|cbn; lia|intros fbPosts].
    apply (osat_skip R scrolled quiet_scroll scroll_unobserved);
      [|cbn; lia|intros posts'].
    { apply harvest_ops. intros el. apply extractFacebookPostData_ops, Hrest. }
    apply (osat_bind R scrolled (fun l _ => l = [true])).
    + intros [[]|e] _; reflexivity.
    + intros l e ->. cbn. lia.
    + intros l [] ->.
      apply (osat_skip R scrolled quiet_scroll scroll_unobserved);
        [apply randomDelay_ops, Hrest|cbn; lia|intros _].
      apply (osat_bind R scrolled (fun l _ => l = [false])).
      * intros [[]|e] _; reflexivity.
      * intros l e ->. cbn. lia.
      * intros l [] ->.
        apply (osat_skip R scrolled quiet_scroll scroll_unobserved);
          [apply randomDelay_ops, Hrest|cbn; lia|intros _].
        generalize (IH posts'). apply osat_mono. intros l _ Hl. cbn. lia.
Qed.

Lemma scrapeTwitterPosts_bounded p timeframe :
  osat R scrolled (fun l _ => (length l <= 10)%nat)
    (scrapeTwitterPosts host p timeframe).
Proof.
  pose proof quiet_scroll_rest as Hrest.
  unfold scrapeTwitterPosts.
  apply (osat_skip R scrolled quiet_scroll scroll_unobserved);
    [apply ops_request; reflexivity|cbn; lia|intros now].
  apply (osat_skip R scrolled quiet_scroll scroll_unobserved);
    [apply handlePlatformSpecificPopups_ops, Hrest|cbn; lia|intros _].
  apply (osat_skip R scrolled quiet_scroll scroll_unobserved);
    [|cbn; lia|intros _].
  { apply ops_try_catch; [apply ops_await; reflexivity|intros _; exact Logic.I]. }
  apply (osat_last R scrolled quiet_scroll scroll_unobserved
           (fun l => (length l <= 10)%nat));
    [apply twitter_scrolls_bounded|intros posts; exact Logic.I].
Qed.

Lemma scrapeFacebookPosts_bounded p timeframe :
  osat R scrolled (fun l _ => (length l <= 16)%nat)
    (scrapeFacebookPosts host p timeframe).
Proof.
  pose proof quiet_scroll_rest as Hrest.
  unfold scrapeFacebookPosts.
  apply (osat_skip R scrolled quiet_scroll scroll_unobserved);
    [apply ops_request; reflexivity|cbn; lia|intros now].
  apply (osat_skip R scrolled quiet_scroll scroll_unobserved);
    [apply handlePlatformSpecificPopups_ops, Hrest|cbn; lia|intros _].
  apply (osat_skip R scrolled quiet_scroll scroll_unobserved);
    [|cbn; lia|intros _].
  { apply ops_try_catch; [apply ops_await; reflexivity|intros _; exact Logic.I]. }
  apply (osat_last R scrolled quiet_scroll scroll_unobserved
           (fun l => (length l <= 16)%nat));
    [apply (facebook_scrolls_bounded p _ 8)|intros posts; exact Logic.I].
Qed.

Lemma scrapeTargetProfile_bounded p platform targetUser timeframe :
  osat R scrolled (fun l _ => (length l <= 10)%nat)
    (scrapeTargetProfile host p platform targetUser timeframe).
Proof.
  unfold scrapeTargetProfile.
  destruct (obj_get scraperConfigs platform) as [config|name|] eqn:Hconfig;
    [|cbn; lia|cbn; lia].
  apply (osat_skip R scrolled quiet_scroll scroll_unobserved);
    [apply ops_await; reflexivity|cbn; lia|intros _].
  apply (osat_skip R scrolled quiet_scroll scroll_unobserved);
    [apply ops_request; reflexivity|cbn; lia|intros _].
  destruct (str_eqb platform (u "twitter")); [apply scrapeTwitterPosts_bounded|].
  destruct (str_eqb platform (u "facebook")) eqn:Hfacebook; [|cbn; lia].
  apply str_eqb_eq in Hfacebook. subst platform.
  vm_compute in Hconfig. discriminate Hconfig.
Qed.

Lemma scrapeWithCredentials_bounded a :
  osat R scrolled (fun l _ => (length l <= 10)%nat) (scrapeWithCredentials host a).
Proof.
  pose proof quiet_scroll_rest as Hrest.
  pose proof typing_not_scroll as Htyping.
  assert (forall b,
            osat R scrolled (fun l _ => (length l <= 10)%nat)
              (scrape_session host a b)) as Hsession.
  { intros b. unfold scrape_session.
    apply (osat_skip R scrolled quiet_scroll scroll_unobserved);
      [apply createStealthPage_ops, Hrest|cbn; lia|intros p].
    apply (osat_skip R scrolled quiet_scroll scroll_unobserved);
      [apply checkExistingSession_ops, Hrest|cbn; lia|intros isLoggedIn].
    apply (osat_skip R scrolled quiet_scroll scroll_unobserved);
      [|cbn; lia|intros _].
    { destruct isLoggedIn; [exact Logic.I|].
      apply ops_bind; [apply performStealthLogin_ops; assumption|intros _].
      apply ops_bind; [apply ops_request; reflexivity|intros now].
      apply saveSessionState_ops, Hrest. }
    apply (osat_last R scrolled quiet_scroll scroll_unobserved
             (fun l => (length l <= 10)%nat));
      [apply scrapeTargetProfile_bounded|].
    intros posts. apply ops_bind; [apply ops_request; reflexivity|].
    intros now. exact Logic.I. }
  assert (osat R scrolled (fun l (_ : result ScrapeResult) => (length l <= 10)%nat)
            (launched ← attempt (await (FsEnsureDir (sessionDir host)) id;;
                                 launchStealthBrowser host (userDataDir host a));
             match launched with
             | Err error =>
                 try_finally (scrape_catch host a error) (scrape_finally host None)
             | Ok b =>
                 try_finally (try_catch (scrape_session host a b) (scrape_catch host a))
                   (scrape_finally host (Some b))
             end)) as Hmain.
  { apply (osat_skip R scrolled quiet_scroll scroll_unobserved).
    - apply ops_attempt, ops_bind; [apply ops_await; reflexivity|].
      intros _. apply ops_await. reflexivity.
    - cbn; lia.
    - intros [b|error].
      + apply (osat_try_finally_quiet R scrolled quiet_scroll scroll_unobserved
                 (fun l => (length l <= 10)%nat));
          [|apply scrape_finally_ops, Hrest].
        apply (osat_try_catch_quiet R scrolled quiet_scroll scroll_unobserved
                 (fun l => (length l <= 10)%nat));
          [apply Hsession|intros e; apply scrape_catch_ops].
      + apply (osat_try_finally_quiet R scrolled quiet_scroll scroll_unobserved
                 (fun l => (length l <= 10)%nat));
          [|apply scrape_finally_ops, Hrest].
        generalize (osat_quiet R scrolled quiet_scroll scroll_unobserved _
                      (scrape_catch_ops host R quiet_scroll a error)).
        apply osat_mono. intros l r ->. cbn. lia. }
  unfold scrapeWithCredentials.
  destruct (obj_get scraperConfigs (a_platform a)) eqn:Hconfig;
    [exact Hmain|exact Hmain|cbn; lia].
Qed.
End Scrolling.

(** X11: the acquisition loops are bounded: whatever the page answers,
    [scrapeTwitterPosts] scrolls at most 10 times and
    [scrapeFacebookPosts] at most 16 times, twice in each of at most 8
    rounds. *)
Theorem scroll_rounds_bounded host {W} (handle : forall o : op, W -> W * resp o)
    p timeframe w :
  (length (omap scrolled (run handle (scrapeTwitterPosts host p timeframe) w).1.2)
   <= 10)%nat
  /\ (length (omap scrolled (run handle (scrapeFacebookPosts host p timeframe) w).1.2)
      <= 16)%nat.
Proof.
  split.
  - exact (run_osat any_answer scrolled handle _ _ w
             (scrapeTwitterPosts_bounded any_answer host p timeframe) (all_answers _)).
  - exact (run_osat any_answer scrolled handle _ _ w
             (scrapeFacebookPosts_bounded any_answer host p timeframe) (all_answers _)).
Qed.

(** X12: a call of [scrapeWithCredentials] scrolls the page at most 10
    times, whatever the platform and whatever the site does. *)
Theorem scrapeWithCredentials_scrolls_bounded host {W}
    (handle : forall o : op, W -> W * resp o) a w :
  (length (omap scrolled (run handle (scrapeWithCredentials host a) w).1.2) <= 10)%nat.
Proof.
  exact (run_osat any_answer scrolled handle _ _ w
           (scrapeWithCredentials_bounded any_answer host a) (all_answers _)).
Qed.
